(** * webcsv: schema inference, import and query translation

    A shallow embedding of [main.go] (package main of tangtony/webcsv) and of
    the library calls it relies on, followed by the properties of the
    natural-language specification that were checked against it.

    Go strings are byte sequences: they are modelled as [string], whose
    characters ([ascii]) are exactly the 256 byte values.  Go [int] and [rune]
    values are modelled as [Z]. *)

From Stdlib Require Import String Ascii List ZArith NArith Lia Bool.
From Stdlib Require Import Floats.SpecFloat.
From Stdlib Require Import Permutation.
Import ListNotations.

Local Open Scope string_scope.
Local Open Scope Z_scope.

(** ** Bytes *)

Definition byte_val (c : ascii) : Z := Z.of_N (N_of_ascii c).

Definition byte_of (z : Z) : ascii := ascii_of_N (Z.to_N z).

Definition between (lo hi : Z) (c : ascii) : bool :=
  (lo <=? byte_val c) && (byte_val c <=? hi).

Definition is_digit (c : ascii) : bool := between 48 57 c.
Definition is_upper (c : ascii) : bool := between 65 90 c.
Definition is_lower (c : ascii) : bool := between 97 122 c.
Definition is_alnum (c : ascii) : bool := is_lower c || is_upper c || is_digit c.

Definition is_lower_alnum (c : ascii) : bool := is_lower c || is_digit c.
Definition not_comma (c : ascii) : bool := negb (c =? ",")%char.

Definition len (s : string) : Z := Z.of_nat (String.length s).

Fixpoint string_forallb (p : ascii -> bool) (s : string) : bool :=
  match s with
  | EmptyString => true
  | String c s' => p c && string_forallb p s'
  end.

Fixpoint string_existsb (p : ascii -> bool) (s : string) : bool :=
  match s with
  | EmptyString => false
  | String c s' => p c || string_existsb p s'
  end.

Fixpoint string_map (f : ascii -> ascii) (s : string) : string :=
  match s with
  | EmptyString => EmptyString
  | String c s' => String (f c) (string_map f s')
  end.

Fixpoint string_filter (p : ascii -> bool) (s : string) : string :=
  match s with
  | EmptyString => EmptyString
  | String c s' => if p c then String c (string_filter p s') else string_filter p s'
  end.

Fixpoint string_skip (n : nat) (s : string) : string :=
  match n, s with
  | O, _ => s
  | S n', String _ s' => string_skip n' s'
  | S _, EmptyString => EmptyString
  end.

Fixpoint string_take (n : nat) (s : string) : string :=
  match n, s with
  | S n', String c s' => String c (string_take n' s')
  | _, _ => EmptyString
  end.

Fixpoint string_rev_onto (s acc : string) : string :=
  match s with
  | EmptyString => acc
  | String c s' => string_rev_onto s' (String c acc)
  end.

Definition string_rev (s : string) : string := string_rev_onto s EmptyString.

(** ** unicode/utf8 *)

Module utf8.

Definition RuneError : Z := 0xFFFD.
Definition MaxRune : Z := 0x10FFFF.

(** The [first] table of the package, as a function of the leading byte:
    [0xF0] marks ASCII, [0xF1] an invalid leading byte; otherwise the low
    three bits give the sequence length and the high four the index of the
    range accepted for the second byte. *)
Definition first (b : Z) : Z :=
  if b <? 0x80 then 0xF0
  else if b <? 0xC2 then 0xF1
  else if b <? 0xE0 then 0x02
  else if b =? 0xE0 then 0x13
  else if b <? 0xED then 0x03
  else if b =? 0xED then 0x23
  else if b <? 0xF0 then 0x03
  else if b =? 0xF0 then 0x34
  else if b <? 0xF4 then 0x04
  else if b =? 0xF4 then 0x44
  else 0xF1.

Definition acceptRanges (i : Z) : Z * Z :=
  if i =? 1 then (0xA0, 0xBF)
  else if i =? 2 then (0x80, 0x9F)
  else if i =? 3 then (0x90, 0xBF)
  else if i =? 4 then (0x80, 0x8F)
  else (0x80, 0xBF).

Definition locb : Z := 0x80.
Definition hicb : Z := 0xBF.
Definition maskx : Z := 0x3F.
Definition mask2 : Z := 0x1F.
Definition mask3 : Z := 0x0F.
Definition mask4 : Z := 0x07.

(** [utf8.DecodeRuneInString]: the first rune of [s] and its width in
    bytes; [(RuneError, 0)] on the empty string and [(RuneError, 1)] on an
    invalid encoding. *)
Definition DecodeRuneInString (s : string) : Z * Z :=
  match s with
  | EmptyString => (RuneError, 0)
  | String c0 t0 =>
    let s0 := byte_val c0 in
    let x := first s0 in
    if 0xF0 <=? x then
      if x =? 0xF0 then (s0, 1) else (RuneError, 1)
    else
      let sz := Z.land x 7 in
      let accept := acceptRanges (Z.shiftr x 4) in
      if len s <? sz then (RuneError, 1)
      else
        match t0 with
        | EmptyString => (RuneError, 1)
        | String c1 t1 =>
          let s1 := byte_val c1 in
          if (s1 <? fst accept) || (snd accept <? s1) then (RuneError, 1)
          else if sz <=? 2 then
            (Z.lor (Z.shiftl (Z.land s0 mask2) 6) (Z.land s1 maskx), 2)
          else
            match t1 with
            | EmptyString => (RuneError, 1)
            | String c2 t2 =>
              let s2 := byte_val c2 in
              if (s2 <? locb) || (hicb <? s2) then (RuneError, 1)
              else if sz <=? 3 then
                (Z.lor (Z.lor (Z.shiftl (Z.land s0 mask3) 12)
                              (Z.shiftl (Z.land s1 maskx) 6))
                       (Z.land s2 maskx), 3)
              else
                match t2 with
                | EmptyString => (RuneError, 1)
                | String c3 _ =>
                  let s3 := byte_val c3 in
                  if (s3 <? locb) || (hicb <? s3) then (RuneError, 1)
                  else
                    (Z.lor (Z.lor (Z.lor (Z.shiftl (Z.land s0 mask4) 18)
                                         (Z.shiftl (Z.land s1 maskx) 12))
                                  (Z.shiftl (Z.land s2 maskx) 6))
                           (Z.land s3 maskx), 4)
                end
            end
        end
  end.

(** [utf8.ValidRune]. *)
Definition ValidRune (r : Z) : bool :=
  ((0 <=? r) && (r <? 0xD800)) || ((0xDFFF <? r) && (r <=? MaxRune)).

Definition enc3 (r : Z) : string :=
  String (byte_of (Z.lor 0xE0 (Z.shiftr r 12)))
    (String (byte_of (Z.lor 0x80 (Z.land (Z.shiftr r 6) maskx)))
      (String (byte_of (Z.lor 0x80 (Z.land r maskx))) EmptyString)).

(** The conversion [string(r)] of a rune: its UTF-8 encoding, and the
    encoding of [RuneError] for a value that is not a valid rune. *)
Definition string_of_rune (r : Z) : string :=
  if (0 <=? r) && (r <=? 0x7F) then String (byte_of r) EmptyString
  else if (0 <=? r) && (r <=? 0x7FF) then
    String (byte_of (Z.lor 0xC0 (Z.shiftr r 6)))
      (String (byte_of (Z.lor 0x80 (Z.land r maskx))) EmptyString)
  else if negb (ValidRune r) then enc3 RuneError
  else if r <=? 0xFFFF then enc3 r
  else
    String (byte_of (Z.lor 0xF0 (Z.shiftr r 18)))
      (String (byte_of (Z.lor 0x80 (Z.land (Z.shiftr r 12) maskx)))
        (String (byte_of (Z.lor 0x80 (Z.land (Z.shiftr r 6) maskx)))
          (String (byte_of (Z.lor 0x80 (Z.land r maskx))) EmptyString))).

End utf8.

(** ** strings *)

Module strings.

(** The UTF-8 sequences of [s], one string per rune (an invalid byte is a
    sequence of its own), as [utf8.DecodeRuneInString] walks them. *)
Fixpoint sequences (fuel : nat) (s : string) : list string :=
  match fuel, s with
  | O, _ => []
  | _, EmptyString => []
  | S fuel', _ =>
    let size := Z.to_nat (snd (utf8.DecodeRuneInString s)) in
    string_take size s :: sequences fuel' (string_skip size s)
  end.

(** [explode]: every sequence but the last is replaced by the encoding of
    [utf8.RuneError] when it does not decode; the last one is the unread
    rest of the string. *)
Fixpoint explode (l : list string) : list string :=
  match l with
  | [] => []
  | [x] => [x]
  | x :: l' =>
    (if fst (utf8.DecodeRuneInString x) =? utf8.RuneError
     then utf8.string_of_rune utf8.RuneError else x) :: explode l'
  end.

(** The scan behind [Split] for a non-empty separator: [cur] holds the
    bytes of the current piece in reverse, [skip] the number of bytes of a
    separator occurrence still to step over.  Occurrences are taken leftmost
    first and do not overlap, as the [Index] loop of [genSplit] finds them. *)
Fixpoint splitScan (sep : string) (s : string) (skip : nat) (cur : string)
  : list string :=
  match s with
  | EmptyString => [string_rev cur]
  | String c s' =>
    match skip with
    | S k => splitScan sep s' k cur
    | O =>
      if String.prefix sep s
      then string_rev cur :: splitScan sep s' (String.length sep - 1) EmptyString
      else splitScan sep s' O (String c cur)
    end
  end.

(** [strings.Split]. *)
Definition Split (s sep : string) : list string :=
  match sep with
  | EmptyString => explode (sequences (String.length s) s)
  | _ => splitScan sep s O EmptyString
  end.

(** The scan behind [Replace] with a negative count and a non-empty [old]. *)
Fixpoint replaceScan (old new : string) (s : string) (skip : nat) : string :=
  match s with
  | EmptyString => EmptyString
  | String c s' =>
    match skip with
    | S k => replaceScan old new s' k
    | O =>
      if String.prefix old s
      then new ++ replaceScan old new s' (String.length old - 1)
      else String c (replaceScan old new s' O)
    end
  end.

(** [strings.Replace s old new (-1)]: every non-overlapping occurrence of
    [old] replaced; for an empty [old], [new] is inserted before every
    UTF-8 sequence and at the end. *)
Definition ReplaceAll (s old new : string) : string :=
  match old with
  | EmptyString =>
    fold_right (fun x acc => new ++ x ++ acc) new (sequences (String.length s) s)
  | _ => replaceScan old new s O
  end.

Definition lower_byte (c : ascii) : ascii :=
  if is_upper c then byte_of (byte_val c + 32) else c.

(** [strings.ToLower] on its ASCII path: ['A'..'Z'] are shifted to
    ['a'..'z'] and every other byte is kept.  processCSV applies it to the
    output of the sanitizing expression, which is ASCII; the Unicode path
    taken for strings with bytes beyond 0x7F is not modelled (such bytes
    are kept). *)
Definition ToLower (s : string) : string := string_map lower_byte s.

End strings.

(** ** regexp *)

Module regexp.

(** [ReplaceAllString src repl] for the one expression the program
    compiles, [[^a-zA-Z0-9]+]: each maximal run of characters outside the
    class is replaced by [repl] ([repl] without [$]).  A byte beyond 0x7F
    always belongs to a character outside the class (a multi-byte rune, or
    [utf8.RuneError] for an invalid byte), and the bytes of ASCII letters
    and digits never occur inside a multi-byte sequence, so the runs are
    exactly the runs of bytes that are not ASCII alphanumerics.  [inrun]
    tells that the previous byte was part of the current run. *)
Fixpoint replaceRuns (repl : string) (src : string) (inrun : bool) : string :=
  match src with
  | EmptyString => EmptyString
  | String c src' =>
    if is_alnum c then String c (replaceRuns repl src' false)
    else if inrun then replaceRuns repl src' true
    else repl ++ replaceRuns repl src' true
  end.

Definition ReplaceAllString (src repl : string) : string :=
  replaceRuns repl src false.

End regexp.

(** ** encoding/csv *)

Module csv.

Inductive error :=
| ErrFieldCount      (* "wrong number of fields" *)
| errInvalidDelim.   (* "csv: invalid field or comment delimiter" *)

(** The reader over an opened file.  The lexing of the bytes of the file
    into records (quotes, line ends, the lazy-quotes rule) is not modelled:
    [pending] is the sequence of records the lexer yields for the file under
    the configured [Comma] with [LazyQuotes] set, in which mode no quoting
    error is raised.  What is modelled is what [Read] does with each record:
    the delimiter validation and the field-count rule of [FieldsPerRecord],
    which [NewReader] leaves at 0. *)
Record Reader := {
  Comma : Z;
  FieldsPerRecord : Z;
  pending : list (list string)
}.

Definition NewReader (records : list (list string)) : Reader :=
  {| Comma := 44; FieldsPerRecord := 0; pending := records |}.

Definition setComma (r : Reader) (c : Z) : Reader :=
  {| Comma := c; FieldsPerRecord := FieldsPerRecord r; pending := pending r |}.

Definition validDelim (r : Z) : bool :=
  negb (r =? 0) && negb (r =? 34) && negb (r =? 13) && negb (r =? 10)
  && utf8.ValidRune r && negb (r =? utf8.RuneError).

Inductive result :=
| Record_ (line : list string)
| EOF
| Err (e : error).

(** [Reader.Read]: with [FieldsPerRecord] at 0 the first record read
    fixes the number of fields, and every later record with another number
    of fields is an [ErrFieldCount] error; a negative value disables the
    check.  The comment character is left unset (0) by the program. *)
Definition Read (r : Reader) : result * Reader :=
  if (Comma r =? 0) || negb (validDelim (Comma r)) then (Err errInvalidDelim, r)
  else
    match pending r with
    | [] => (EOF, r)
    | dst :: rest =>
      if 0 <? FieldsPerRecord r then
        let r' := {| Comma := Comma r; FieldsPerRecord := FieldsPerRecord r;
                     pending := rest |} in
        if negb (Z.of_nat (List.length dst) =? FieldsPerRecord r)
        then (Err ErrFieldCount, r')
        else (Record_ dst, r')
      else if FieldsPerRecord r =? 0 then
        (Record_ dst, {| Comma := Comma r;
                         FieldsPerRecord := Z.of_nat (List.length dst);
                         pending := rest |})
      else
        (Record_ dst, {| Comma := Comma r; FieldsPerRecord := FieldsPerRecord r;
                         pending := rest |})
    end.

End csv.

(** ** strconv *)

Module strconv.

(** float64 values: IEEE 754 binary64, as specified by [spec_float]. *)
Definition float64 := spec_float.
Definition prec : Z := 53.
Definition emax : Z := 1024.

Definition is_finite (f : float64) : bool :=
  match f with
  | S754_zero _ | S754_finite _ _ _ => true
  | S754_infinity _ | S754_nan => false
  end.

(** The float64 nearest to [m * 10^e] (ties to even). *)
Definition round_decimal (neg : bool) (m e : Z) : float64 :=
  match m with
  | Zpos p =>
    if 0 <=? e then binary_round prec emax neg (Z.to_pos (m * 10 ^ e)) 0
    else
      let '(q, e', l) := SFdiv_core_binary prec emax m 0 (10 ^ (- e)) 0 in
      binary_round_aux prec emax neg q e' l
  | _ => S754_zero neg
  end.

(** The float64 nearest to [m * 2^e] (ties to even). *)
Definition round_binary (neg : bool) (m e : Z) : float64 :=
  match m with
  | Zpos p => binary_round prec emax neg p e
  | _ => S754_zero neg
  end.

Definition float_of_Z (z : Z) : float64 := round_decimal (z <? 0) (Z.abs z) 0.

(** [lower(c)], that is [c | ('x' - 'X')]. *)
Definition lower (c : Z) : Z := Z.lor c 32.

Fixpoint commonPrefixLenIgnoreCase (s prefix : string) : Z :=
  match s, prefix with
  | String c s', String p prefix' =>
    let c := if is_upper c then byte_val c + 32 else byte_val c in
    if c =? byte_val p then 1 + commonPrefixLenIgnoreCase s' prefix' else 0
  | _, _ => 0
  end.

Definition infinity_prefix (sign : bool) (nsign : Z) (s : string)
  : option (float64 * Z) :=
  let n := commonPrefixLenIgnoreCase s "infinity" in
  let n := if (3 <? n) && (n <? 8) then 3 else n in
  if (n =? 3) || (n =? 8) then Some (S754_infinity sign, nsign + n) else None.

(** [special]: the infinities and NaN, with the number of bytes read. *)
Definition special (s : string) : option (float64 * Z) :=
  match s with
  | EmptyString => None
  | String c s' =>
    if (c =? "+")%char then infinity_prefix false 1 s'
    else if (c =? "-")%char then infinity_prefix true 1 s'
    else if (c =? "i")%char || (c =? "I")%char then infinity_prefix false 0 s
    else if (c =? "n")%char || (c =? "N")%char then
      if commonPrefixLenIgnoreCase s "nan" =? 3 then Some (S754_nan, 3) else None
    else None
  end.

Record scan := {
  sawdot : bool;
  sawdigits : bool;
  nd : Z;
  dp : Z;
  mantissa : Z;
  underscores : bool
}.

(** The digit loop of [readFloat].  The mantissa is accumulated in full
    where the source keeps [maxMantDigits] digits and a [trunc] flag for
    its fast paths; the value converted is that of all the digits. *)
Fixpoint scanMantissa (base : Z) (s : string) (st : scan) : scan * string :=
  match s with
  | EmptyString => (st, s)
  | String c s' =>
    let b := byte_val c in
    if (c =? "_")%char then
      scanMantissa base s'
        {| sawdot := sawdot st; sawdigits := sawdigits st; nd := nd st;
           dp := dp st; mantissa := mantissa st; underscores := true |}
    else if (c =? ".")%char then
      if sawdot st then (st, s)
      else scanMantissa base s'
        {| sawdot := true; sawdigits := sawdigits st; nd := nd st;
           dp := nd st; mantissa := mantissa st; underscores := underscores st |}
    else if is_digit c then
      if (c =? "0")%char && (nd st =? 0) then
        scanMantissa base s'
          {| sawdot := sawdot st; sawdigits := true; nd := nd st;
             dp := dp st - 1; mantissa := mantissa st;
             underscores := underscores st |}
      else
        scanMantissa base s'
          {| sawdot := sawdot st; sawdigits := true; nd := nd st + 1;
             dp := dp st; mantissa := mantissa st * base + (b - 48);
             underscores := underscores st |}
    else if (base =? 16) && (97 <=? lower b) && (lower b <=? 102) then
      scanMantissa base s'
        {| sawdot := sawdot st; sawdigits := true; nd := nd st + 1;
           dp := dp st; mantissa := mantissa st * 16 + (lower b - 97 + 10);
           underscores := underscores st |}
    else (st, s)
  end.

(** The exponent digits: the value saturates once it has reached 10000. *)
Fixpoint scanExponent (s : string) (e : Z) (us : bool) : Z * bool * string :=
  match s with
  | EmptyString => (e, us, s)
  | String c s' =>
    if is_digit c then
      scanExponent s' (if e <? 10000 then e * 10 + (byte_val c - 48) else e) us
    else if (c =? "_")%char then scanExponent s' e true
    else (e, us, s)
  end.

(** The loop of [underscoreOK]; [saw] is the class of the last character:
    ["0"] a digit, ["_"] an underscore, ["!"] another character, ["^"] none
    yet. *)
Fixpoint underscoreLoop (hex : bool) (s : string) (saw : ascii) : bool :=
  match s with
  | EmptyString => negb (saw =? "_")%char
  | String c s' =>
    let b := byte_val c in
    if is_digit c || (hex && (97 <=? lower b) && (lower b <=? 102)) then
      underscoreLoop hex s' "0"%char
    else if (c =? "_")%char then
      if negb (saw =? "0")%char then false else underscoreLoop hex s' "_"%char
    else if (saw =? "_")%char then false
    else underscoreLoop hex s' "!"%char
  end.

Definition underscoreOK (s : string) : bool :=
  let s := match s with
           | String c s' => if (c =? "-")%char || (c =? "+")%char then s' else s
           | EmptyString => s
           end in
  match s with
  | String c0 (String c1 s2) =>
    let l := lower (byte_val c1) in
    if (c0 =? "0")%char && ((l =? 98) || (l =? 111) || (l =? 120))
    then underscoreLoop (l =? 120) s2 "0"%char
    else underscoreLoop false s "^"%char
  | _ => underscoreLoop false s "^"%char
  end.

(** [readFloat] on a string that must be read to its end: the sign, the
    full mantissa, the exponent ([10^exp] or, for a hexadecimal mantissa,
    [2^exp]) and the base flag.  [None] is the [ok = false] return, or a
    return that leaves part of [s] unread. *)
Definition readFloat (s : string) : option (Z * Z * bool * bool) :=
  match s with
  | EmptyString => None
  | String c s' =>
    let neg := (c =? "-")%char in
    let t := if (c =? "+")%char || (c =? "-")%char then s' else s in
    let '(hex, t) :=
      match t with
      | String c0 (String c1 (String c2 t3)) =>
        if (c0 =? "0")%char && (lower (byte_val c1) =? 120)
        then (true, String c2 t3) else (false, t)
      | _ => (false, t)
      end in
    let base := if hex then 16 else 10 in
    let '(st, t) :=
      scanMantissa base t
        {| sawdot := false; sawdigits := false; nd := 0; dp := 0;
           mantissa := 0; underscores := false |} in
    if negb (sawdigits st) then None
    else
      let dp0 := if sawdot st then dp st else nd st in
      let dp0 := if hex then dp0 * 4 else dp0 in
      let ndMant := if hex then nd st * 4 else nd st in
      let expChar := if hex then 112 else 101 in
      let tail :=
        match t with
        | String c t' =>
          if lower (byte_val c) =? expChar then
            match t' with
            | EmptyString => None
            | String c' t'' =>
              let esign := if (c' =? "-")%char then -1 else 1 in
              let u := if (c' =? "+")%char || (c' =? "-")%char then t'' else t' in
              match u with
              | EmptyString => None
              | String d _ =>
                if negb (is_digit d) then None
                else
                  let '(e, us, rest) := scanExponent u 0 (underscores st) in
                  Some (dp0 + e * esign, us, rest)
              end
            end
          else if hex then None else Some (dp0, underscores st, t)
        | EmptyString => if hex then None else Some (dp0, underscores st, t)
        end in
      match tail with
      | None => None
      | Some (dp1, us, rest) =>
        let exp := if mantissa st =? 0 then 0 else dp1 - ndMant in
        if us && negb (underscoreOK s) then None
        else
          match rest with
          | EmptyString => Some (mantissa st, exp, neg, hex)
          | _ => None
          end
      end
  end.

(** [ParseFloat s 64], with [None] for a non-nil error: a syntax error, or
    the range error of a value that rounds to an infinity. *)
Definition ParseFloat (s : string) : option float64 :=
  match special s with
  | Some (f, n) => if n =? len s then Some f else None
  | None =>
    match readFloat s with
    | None => None
    | Some (m, exp, neg, hex) =>
      let f := if hex then round_binary neg m exp else round_decimal neg m exp in
      if is_finite f then Some f else None
    end
  end.

End strconv.

(** ** The store: SQLite behind database/sql

    The store is an external collaborator.  It is modelled on the fragment
    of SQL that the statements built by the program fall in when column
    names and query keys are plain identifiers: tables of text columns,
    positional parameters bound to text, equality filters joined by AND.
    A statement outside the fragment has no modelled result ([None]); inside
    it the result is the one SQLite gives, an error with its message or the
    new database / the selected rows. *)

Module sqlite.

Record table := {
  t_name : string;
  t_columns : list string;
  t_rows : list (list string)
}.

Record database := {
  tables : list table;
  indexes : list string
}.

Definition empty : database := {| tables := []; indexes := [] |}.

Inductive result (A : Type) :=
| Done (a : A)
| Failed (message : string).
Arguments Done {A} a.
Arguments Failed {A} message.

Inductive token :=
| Word (w : string)
| LParen | RParen | Comma | Semi | Star | Equal | Param.

Definition is_word_char (c : ascii) : bool := is_alnum c || (c =? "_")%char.

Definition is_space (c : ascii) : bool :=
  (c =? " ")%char || (byte_val c =? 9) || (byte_val c =? 10)
  || (byte_val c =? 12) || (byte_val c =? 13).

Definition punct (c : ascii) : option token :=
  if (c =? "(")%char then Some LParen
  else if (c =? ")")%char then Some RParen
  else if (c =? ",")%char then Some Comma
  else if (c =? ";")%char then Some Semi
  else if (c =? "*")%char then Some Star
  else if (c =? "=")%char then Some Equal
  else if (c =? "?")%char then Some Param
  else None.

Definition flush (cur : string) (ts : list token) : list token :=
  match cur with
  | EmptyString => ts
  | _ => Word (string_rev cur) :: ts
  end.

Definition starts_with_word_char (s : string) : bool :=
  match s with
  | String c _ => is_word_char c
  | EmptyString => false
  end.

(** The tokens of a statement; [cur] is the word being read, in reverse.
    Any character other than a letter, a digit, an underscore, white space
    and the punctuation above, and a [?] that runs into a word (a numbered
    parameter), puts the statement outside the fragment. *)
Fixpoint lex (s : string) (cur : string) : option (list token) :=
  match s with
  | EmptyString => Some (flush cur [])
  | String c s' =>
    if is_word_char c then lex s' (String c cur)
    else
      match punct c with
      | Some t =>
        if (c =? "?")%char && starts_with_word_char s' then None
        else option_map (fun ts => flush cur (t :: ts)) (lex s' EmptyString)
      | None =>
        if is_space c then option_map (flush cur) (lex s' EmptyString)
        else None
      end
  end.

Definition tokens (s : string) : option (list token) := lex s EmptyString.

(** The keywords of SQLite.  Some may be used as names and some may not,
    depending on the position and the version; a keyword in the place of
    a name is treated as outside the fragment. *)
Definition keywords : list string :=
  ["abort"; "action"; "add"; "after"; "all"; "alter"; "always"; "analyze";
   "and"; "as"; "asc"; "attach"; "autoincrement"; "before"; "begin";
   "between"; "by"; "cascade"; "case"; "cast"; "check"; "collate"; "column";
   "commit"; "conflict"; "constraint"; "create"; "cross"; "current";
   "current_date"; "current_time"; "current_timestamp"; "database";
   "default"; "deferrable"; "deferred"; "delete"; "desc"; "detach";
   "distinct"; "do"; "drop"; "each"; "else"; "end"; "escape"; "except";
   "exclude"; "exclusive"; "exists"; "explain"; "fail"; "filter"; "first";
   "following"; "for"; "foreign"; "from"; "full"; "generated"; "glob";
   "group"; "groups"; "having"; "if"; "ignore"; "immediate"; "in"; "index";
   "indexed"; "initially"; "inner"; "insert"; "instead"; "intersect";
   "into"; "is"; "isnull"; "join"; "key"; "last"; "left"; "like"; "limit";
   "match"; "materialized"; "natural"; "no"; "not"; "nothing"; "notnull";
   "null"; "nulls"; "of"; "offset"; "on"; "or"; "order"; "others"; "outer";
   "over"; "partition"; "plan"; "pragma"; "preceding"; "primary"; "query";
   "raise"; "range"; "recursive"; "references"; "regexp"; "reindex";
   "release"; "rename"; "replace"; "restrict"; "returning"; "right";
   "rollback"; "row"; "rows"; "savepoint"; "select"; "set"; "table";
   "temp"; "temporary"; "then"; "ties"; "to"; "transaction"; "trigger";
   "unbounded"; "union"; "unique"; "update"; "using"; "vacuum"; "values";
   "view"; "virtual"; "when"; "where"; "window"; "with"; "within";
   "without"].

(** Names with a meaning of their own where an expression is expected:
    the row id and the boolean constants. *)
Definition reserved_names : list string :=
  ["rowid"; "oid"; "_rowid_"; "true"; "false"].

Definition mem (w : string) (l : list string) : bool :=
  existsb (String.eqb w) l.

Definition fold (w : string) : string := strings.ToLower w.

(** Identifiers compare without regard to (ASCII) case. *)
Definition same_name (a b : string) : bool := String.eqb (fold a) (fold b).

Definition is_keyword (w : string) : bool := mem (fold w) keywords.

Definition is_word (k w : string) : bool := String.eqb (fold w) k.

Definition starts_with_digit (w : string) : bool :=
  match w with
  | String c _ => is_digit c
  | EmptyString => false
  end.

(** A word that names a column without further ado: it starts with a
    letter or an underscore and is no keyword. *)
Definition identifier (w : string) : bool :=
  negb (w =? "")%string && string_forallb is_word_char w
  && negb (starts_with_digit w) && negb (is_keyword w).

Definition find_table (db : database) (name : string) : option table :=
  find (fun t => same_name (t_name t) name) (tables db).

Fixpoint column_index (columns : list string) (name : string) : option nat :=
  match columns with
  | [] => None
  | c :: columns' =>
    if same_name c name then Some O
    else option_map S (column_index columns' name)
  end.

Definition add_column (w : string) (columns : list string)
  : result (list string) :=
  if existsb (same_name w) columns
  then Failed ("duplicate column name: " ++ w)
  else Done (columns ++ [w])%list.

(** The column definitions of CREATE TABLE, after the opening parenthesis:
    a name, optionally followed by the type [text], then a comma or the
    closing parenthesis and the end of the statement.  A number or a
    malformed word in the place of the name, and the end of the input, are
    errors of the parser; a repeated name is rejected as the column is
    added. *)
Fixpoint column_defs (ts : list token) (columns : list string)
  : option (result (list string)) :=
  match ts with
  | [] => Some (Failed "incomplete input")
  | Word w :: ts1 =>
    if starts_with_digit w then Some (Failed ("syntax error near " ++ w))
    else if is_keyword w then None
    else
      match ts1 with
      | Word ty :: ts2 =>
        if is_word "text" ty then
          match ts2 with
          | Comma :: ts3 =>
            match add_column w columns with
            | Done columns' => column_defs ts3 columns'
            | Failed m => Some (Failed m)
            end
          | [RParen] | [RParen; Semi] => Some (add_column w columns)
          | [] => Some (Failed "incomplete input")
          | _ => None
          end
        else None
      | Comma :: ts2 =>
        match add_column w columns with
        | Done columns' => column_defs ts2 columns'
        | Failed m => Some (Failed m)
        end
      | [RParen] | [RParen; Semi] => Some (add_column w columns)
      | [] => Some (Failed "incomplete input")
      | _ => None
      end
  | _ => None
  end.

(** The name of a table or an index where the statement declares or
    names one. *)
Definition plain_name (w : string) : bool :=
  negb (starts_with_digit w) && negb (is_keyword w).

Definition create_table (db : database) (name : string) (ts : list token)
  : option (result database) :=
  if negb (plain_name name) then None
  else
    match column_defs ts [] with
    | None => None
    | Some (Failed m) => Some (Failed m)
    | Some (Done columns) =>
      match find_table db name with
      | Some _ => Some (Failed ("table " ++ name ++ " already exists"))
      | None =>
        Some (Done {| tables := (tables db ++
                                 [{| t_name := name; t_columns := columns;
                                     t_rows := [] |}])%list;
                      indexes := indexes db |})
      end
    end.

(** A column named where an expression is expected. *)
Definition resolve (columns : list string) (w : string)
  : option (result nat) :=
  match column_index columns w with
  | Some i => Some (Done i)
  | None =>
    if starts_with_digit w || is_keyword w || mem (fold w) reserved_names
    then None
    else Some (Failed ("no such column: " ++ w))
  end.

Definition create_index (db : database) (name tname column : string)
  : option (result database) :=
  if starts_with_digit name then Some (Failed ("syntax error near " ++ name))
  else if is_keyword name || negb (plain_name tname) then None
  else
    match find_table db tname with
    | None => Some (Failed ("no such table: main." ++ tname))
    | Some t =>
      if existsb (same_name name) (indexes db)
      then Some (Failed ("index " ++ name ++ " already exists"))
      else if existsb (fun t' => same_name name (t_name t')) (tables db)
      then Some (Failed ("there is already a table named " ++ name))
      else
        match resolve (t_columns t) column with
        | None => None
        | Some (Failed m) => Some (Failed m)
        | Some (Done _) =>
          Some (Done {| tables := tables db;
                        indexes := (indexes db ++ [name])%list |})
        end
    end.

(** The placeholders of INSERT ... VALUES, after the opening parenthesis;
    [n] counts those read. *)
Fixpoint placeholders (ts : list token) (n : nat) : option (result nat) :=
  match ts with
  | [] => Some (Failed "incomplete input")
  | Param :: Comma :: ts' => placeholders ts' (S n)
  | [Param; RParen] | [Param; RParen; Semi] => Some (Done (S n))
  | [Param] => Some (Failed "incomplete input")
  | _ => None
  end.

Definition add_row (t : table) (row : list string) : table :=
  {| t_name := t_name t; t_columns := t_columns t;
     t_rows := (t_rows t ++ [row])%list |}.

Fixpoint update_table (ts : list table) (name : string) (f : table -> table)
  : list table :=
  match ts with
  | [] => []
  | t :: ts' =>
    if same_name (t_name t) name then f t :: ts'
    else t :: update_table ts' name f
  end.

Definition insert (db : database) (tname : string) (ts : list token)
           (args : list string) : option (result database) :=
  if negb (plain_name tname) then None
  else
    match placeholders ts O with
    | None => None
    | Some (Failed m) => Some (Failed m)
    | Some (Done n) =>
      match find_table db tname with
      | None => Some (Failed ("no such table: " ++ tname))
      | Some t =>
        if negb (Nat.eqb n (List.length (t_columns t)))
        then Some (Failed ("table " ++ tname ++ " has another number of columns than values were supplied"))
        else if negb (Nat.eqb n (List.length args)) then None
        else
          Some (Done {| tables := update_table (tables db) tname
                                    (fun t => add_row t args);
                        indexes := indexes db |})
      end
    end.

(** [db.Exec] of one statement with its arguments. *)
Definition exec (db : database) (query : string) (args : list string)
  : option (result database) :=
  match tokens query with
  | None => None
  | Some (Word w1 :: Word w2 :: Word name :: LParen :: ts) =>
    if is_word "create" w1 && is_word "table" w2
    then match args with [] => create_table db name ts | _ => None end
    else None
  | Some [Word w1; Word w2; Word name; Word w3; Word tname;
          LParen; Word column; RParen] =>
    if is_word "create" w1 && is_word "index" w2 && is_word "on" w3
    then match args with [] => create_index db name tname column | _ => None end
    else None
  | Some (Word w1 :: Word w2 :: Word tname :: Word w3 :: LParen :: ts) =>
    if is_word "insert" w1 && is_word "into" w2 && is_word "values" w3
    then insert db tname ts args
    else None
  | Some _ => None
  end.

(** The conditions after WHERE: [name = ?] joined by AND, each resolved
    to the index of its column. *)
Fixpoint conditions (columns : list string) (ts : list token)
  : option (result (list nat)) :=
  match ts with
  | Word w :: Equal :: Param :: ts' =>
    match resolve columns w with
    | None => None
    | Some (Failed m) =>
      match ts' with
      | [] => Some (Failed m)
      | Word a :: ts'' =>
        if is_word "and" a then
          match conditions columns ts'' with
          | None => None
          | Some _ => Some (Failed m)
          end
        else None
      | _ => None
      end
    | Some (Done i) =>
      match ts' with
      | [] => Some (Done [i])
      | Word a :: ts'' =>
        if is_word "and" a then
          match conditions columns ts'' with
          | None => None
          | Some (Failed m) => Some (Failed m)
          | Some (Done l) => Some (Done (i :: l))
          end
        else None
      | _ => None
      end
    end
  | _ => None
  end.

(** A row passes when each filtered column holds exactly the bound text:
    columns and parameters are both text, compared byte for byte. *)
Fixpoint passes (row : list string) (filter : list (nat * string)) : bool :=
  match filter with
  | [] => true
  | (i, v) :: filter' =>
    match nth_error row i with
    | Some cell => String.eqb cell v && passes row filter'
    | None => false
    end
  end.

(** [db.Query] of one statement with its arguments: the column names and
    the rows of the result, in insertion order.  The statements covered are
    SELECT * FROM a table, optionally followed by an alias for the table
    (the grammar of SQLite does not require AS before it) or by WHERE and
    conditions. *)
Definition query (db : database) (text : string) (args : list string)
  : option (result (list string * list (list string))) :=
  match tokens text with
  | Some (Word w1 :: Star :: Word w2 :: Word tname :: ts) =>
    if is_word "select" w1 && is_word "from" w2 && plain_name tname then
      match ts with
      | [] =>
        match args with
        | [] =>
          match find_table db tname with
          | None => Some (Failed ("no such table: " ++ tname))
          | Some t => Some (Done (t_columns t, t_rows t))
          end
        | _ => None
        end
      | [Word alias] =>
        if plain_name alias then
          match args with
          | [] =>
            match find_table db tname with
            | None => Some (Failed ("no such table: " ++ tname))
            | Some t => Some (Done (t_columns t, t_rows t))
            end
          | _ => None
          end
        else None
      | Word w3 :: ts' =>
        if is_word "where" w3 then
          match find_table db tname with
          | None => Some (Failed ("no such table: " ++ tname))
          | Some t =>
            match conditions (t_columns t) ts' with
            | None => None
            | Some (Failed m) => Some (Failed m)
            | Some (Done l) =>
              if Nat.eqb (List.length l) (List.length args) then
                Some (Done (t_columns t,
                            filter (fun row => passes row (combine l args))
                                   (t_rows t)))
              else None
            end
          end
        else None
      | _ => None
      end
    else None
  | _ => None
  end.

End sqlite.

(** ** The program: package main *)

(** The reasons for which the program ends through [log.Fatal]. *)
Inductive fatal :=
| NoCSVFile                                   (* "no CSV file specified" *)
| InvalidDelimiter (delimiter : string)       (* "... is not a valid delimiter, expected a single character" *)
| CouldNotOpen (path : string)                (* "could not open CSV file at: ..." *)
| CouldNotReadHeader (e : csv.result)         (* "could not read header: ..." *)
| CouldNotCreateTable (err : string)          (* "could not create SQLite table: ..." *)
| CouldNotCreateIndex (index err : string)    (* "could not create index on ...: ..." *)
| ReadError (e : csv.error)                   (* log.Fatalln(err) in the import loop *)
| CouldNotImport (err query : string).        (* "could not import data into SQLite: ...; command: ..." *)

(** Run-time panics of the Go runtime. *)
Inductive panic :=
| IndexOutOfRange (index length : Z).         (* "index out of range [index] with length length" *)

(** How a call ends: normally, by [log.Fatal], by a panic, with a statement
    sent to the store that is outside the modelled fragment of SQL, or with
    the fuel of a loop of the model used up. *)
Inductive run (A : Type) :=
| Ok (a : A)
| Fatal (f : fatal)
| Panic (p : panic)
| Unknown
| OutOfFuel.
Arguments Ok {A} a.
Arguments Fatal {A} f.
Arguments Panic {A} p.
Arguments Unknown {A}.
Arguments OutOfFuel {A}.

(** The package-level variables, and the statements passed to [db.Exec] so
    far ([executed], kept to observe the calls made to the store).  The
    variable [server] plays no part before serving. *)
Record process := {
  csvFile : string;
  csvDelimiter : Z;
  csvFieldCount : Z;
  csvHasHeader : bool;
  csvHeader : list string;
  csvIndicies : list string;
  db : sqlite.database;
  executed : list (string * list string)
}.

Definition start : process :=
  {| csvFile := ""; csvDelimiter := 0; csvFieldCount := 0; csvHasHeader := false;
     csvHeader := []; csvIndicies := []; db := sqlite.empty; executed := [] |}.

(** State and early exit: a computation takes the process state and yields
    the state it leaves with the way it ended. *)
Definition M (A : Type) : Type := process -> process * run A.

Definition ret {A} (a : A) : M A := fun p => (p, Ok a).

Definition bind {A B} (m : M A) (k : A -> M B) : M B :=
  fun p =>
    match m p with
    | (p', Ok a) => k a p'
    | (p', Fatal f) => (p', Fatal f)
    | (p', Panic e) => (p', Panic e)
    | (p', Unknown) => (p', Unknown)
    | (p', OutOfFuel) => (p', OutOfFuel)
    end.

Notation "x <- m ;; k" := (bind m (fun x => k))
  (at level 61, m at next level, right associativity).
Notation "m ;;; k" := (bind m (fun _ => k))
  (at level 61, right associativity).

Definition get : M process := fun p => (p, Ok p).
Definition stop {A} (r : run A) : M A := fun p => (p, r).
Definition logFatal {A} (f : fatal) : M A := stop (Fatal f).
Definition when (b : bool) (m : M unit) : M unit := if b then m else ret tt.

Definition set_csvFile (v : string) : M unit := fun p =>
  ({| csvFile := v; csvDelimiter := csvDelimiter p; csvFieldCount := csvFieldCount p;
      csvHasHeader := csvHasHeader p; csvHeader := csvHeader p;
      csvIndicies := csvIndicies p; db := db p; executed := executed p |}, Ok tt).
Definition set_csvDelimiter (v : Z) : M unit := fun p =>
  ({| csvFile := csvFile p; csvDelimiter := v; csvFieldCount := csvFieldCount p;
      csvHasHeader := csvHasHeader p; csvHeader := csvHeader p;
      csvIndicies := csvIndicies p; db := db p; executed := executed p |}, Ok tt).
Definition set_csvFieldCount (v : Z) : M unit := fun p =>
  ({| csvFile := csvFile p; csvDelimiter := csvDelimiter p; csvFieldCount := v;
      csvHasHeader := csvHasHeader p; csvHeader := csvHeader p;
      csvIndicies := csvIndicies p; db := db p; executed := executed p |}, Ok tt).
Definition set_csvHasHeader (v : bool) : M unit := fun p =>
  ({| csvFile := csvFile p; csvDelimiter := csvDelimiter p;
      csvFieldCount := csvFieldCount p; csvHasHeader := v; csvHeader := csvHeader p;
      csvIndicies := csvIndicies p; db := db p; executed := executed p |}, Ok tt).
Definition set_csvHeader (v : list string) : M unit := fun p =>
  ({| csvFile := csvFile p; csvDelimiter := csvDelimiter p;
      csvFieldCount := csvFieldCount p; csvHasHeader := csvHasHeader p;
      csvHeader := v; csvIndicies := csvIndicies p; db := db p;
      executed := executed p |}, Ok tt).
Definition set_csvIndicies (v : list string) : M unit := fun p =>
  ({| csvFile := csvFile p; csvDelimiter := csvDelimiter p;
      csvFieldCount := csvFieldCount p; csvHasHeader := csvHasHeader p;
      csvHeader := csvHeader p; csvIndicies := v; db := db p;
      executed := executed p |}, Ok tt).
Definition set_db (v : sqlite.database) : M unit := fun p =>
  ({| csvFile := csvFile p; csvDelimiter := csvDelimiter p;
      csvFieldCount := csvFieldCount p; csvHasHeader := csvHasHeader p;
      csvHeader := csvHeader p; csvIndicies := csvIndicies p; db := v;
      executed := executed p |}, Ok tt).
Definition record_statement (query : string) (args : list string) : M unit := fun p =>
  ({| csvFile := csvFile p; csvDelimiter := csvDelimiter p;
      csvFieldCount := csvFieldCount p; csvHasHeader := csvHasHeader p;
      csvHeader := csvHeader p; csvIndicies := csvIndicies p; db := db p;
      executed := (executed p ++ [(query, args)])%list |}, Ok tt).

(** [db.Exec(query, args...)]: the error returned, if any. *)
Definition dbExec (query : string) (args : list string) : M (option string) :=
  record_statement query args ;;;
  p <- get ;;
  match sqlite.exec (db p) query args with
  | None => stop Unknown
  | Some (sqlite.Failed err) => ret (Some err)
  | Some (sqlite.Done d) => set_db d ;;; ret None
  end.

(** [trySplit]: the first split, in the order of the separators, that does
    not have exactly one piece. *)
Fixpoint trySplit (str : string) (seps : list string) : list string :=
  match seps with
  | [] => [str]
  | sep :: seps' =>
    let s := strings.Split str sep in
    if negb (Z.of_nat (List.length s) =? 1) then s else trySplit str seps'
  end.

(** The values of the flags after [flagSet.Parse] (command line over
    environment over defaults): the input of [parseEnvironment]. *)
Record flags := {
  flag_file : string;
  flag_delimiter : string;
  flag_field_count : Z;
  flag_has_header : bool;
  flag_header : string;
  flag_indicies : string
}.

Definition defaults : flags :=
  {| flag_file := ""; flag_delimiter := ","; flag_field_count := 0;
     flag_has_header := true; flag_header := ""; flag_indicies := "" |}.

Definition parseEnvironment (f : flags) : M unit :=
  set_csvFile (flag_file f) ;;;
  set_csvFieldCount (flag_field_count f) ;;;
  set_csvHasHeader (flag_has_header f) ;;;
  when (flag_file f =? "")%string (logFatal NoCSVFile) ;;;
  set_csvDelimiter (fst (utf8.DecodeRuneInString (flag_delimiter f))) ;;;
  p <- get ;;
  when (csvDelimiter p =? utf8.RuneError)
       (logFatal (InvalidDelimiter (flag_delimiter f))) ;;;
  when (negb (flag_header f =? "")%string)
       (set_csvHeader
          (trySplit (flag_header f) [utf8.string_of_rune (csvDelimiter p); ","])) ;;;
  when (negb (flag_indicies f =? "")%string)
       (set_csvIndicies
          (trySplit (flag_indicies f) [utf8.string_of_rune (csvDelimiter p); ","])).

(** The sanitizing of a header token in the CREATE TABLE loop:
    [strings.ToLower(reg.ReplaceAllString(csvHeader[i], ""))]. *)
Definition sanitize (h : string) : string :=
  strings.ToLower (regexp.ReplaceAllString h "").

(** The loop building the CREATE TABLE statement; [todo] is the number of
    iterations left, [csvFieldCount - i].  Indexing [csvHeader] beyond its
    length panics. *)
Fixpoint createTableLoop (header : list string) (fieldCount : Z) (todo : nat)
         (i : Z) (query : string) : run string :=
  match todo with
  | O => Ok query
  | S todo' =>
    match nth_error header (Z.to_nat i) with
    | None => Panic (IndexOutOfRange i (Z.of_nat (List.length header)))
    | Some h =>
      let query := query ++ sanitize h in
      let query := if i =? fieldCount - 1 then query ++ " text);"
                   else query ++ " text, " in
      createTableLoop header fieldCount todo' (i + 1) query
    end
  end.

Definition createTableQuery (header : list string) (fieldCount : Z) : run string :=
  createTableLoop header fieldCount (Z.to_nat fieldCount) 0 "create table csv (".

(** The loop over [csvIndicies]. *)
Fixpoint createIndicies (indicies : list string) : M unit :=
  match indicies with
  | [] => ret tt
  | index :: indicies' =>
    err <- dbExec ("create index " ++ index ++ "_idx on csv (" ++ index ++ ")") [] ;;
    match err with
    | Some e => logFatal (CouldNotCreateIndex index e)
    | None => createIndicies indicies'
    end
  end.

(** The loop building one INSERT statement and its arguments from a line.
    Indexing [line] beyond its length panics. *)
Fixpoint insertLoop (line : list string) (fieldCount : Z) (todo : nat) (i : Z)
         (query : string) (args : list string) : run (string * list string) :=
  match todo with
  | O => Ok (query, args)
  | S todo' =>
    let query := if i =? fieldCount - 1 then query ++ "?);" else query ++ "?," in
    match nth_error line (Z.to_nat i) with
    | None => Panic (IndexOutOfRange i (Z.of_nat (List.length line)))
    | Some cell =>
      insertLoop line fieldCount todo' (i + 1) query (args ++ [cell])%list
    end
  end.

Definition insertStatement (line : list string) (fieldCount : Z)
  : run (string * list string) :=
  insertLoop line fieldCount (Z.to_nat fieldCount) 0 "insert into csv values (" [].

(** The import loop: one iteration per call of [reader.Read]; [rows] counts
    the lines imported.  Every call of [Read] that does not end the loop
    consumes a record, so one unit of fuel more than the number of pending
    records is enough. *)
Fixpoint importLoop (fuel : nat) (reader : csv.Reader) (rows : Z) : M Z :=
  match fuel with
  | O => stop OutOfFuel
  | S fuel' =>
    match csv.Read reader with
    | (csv.EOF, _) => ret rows
    | (csv.Err e, _) => logFatal (ReadError e)
    | (csv.Record_ line, reader') =>
      p <- get ;;
      qa <- stop (insertStatement line (csvFieldCount p)) ;;
      err <- dbExec (fst qa) (snd qa) ;;
      match err with
      | Some e => logFatal (CouldNotImport e (fst qa))
      | None => importLoop fuel' reader' (rows + 1)
      end
    end
  end.

(** [processCSV], block by block.  [file] is what [os.Open(csvFile)] finds:
    nothing, or a file given by the records the CSV reader yields for it.
    [sql.Open] only registers the driver and the data source name of a fresh
    in-memory database, and does not fail. *)

(** Lines 112 to 129: the database handle, the file and the reader. *)
Definition openReader (file : option (list (list string))) : M csv.Reader :=
  set_db sqlite.empty ;;;
  p <- get ;;
  match file with
  | None => logFatal (CouldNotOpen (csvFile p))
  | Some records => ret (csv.setComma (csv.NewReader records) (csvDelimiter p))
  end.

(** Lines 131 to 149: the header line, read whenever the file is said to
    have one and kept only without a custom header. *)
Definition readHeader (reader : csv.Reader) : M csv.Reader :=
  p <- get ;;
  if csvHasHeader p then
    match csv.Read reader with
    | (csv.Record_ line, reader') =>
      when (Z.of_nat (List.length (csvHeader p)) =? 0) (set_csvHeader line) ;;;
      ret reader'
    | (e, _) => logFatal (CouldNotReadHeader e)
    end
  else ret reader.

(** Lines 151 to 155. *)
Definition resolveFieldCount : M unit :=
  p <- get ;;
  when (csvFieldCount p =? 0)
       (set_csvFieldCount (Z.of_nat (List.length (csvHeader p)))).

(** Lines 157 to 175. *)
Definition createTable : M unit :=
  p <- get ;;
  query <- stop (createTableQuery (csvHeader p) (csvFieldCount p)) ;;
  err <- dbExec query [] ;;
  match err with
  | Some e => logFatal (CouldNotCreateTable e)
  | None => ret tt
  end.

(** Lines 187 to 220. *)
Definition importRows (reader : csv.Reader) : M Z :=
  importLoop (S (List.length (csv.pending reader))) reader 0.

Definition processCSV (file : option (list (list string))) : M Z :=
  reader <- openReader file ;;
  reader <- readHeader reader ;;
  resolveFieldCount ;;;
  createTable ;;;
  p <- get ;;
  createIndicies (csvIndicies p) ;;;
  importRows reader.

(** ** The request handler *)

(** A value of a result record: the cell as a string, or as a float64. *)
Inductive value :=
| Str (s : string)
| Num (f : strconv.float64).

(** The map built for a row, as the list of its entries in insertion
    order. *)
Definition record := list (string * value).

Fixpoint map_set (m : record) (k : string) (v : value) : record :=
  match m with
  | [] => [(k, v)]
  | (k', v') :: m' =>
    if (k' =? k)%string then (k, v) :: m' else (k', v') :: map_set m' k v
  end.

Inductive body :=
| Message (err : string)
| Records (data : list record).

(** What the handler answers: a status code with a JSON body, or, when
    [encoding/json] refuses the value handed to [c.IndentedJSON], no JSON
    document at all (the rendering error aborts the request). *)
Inductive response :=
| JSON (code : Z) (b : body)
| RenderError (err : string).

(** The two loops building the query text and its arguments, for the keys
    in the order in which the [range] over the map of parameters visits
    them, and the removal of the final five bytes. *)
Definition addValues (key : string) (values : list string)
           (qa : string * list string) : string * list string :=
  fold_left (fun qa value => (fst qa ++ key ++ "=? AND ", (snd qa ++ [value])%list))
            values qa.

Definition buildQuery (params : list (string * list string))
  : string * list string :=
  let qa := fold_left (fun qa kv => addValues (fst kv) (snd kv) qa) params
                      ("SELECT * FROM csv WHERE ", []) in
  (string_take (String.length (fst qa) - 5) (fst qa), snd qa).

(** The conversion of one cell (lines 270 to 275). *)
Definition convert (cell : string) : value :=
  let value := strings.ReplaceAll cell "," "" in
  match strconv.ParseFloat value with
  | Some number => Num number
  | None => Str cell
  end.

Definition project (columns : list string) (values : list string) : record :=
  fold_left (fun m cv => map_set m (fst cv) (convert (snd cv)))
            (combine columns values) [].

(** [encoding/json] has no representation for NaN and the infinities and
    returns an error for them. *)
Definition encodable (v : value) : bool :=
  match v with
  | Str _ => true
  | Num f => strconv.is_finite f
  end.

Definition IndentedJSON (code : Z) (data : list record) : response :=
  if forallb (fun m => forallb (fun kv => encodable (snd kv)) m) data
  then JSON code (Records data)
  else RenderError "json: unsupported value".

(** [handleRequest] for the query parameters [params] of the request.
    Cells are text and are scanned into strings, so the two error paths
    answering 500 are not taken.  [None]: the query sent is outside the
    modelled fragment of SQL. *)
Definition handleRequest (d : sqlite.database) (params : list (string * list string))
  : option response :=
  let '(query, args) := buildQuery params in
  match sqlite.query d query args with
  | None => None
  | Some (sqlite.Failed err) => Some (JSON 400 (Message err))
  | Some (sqlite.Done (columns, rows)) =>
    Some (IndentedJSON 200 (map (project columns) rows))
  end.

(** [main] up to the start of the server. *)
Definition startup (f : flags) (file : option (list (list string))) : process * run Z :=
  (parseEnvironment f ;;; processCSV file) start.

(** ** Auxiliary definitions for the properties *)

(** A non-empty string of letters, digits and underscores: one word for the
    lexer of the store. *)
Definition word (w : string) : Prop :=
  w <> "" /\ string_forallb sqlite.is_word_char w = true.

(** A name that the case folding of the store leaves as it is. *)
Definition folded (n : string) : Prop := sqlite.fold n = n.

(** The flags of a plain run: a file with a header line, the default
    delimiter, nothing else set. *)
Definition sample_flags : flags :=
  {| flag_file := "data.csv"; flag_delimiter := ","; flag_field_count := 0;
     flag_has_header := true; flag_header := ""; flag_indicies := "" |}.

(** The text the CREATE TABLE loop appends for the sanitized names, and the
    tokens of that text. *)
Fixpoint column_list (names : list string) : string :=
  match names with
  | [] => ""
  | [n] => n ++ " text);"
  | n :: names' => n ++ " text, " ++ column_list names'
  end.

Fixpoint column_tokens (names : list string) : list sqlite.token :=
  match names with
  | [] => []
  | [n] => [sqlite.Word n; sqlite.Word "text"; sqlite.RParen; sqlite.Semi]
  | n :: names' =>
    sqlite.Word n :: sqlite.Word "text" :: sqlite.Comma :: column_tokens names'
  end.

(** The columns added one after the other, as [sqlite.column_defs] adds
    them. *)
Fixpoint add_columns (names : list string) (columns : list string)
  : sqlite.result (list string) :=
  match names with
  | [] => sqlite.Done columns
  | n :: names' =>
    match sqlite.add_column n columns with
    | sqlite.Done columns' => add_columns names' columns'
    | sqlite.Failed m => sqlite.Failed m
    end
  end.
(** The (key, value) pairs of the query parameters, in the order in which
    the two loops of the handler visit them. *)
Definition pairs (params : list (string * list string)) : list (string * string) :=
  flat_map (fun kv => map (fun v => (fst kv, v)) (snd kv)) params.

(** The text the loops append for the keys, the filter left once the last
    five bytes are removed, and the tokens of that filter. *)
Fixpoint clauses (keys : list string) : string :=
  match keys with
  | [] => ""
  | k :: keys' => k ++ "=? AND " ++ clauses keys'
  end.

Fixpoint where_text (keys : list string) : string :=
  match keys with
  | [] => ""
  | [k] => k ++ "=?"
  | k :: keys' => k ++ "=? AND " ++ where_text keys'
  end.

Fixpoint where_tokens (keys : list string) : list sqlite.token :=
  match keys with
  | [] => []
  | [k] => [sqlite.Word k; sqlite.Equal; sqlite.Param]
  | k :: keys' =>
    sqlite.Word k :: sqlite.Equal :: sqlite.Param :: sqlite.Word "AND"
    :: where_tokens keys'
  end.

(** The position of the column a key names. *)
Definition position (columns : list string) (key : string) : nat :=
  match sqlite.column_index columns key with
  | Some i => i
  | None => O
  end.

(** A key that names a column of the table. *)
Definition column_key (columns : list string) (key : string) : bool :=
  sqlite.identifier key
  && match sqlite.column_index columns key with Some _ => true | None => false end.
(** The text the INSERT loop appends for [n] fields, and its tokens. *)
Fixpoint placeholder_list (n : nat) : string :=
  match n with
  | O => ""
  | S O => "?);"
  | S n' => "?," ++ placeholder_list n'
  end.

Fixpoint placeholder_tokens (n : nat) : list sqlite.token :=
  match n with
  | O => []
  | S O => [sqlite.Param; sqlite.RParen; sqlite.Semi]
  | S n' => sqlite.Param :: sqlite.Comma :: placeholder_tokens n'
  end.

(** The process once [db.Exec] has inserted [args] as a new row of the
    table csv by the statement [query]. *)
Definition inserted (p : process) (query : string) (args : list string) : process :=
  {| csvFile := csvFile p; csvDelimiter := csvDelimiter p;
     csvFieldCount := csvFieldCount p; csvHasHeader := csvHasHeader p;
     csvHeader := csvHeader p; csvIndicies := csvIndicies p;
     db := {| sqlite.tables :=
                sqlite.update_table (sqlite.tables (db p)) "csv"
                                    (fun t => sqlite.add_row t args);
              sqlite.indexes := sqlite.indexes (db p) |};
     executed := (executed p ++ [(query, args)])%list |}.
(** The flags of a run on a file without a header line, with the custom
    header a,b and the field count 2. *)
Definition custom_flags : flags :=
  {| flag_file := "data.csv"; flag_delimiter := ","; flag_field_count := 2;
     flag_has_header := false; flag_header := "a,b"; flag_indicies := "" |}.
(** The process after the table with the columns a, b has been created from
    the header line of a file, [rows] being the rows inserted since and
    [statements] the INSERT statements executed for them. *)
Definition two_columns (rows : list (list string))
           (statements : list (string * list string)) : process :=
  {| csvFile := "data.csv"; csvDelimiter := 44; csvFieldCount := 2;
     csvHasHeader := true; csvHeader := ["a"; "b"]; csvIndicies := [];
     db := {| sqlite.tables :=
                [{| sqlite.t_name := "csv"; sqlite.t_columns := ["a"; "b"];
                    sqlite.t_rows := rows |}];
              sqlite.indexes := [] |};
     executed := (("create table csv (a text, b text);", []) :: statements)%list |}.

Definition insert_statements (rows : list (list string)) : list (string * list string) :=
  map (fun r => ("insert into csv values (?,?);", r)) rows.

(** Every value of the record can be encoded. *)
Definition encodable_record (m : record) : bool :=
  forallb (fun kv => encodable (snd kv)) m.

(** ** Further auxiliary definitions *)

(** The number of occurrences of a character. *)
Fixpoint string_count (c : ascii) (s : string) : nat :=
  match s with
  | EmptyString => O
  | String x s' => if (x =? c)%char then S (string_count c s') else string_count c s'
  end.

(** The string holds no occurrence of the character. *)
Definition without (c : ascii) (s : string) : bool :=
  string_forallb (fun x => negb (x =? c)%char) s.

(** The process that parseEnvironment leaves when it succeeds. *)
Definition configured (f : flags) : process :=
  {| csvFile := flag_file f;
     csvDelimiter := fst (utf8.DecodeRuneInString (flag_delimiter f));
     csvFieldCount := flag_field_count f;
     csvHasHeader := flag_has_header f;
     csvHeader :=
       if (flag_header f =? "")%string then []
       else trySplit (flag_header f)
                     [utf8.string_of_rune (fst (utf8.DecodeRuneInString (flag_delimiter f)));
                      ","];
     csvIndicies :=
       if (flag_indicies f =? "")%string then []
       else trySplit (flag_indicies f)
                     [utf8.string_of_rune (fst (utf8.DecodeRuneInString (flag_delimiter f)));
                      ","];
     db := sqlite.empty;
     executed := [] |}.

(** The text of the INSERT statement for the field count of the process. *)
Definition insert_text (p : process) : string :=
  "insert into csv values (" ++ placeholder_list (Z.to_nat (csvFieldCount p)).

(** The process once the lines have been inserted, one after the other,
    each through its first fieldCount cells. *)
Definition inserted_all (p : process) (lines : list (list string)) : process :=
  fold_left (fun p line =>
               inserted p (insert_text p) (firstn (Z.to_nat (csvFieldCount p)) line))
            lines p.

(** The table with further rows. *)
Definition with_rows (t : sqlite.table) (rows : list (list string)) : sqlite.table :=
  {| sqlite.t_name := sqlite.t_name t; sqlite.t_columns := sqlite.t_columns t;
     sqlite.t_rows := (sqlite.t_rows t ++ rows)%list |}.

(** The table csv as CREATE TABLE leaves it. *)
Definition new_table (columns : list string) : sqlite.table :=
  {| sqlite.t_name := "csv"; sqlite.t_columns := columns; sqlite.t_rows := [] |}.

(** The process once [db.Exec] has run the statement [query] and left the
    database [d]. *)
Definition executing (p : process) (query : string) (d : sqlite.database) : process :=
  fst (set_db d (fst (record_statement query [] p))).

(** The row holds, for every (key, value) pair, the value in the column the
    key names. *)
Definition satisfies (columns : list string) (ps : list (string * string))
           (row : list string) : bool :=
  forallb (fun kv => match nth_error row (position columns (fst kv)) with
                     | Some cell => (cell =? snd kv)%string
                     | None => false
                     end) ps.

(** The shape of the query parameters: the keys, each with the number of
    its values. *)
Definition shape (params : list (string * list string)) : list (string * nat) :=
  map (fun kv => (fst kv, List.length (snd kv))) params.

(** A key that the store reads as the name of a column, existing or not:
    an identifier without a meaning of its own. *)
Definition plain_key (key : string) : bool :=
  sqlite.identifier key && negb (sqlite.mem (sqlite.fold key) sqlite.reserved_names).

(** The key names no column of the table. *)
Definition unknown (columns : list string) (key : string) : bool :=
  match sqlite.column_index columns key with
  | Some _ => false
  | None => true
  end.

(** The statement sent for an index, the name it gives the index, and the
    store once the index exists. *)
Definition index_statement (index : string) : string :=
  "create index " ++ index ++ "_idx on csv (" ++ index ++ ")".

Definition index_name (index : string) : string := index ++ "_idx".

Definition with_index (d : sqlite.database) (name : string) : sqlite.database :=
  {| sqlite.tables := sqlite.tables d;
     sqlite.indexes := (sqlite.indexes d ++ [name])%list |}.

(** The process once the indexes of [indicies] have been created, one
    after the other. *)
Definition indexed (p : process) (indicies : list string) : process :=
  fold_left (fun p index =>
               executing p (index_statement index)
                         (with_index (db p) (index_name index)))
            indicies p.

Definition ends_with (suffix s : string) : bool :=
  (string_skip (String.length s - String.length suffix) s =? suffix)%string.

(** The bytes that can occur in a string [strconv.ParseFloat] accepts:
    digits, signs, the point, the underscore, the hexadecimal digits, the
    markers of the base and of the exponent, and the letters of the
    infinities and of NaN. *)
Definition numeric_alphabet : string := "0123456789+-._abcdefABCDEFxXpPiInNtTyY".

Definition numeric_byte (c : ascii) : bool :=
  string_existsb (Ascii.eqb c) numeric_alphabet.

(** * Properties *)

(** ** Bytes and strings *)

Ltac by_bytes c := destruct c as [[] [] [] [] [] [] [] []]; vm_compute; intuition congruence.

Lemma lower_byte_alnum (c : ascii) :
  is_alnum c = true -> is_lower_alnum (strings.lower_byte c) = true.
Proof. by_bytes c. Qed.

Lemma lower_byte_fixed (c : ascii) :
  is_lower_alnum c = true -> strings.lower_byte c = c.
Proof. by_bytes c. Qed.

Lemma lower_alnum_is_alnum (c : ascii) :
  is_lower_alnum c = true -> is_alnum c = true.
Proof. by_bytes c. Qed.

Lemma replaceRuns_filter (s : string) (b : bool) :
  regexp.replaceRuns "" s b = string_filter is_alnum s.
Proof.
  revert b; induction s as [|c s IH]; intros b; simpl; [reflexivity|].
  destruct (is_alnum c); [now rewrite IH|].
  destruct b; simpl; apply IH.
Qed.

Lemma sanitize_filter (h : string) :
  sanitize h = string_map strings.lower_byte (string_filter is_alnum h).
Proof. unfold sanitize, regexp.ReplaceAllString, strings.ToLower. now rewrite replaceRuns_filter. Qed.

Lemma sanitize_lower_alnum (h : string) :
  string_forallb is_lower_alnum (sanitize h) = true.
Proof.
  rewrite sanitize_filter.
  induction h as [|c h IH]; simpl; [reflexivity|].
  destruct (is_alnum c) eqn:E; simpl; [|exact IH].
  now rewrite (lower_byte_alnum c E), IH.
Qed.

Lemma sanitize_fixed (s : string) :
  string_forallb is_lower_alnum s = true -> sanitize s = s.
Proof.
  rewrite sanitize_filter.
  induction s as [|c s IH]; simpl; [reflexivity|].
  intros H; apply andb_prop in H; destruct H as [Hc Hs].
  rewrite (lower_alnum_is_alnum c Hc); simpl.
  now rewrite (lower_byte_fixed c Hc), (IH Hs).
Qed.

Lemma sanitize_nonempty (h : string) :
  string_existsb is_alnum h = true -> sanitize h <> "".
Proof.
  rewrite sanitize_filter.
  induction h as [|c h IH]; simpl; [discriminate|].
  destruct (is_alnum c); simpl; [discriminate|exact IH].
Qed.

(** C7: for every header token with at least one alphanumeric character,
    sanitize removes every character outside [A-Za-z0-9] and lowercases the
    rest, so that the result is a non-empty string of lowercase letters and
    digits, and sanitizing it again changes nothing. *)
Theorem sanitize_lowercase_alphanumeric_idempotent (H : string) :
  string_existsb is_alnum H = true ->
  sanitize H = string_map strings.lower_byte (string_filter is_alnum H)
  /\ string_forallb is_lower_alnum (sanitize H) = true
  /\ sanitize H <> ""
  /\ sanitize (sanitize H) = sanitize H.
Proof.
  intros Hex. repeat split.
  - apply sanitize_filter.
  - apply sanitize_lower_alnum.
  - now apply sanitize_nonempty.
  - apply sanitize_fixed, sanitize_lower_alnum.
Qed.

Lemma sanitize_First_Name :
  string_existsb is_alnum "First Name (2019)!" = true
  /\ sanitize "First Name (2019)!" = "firstname2019"
  /\ sanitize (sanitize "First Name (2019)!") = sanitize "First Name (2019)!".
Proof.
  split; [reflexivity|]. split; [reflexivity|].
  apply (sanitize_lowercase_alphanumeric_idempotent "First Name (2019)!"); reflexivity.
Defined.

(** ** The delimiter *)

Ltac run_monad :=
  unfold bind, when, ret, get, stop, logFatal, set_csvFile, set_csvDelimiter,
    set_csvFieldCount, set_csvHasHeader, set_csvHeader, set_csvIndicies, set_db,
    record_statement; simpl.

Lemma decode_ascii (c : ascii) (rest : string) :
  byte_val c < 128 -> utf8.DecodeRuneInString (String c rest) = (byte_val c, 1).
Proof.
  intros H. unfold utf8.DecodeRuneInString, utf8.first.
  destruct (byte_val c <? 128) eqn:E; [reflexivity|].
  apply Z.ltb_ge in E. lia.
Qed.

(** C3: the check made on the delimiter looks at its first rune only.  A
    delimiter string that begins with an ASCII character is accepted
    whatever follows that character, and the character becomes the
    delimiter. *)
Theorem parseEnvironment_reads_first_rune_only (f : flags) (c : ascii) (rest : string) :
  flag_file f <> "" ->
  flag_delimiter f = String c rest ->
  byte_val c < 128 ->
  exists p, parseEnvironment f start = (p, Ok tt) /\ csvDelimiter p = byte_val c.
Proof.
  intros Hfile Hd Hc.
  unfold parseEnvironment.
  destruct (String.eqb_spec (flag_file f) "") as [E|_]; [contradiction|].
  rewrite Hd, decode_ascii by assumption.
  run_monad.
  destruct (String.eqb_spec (flag_file f) "") as [E|_]; [contradiction|]. simpl.
  assert (Hne : (byte_val c =? utf8.RuneError) = false).
  { apply Z.eqb_neq. unfold utf8.RuneError. lia. }
  rewrite Hne. simpl.
  destruct (negb (flag_header f =? "")%string); simpl;
    destruct (negb (flag_indicies f =? "")%string); simpl;
    eexists; split; reflexivity.
Qed.

Lemma parseEnvironment_accepts_ab :
  exists p,
    parseEnvironment
      {| flag_file := "data.csv"; flag_delimiter := "ab"; flag_field_count := 0;
         flag_has_header := true; flag_header := ""; flag_indicies := "" |} start
    = (p, Ok tt) /\ csvDelimiter p = 97.
Proof.
  apply (parseEnvironment_reads_first_rune_only
           {| flag_file := "data.csv"; flag_delimiter := "ab"; flag_field_count := 0;
              flag_has_header := true; flag_header := ""; flag_indicies := "" |}
           "a"%char "b").
  - discriminate.
  - reflexivity.
  - reflexivity.
Defined.

(** ** The conversion of cells *)

Lemma prefix_empty (s : string) : String.prefix "" s = true.
Proof. destruct s; reflexivity. Qed.

Lemma ReplaceAll_commas (cell : string) :
  strings.ReplaceAll cell "," "" = string_filter not_comma cell.
Proof.
  unfold strings.ReplaceAll.
  induction cell as [|c s IH]; [reflexivity|].
  cbn [strings.replaceScan string_filter String.prefix].
  unfold not_comma at 1.
  destruct (ascii_dec "," c) as [E|E].
  - subst c. rewrite prefix_empty. simpl. exact IH.
  - rewrite (proj2 (Ascii.eqb_neq c ",")) by congruence. simpl. now rewrite IH.
Qed.







(** ** The CREATE TABLE loop *)

Lemma createTableLoop_short (header : list string) (fc : Z) (todo : nat) (i : Z) (q : string) :
  0 <= i <= Z.of_nat (List.length header) ->
  i + Z.of_nat todo = fc ->
  Z.of_nat (List.length header) < fc ->
  createTableLoop header fc todo i q
  = Panic (IndexOutOfRange (Z.of_nat (List.length header)) (Z.of_nat (List.length header))).
Proof.
  revert i q; induction todo as [|todo IH]; intros i q Hi Hsum Hlt.
  - lia.
  - cbn [createTableLoop].
    destruct (nth_error header (Z.to_nat i)) as [h|] eqn:E.
    + assert (Z.to_nat i < List.length header)%nat
        by (apply nth_error_Some; congruence).
      apply IH; lia.
    + apply nth_error_None in E.
      replace i with (Z.of_nat (List.length header)) by lia. reflexivity.
Qed.

Lemma createTableLoop_long (header : list string) (fc : Z) (todo : nat) (i : Z) (q : string) :
  0 <= i ->
  i + Z.of_nat todo <= Z.of_nat (List.length header) ->
  exists q', createTableLoop header fc todo i q = Ok q'.
Proof.
  revert i q; induction todo as [|todo IH]; intros i q Hi Hsum.
  - now exists q.
  - cbn [createTableLoop].
    destruct (nth_error header (Z.to_nat i)) as [h|] eqn:E.
    + apply IH; lia.
    + apply nth_error_None in E. lia.
Qed.

Lemma createTableQuery_short (header : list string) (fc : Z) :
  Z.of_nat (List.length header) < fc ->
  createTableQuery header fc
  = Panic (IndexOutOfRange (Z.of_nat (List.length header)) (Z.of_nat (List.length header))).
Proof. intros H. apply createTableLoop_short; lia. Qed.

Lemma createTableQuery_long (header : list string) (fc : Z) :
  fc <= Z.of_nat (List.length header) ->
  exists q, createTableQuery header fc = Ok q.
Proof. intros H. apply createTableLoop_long; lia. Qed.

Lemma createTable_short (p : process) :
  Z.of_nat (List.length (csvHeader p)) < csvFieldCount p ->
  createTable p
  = (p, Panic (IndexOutOfRange (Z.of_nat (List.length (csvHeader p)))
                               (Z.of_nat (List.length (csvHeader p))))).
Proof.
  intros H. unfold createTable. run_monad.
  now rewrite createTableQuery_short.
Qed.

(** C10: the loop building the CREATE TABLE statement reads csvHeader[i]
    for every i below the field count without a check.  It panics with an
    index out of range exactly when the field count exceeds the number of
    header tokens, before any statement reaches the store; in particular,
    without a header line and without a custom header every positive field
    count makes the program panic. *)
Theorem createTable_panics_beyond_header :
  (forall header fc,
      (Z.of_nat (List.length header) < fc ->
       createTableQuery header fc
       = Panic (IndexOutOfRange (Z.of_nat (List.length header))
                                (Z.of_nat (List.length header))))
      /\ (fc <= Z.of_nat (List.length header) ->
          exists q, createTableQuery header fc = Ok q))
  /\ (forall p,
         Z.of_nat (List.length (csvHeader p)) < csvFieldCount p ->
         createTable p
         = (p, Panic (IndexOutOfRange (Z.of_nat (List.length (csvHeader p)))
                                      (Z.of_nat (List.length (csvHeader p))))))
  /\ (forall f records,
         flag_file f <> "" ->
         fst (utf8.DecodeRuneInString (flag_delimiter f)) <> utf8.RuneError ->
         flag_has_header f = false ->
         flag_header f = "" ->
         0 < flag_field_count f ->
         snd (startup f (Some records)) = Panic (IndexOutOfRange 0 0)
         /\ executed (fst (startup f (Some records))) = []).
Proof.
  split; [|split].
  - intros header fc; split; [apply createTableQuery_short|apply createTableQuery_long].
  - apply createTable_short.
  - intros f records Hfile Hd Hh Hc Hfc.
    unfold startup, parseEnvironment, processCSV, openReader, readHeader,
      resolveFieldCount, createTable.
    run_monad.
    destruct (String.eqb_spec (flag_file f) "") as [E|_]; [contradiction|]. simpl.
    apply Z.eqb_neq in Hd. rewrite Hd. simpl.
    rewrite Hc, Hh. simpl.
    assert (Hz : (flag_field_count f =? 0) = false) by (apply Z.eqb_neq; lia).
    destruct (negb (flag_indicies f =? "")%string); simpl; rewrite Hz; simpl;
      rewrite (createTableQuery_short [] (flag_field_count f)) by (simpl; lia);
      split; reflexivity.
Qed.

Lemma createTable_panics_without_header :
  snd (startup {| flag_file := "data.csv"; flag_delimiter := ","; flag_field_count := 2;
                  flag_has_header := false; flag_header := ""; flag_indicies := "" |}
               (Some [["1"; "2"]; ["3"; "4"]]))
  = Panic (IndexOutOfRange 0 0).
Proof.
  apply (proj2 (proj2 createTable_panics_beyond_header)
           {| flag_file := "data.csv"; flag_delimiter := ","; flag_field_count := 2;
              flag_has_header := false; flag_header := ""; flag_indicies := "" |}
           [["1"; "2"]; ["3"; "4"]]).
  - discriminate.
  - vm_compute. discriminate.
  - reflexivity.
  - reflexivity.
  - reflexivity.
Defined.

(** ** Strings *)

Lemma string_app_assoc (a b c : string) : (a ++ b) ++ c = a ++ (b ++ c).
Proof. induction a as [|x a IH]; simpl; [reflexivity|now rewrite IH]. Qed.

Lemma string_app_empty (a : string) : a ++ "" = a.
Proof. induction a as [|x a IH]; simpl; [reflexivity|now rewrite IH]. Qed.

Lemma string_length_app (a b : string) :
  String.length (a ++ b) = (String.length a + String.length b)%nat.
Proof. induction a as [|x a IH]; simpl; [reflexivity|now rewrite IH]. Qed.

Lemma string_take_app (a b : string) : string_take (String.length a) (a ++ b) = a.
Proof. induction a as [|x a IH]; simpl; [now destruct b|now rewrite IH]. Qed.

Lemma string_rev_onto_twice (w acc acc' : string) :
  string_rev_onto (string_rev_onto w acc) acc' = string_rev_onto acc (w ++ acc').
Proof.
  revert acc; induction w as [|c w IH]; intros acc; simpl; [reflexivity|].
  now rewrite IH.
Qed.

Lemma string_rev_rev_onto (w : string) : string_rev (string_rev_onto w "") = w.
Proof. unfold string_rev. rewrite string_rev_onto_twice. simpl. apply string_app_empty. Qed.

Lemma string_rev_onto_nonempty (w acc : string) :
  w <> "" -> string_rev_onto w acc <> "".
Proof.
  revert acc; induction w as [|c w IH]; intros acc H; [congruence|].
  simpl. destruct w as [|c' w]; [simpl; discriminate|].
  apply IH. discriminate.
Qed.

(** ** The lexer of the store on the statements of the program *)

Lemma lex_word_chars (w rest cur : string) :
  string_forallb sqlite.is_word_char w = true ->
  sqlite.lex (w ++ rest) cur = sqlite.lex rest (string_rev_onto w cur).
Proof.
  revert cur; induction w as [|c w IH]; intros cur H; simpl; [reflexivity|].
  simpl in H. apply andb_prop in H. destruct H as [Hc Hw].
  rewrite Hc. now apply IH.
Qed.

Lemma flush_word (w : string) (ts : list sqlite.token) :
  w <> "" -> sqlite.flush (string_rev_onto w "") ts = sqlite.Word w :: ts.
Proof.
  intros H. unfold sqlite.flush.
  pose proof (string_rev_onto_nonempty w "" H) as Hne.
  destruct (string_rev_onto w "") eqn:E; [congruence|].
  rewrite <- E. now rewrite string_rev_rev_onto.
Qed.

Lemma lex_space (rest cur : string) :
  sqlite.lex (String " " rest) cur = option_map (sqlite.flush cur) (sqlite.lex rest "").
Proof. reflexivity. Qed.

Lemma lex_comma (rest cur : string) :
  sqlite.lex (String "," rest) cur
  = option_map (fun ts => sqlite.flush cur (sqlite.Comma :: ts)) (sqlite.lex rest "").
Proof. reflexivity. Qed.

Lemma lex_equal (rest cur : string) :
  sqlite.lex (String "=" rest) cur
  = option_map (fun ts => sqlite.flush cur (sqlite.Equal :: ts)) (sqlite.lex rest "").
Proof. reflexivity. Qed.

Lemma lex_param (rest cur : string) :
  sqlite.starts_with_word_char rest = false ->
  sqlite.lex (String "?" rest) cur
  = option_map (fun ts => sqlite.flush cur (sqlite.Param :: ts)) (sqlite.lex rest "").
Proof. intros H. cbn. now rewrite H. Qed.

(** A word followed by a separator. *)
Lemma lex_word_then (w rest : string) (c : ascii) :
  word w ->
  sqlite.is_word_char c = false ->
  sqlite.lex (w ++ String c rest) ""
  = match sqlite.lex (String c rest) "" with
    | Some ts => Some (sqlite.Word w :: ts)
    | None => None
    end.
Proof.
  intros [Hne Hw] Hc.
  rewrite lex_word_chars by assumption.
  cbn [sqlite.lex]. rewrite Hc.
  destruct (sqlite.punct c) as [t|].
  - destruct ((c =? "?")%char && sqlite.starts_with_word_char rest); [reflexivity|].
    destruct (sqlite.lex rest ""); simpl; [|reflexivity].
    now rewrite flush_word.
  - destruct (sqlite.is_space c); [|reflexivity].
    destruct (sqlite.lex rest ""); simpl; [|reflexivity].
    now rewrite flush_word.
Qed.

(** ** Zero parameters *)

Lemma tokens_select_W :
  sqlite.tokens "SELECT * FROM csv W"
  = Some [sqlite.Word "SELECT"; sqlite.Star; sqlite.Word "FROM"; sqlite.Word "csv";
          sqlite.Word "W"].
Proof. reflexivity. Qed.

(** C1: with no query parameter, the five bytes removed from the end of the
    text are taken from the keyword WHERE; what is left is a complete SELECT
    over the table under the alias W.  The handler sends it to the store and
    answers 200 with every row of the table (as far as the rows can be
    encoded): no client error is reported. *)
Theorem handleRequest_without_parameters (d : sqlite.database) (t : sqlite.table) :
  sqlite.find_table d "csv" = Some t ->
  buildQuery [] = ("SELECT * FROM csv W", [])
  /\ sqlite.query d "SELECT * FROM csv W" []
     = Some (sqlite.Done (sqlite.t_columns t, sqlite.t_rows t))
  /\ handleRequest d []
     = Some (IndentedJSON 200 (map (project (sqlite.t_columns t)) (sqlite.t_rows t))).
Proof.
  intros Ht.
  assert (Hq : sqlite.query d "SELECT * FROM csv W" []
               = Some (sqlite.Done (sqlite.t_columns t, sqlite.t_rows t))).
  { unfold sqlite.query. rewrite tokens_select_W.
    change (sqlite.is_word "select" "SELECT" && sqlite.is_word "from" "FROM"
            && sqlite.plain_name "csv") with true.
    change (sqlite.plain_name "W") with true.
    cbv iota. now rewrite Ht. }
  split; [reflexivity|]. split; [exact Hq|].
  unfold handleRequest.
  change (buildQuery []) with ("SELECT * FROM csv W", @nil string).
  cbv iota. now rewrite Hq.
Qed.

Lemma handleRequest_without_parameters_sample :
  handleRequest
    (db (fst (startup sample_flags (Some [["a"; "b"]; ["1"; "x"]; ["2"; "y"]]))))
    []
  = Some (JSON 200 (Records [[("a", Num (strconv.float_of_Z 1)); ("b", Str "x")];
                             [("a", Num (strconv.float_of_Z 2)); ("b", Str "y")]])).
Proof.
  exact (proj2 (proj2 (handleRequest_without_parameters
           (db (fst (startup sample_flags (Some [["a"; "b"]; ["1"; "x"]; ["2"; "y"]]))))
           {| sqlite.t_name := "csv"; sqlite.t_columns := ["a"; "b"];
              sqlite.t_rows := [["1"; "x"]; ["2"; "y"]] |}
           eq_refl))).
Defined.

(** ** The CREATE TABLE statement *)

Lemma firstn_skipn_cons {A} (l : list A) (i : nat) (x : A) (n : nat) :
  nth_error l i = Some x ->
  firstn (S n) (skipn i l) = x :: firstn n (skipn (S i) l).
Proof.
  revert i; induction l as [|y l IH]; intros [|i] H; simpl in *; try discriminate.
  - now inversion H.
  - now apply IH.
Qed.

Lemma createTableLoop_text (header : list string) (fc : Z) (todo : nat) (i : Z) (q : string) :
  0 <= i ->
  i + Z.of_nat todo = fc ->
  fc <= Z.of_nat (List.length header) ->
  createTableLoop header fc todo i q
  = Ok (q ++ column_list (map sanitize (firstn todo (skipn (Z.to_nat i) header)))).
Proof.
  revert i q; induction todo as [|todo IH]; intros i q Hi Hsum Hlen.
  - simpl. now rewrite string_app_empty.
  - cbn [createTableLoop].
    destruct (nth_error header (Z.to_nat i)) as [h|] eqn:E;
      [|apply nth_error_None in E; lia].
    rewrite (firstn_skipn_cons header (Z.to_nat i) h todo E).
    rewrite IH by lia.
    replace (Z.to_nat (i + 1)) with (S (Z.to_nat i)) by lia.
    f_equal. cbn [map column_list].
    destruct todo as [|todo].
    + replace (i =? fc - 1) with true by (symmetry; apply Z.eqb_eq; lia).
      simpl. now rewrite string_app_empty, string_app_assoc.
    + replace (i =? fc - 1) with false by (symmetry; apply Z.eqb_neq; lia).
      destruct (nth_error header (S (Z.to_nat i))) as [h'|] eqn:E';
        [|apply nth_error_None in E'; lia].
      rewrite (firstn_skipn_cons header (S (Z.to_nat i)) h' todo E').
      cbn [map]. now rewrite !string_app_assoc.
Qed.

Lemma createTableQuery_text (header : list string) (fc : Z) :
  fc <= Z.of_nat (List.length header) ->
  createTableQuery header fc
  = Ok ("create table csv (" ++ column_list (map sanitize (firstn (Z.to_nat fc) header))).
Proof.
  intros H. unfold createTableQuery.
  destruct (Z.le_gt_cases 0 fc) as [Hfc|Hfc].
  - now rewrite createTableLoop_text by lia.
  - replace (Z.to_nat fc) with O by lia. reflexivity.
Qed.

Lemma lex_column_list (names : list string) :
  names <> [] ->
  Forall word names ->
  sqlite.lex (column_list names) "" = Some (column_tokens names).
Proof.
  induction names as [|n names IH]; intros Hne Hall; [congruence|].
  inversion Hall as [|? ? Hn Hnames]; subst.
  destruct names as [|n' names].
  - cbn [column_list column_tokens].
    rewrite (lex_word_then n "text);" " "%char Hn) by reflexivity.
    reflexivity.
  - assert (Hrest : sqlite.lex (column_list (n' :: names)) "" = Some (column_tokens (n' :: names)))
      by (apply IH; [discriminate|assumption]).
    change (column_list (n :: n' :: names))
      with (n ++ String " " ("text" ++ String "," (String " " (column_list (n' :: names))))).
    rewrite (lex_word_then n _ " "%char Hn) by reflexivity.
    rewrite lex_space.
    rewrite (lex_word_then "text" _ ","%char) by (try split; try discriminate; reflexivity).
    rewrite lex_comma, lex_space, Hrest. reflexivity.
Qed.

Lemma tokens_create_table (names : list string) :
  names <> [] ->
  Forall word names ->
  sqlite.tokens ("create table csv (" ++ column_list names)
  = Some (sqlite.Word "create" :: sqlite.Word "table" :: sqlite.Word "csv"
          :: sqlite.LParen :: column_tokens names).
Proof.
  intros Hne Hall. unfold sqlite.tokens.
  change ("create table csv (" ++ column_list names)
    with ("create" ++ String " " ("table" ++ String " " ("csv" ++ String " " (String "(" (column_list names))))).
  rewrite (lex_word_then "create" _ " "%char) by (try split; try discriminate; reflexivity).
  rewrite lex_space.
  rewrite (lex_word_then "table" _ " "%char) by (try split; try discriminate; reflexivity).
  rewrite lex_space.
  rewrite (lex_word_then "csv" _ " "%char) by (try split; try discriminate; reflexivity).
  rewrite lex_space.
  change (sqlite.lex (String "(" (column_list names)) "")
    with (option_map (fun ts => sqlite.LParen :: ts) (sqlite.lex (column_list names) "")).
  rewrite lex_column_list by assumption. reflexivity.
Qed.

Lemma identifier_word (w : string) : sqlite.identifier w = true -> word w.
Proof.
  unfold sqlite.identifier, word. intros H.
  apply andb_prop in H; destruct H as [H _].
  apply andb_prop in H; destruct H as [H _].
  apply andb_prop in H; destruct H as [H1 H2].
  split; [|assumption].
  apply negb_true_iff in H1. now apply String.eqb_neq in H1.
Qed.

Lemma identifier_no_digit (w : string) :
  sqlite.identifier w = true -> sqlite.starts_with_digit w = false.
Proof.
  unfold sqlite.identifier. intros H.
  apply andb_prop in H; destruct H as [H _].
  apply andb_prop in H; destruct H as [_ H].
  now apply negb_true_iff in H.
Qed.

Lemma identifier_no_keyword (w : string) :
  sqlite.identifier w = true -> sqlite.is_keyword w = false.
Proof.
  unfold sqlite.identifier. intros H.
  apply andb_prop in H; destruct H as [_ H].
  now apply negb_true_iff in H.
Qed.

Lemma column_defs_last (w : string) (columns : list string) :
  sqlite.identifier w = true ->
  sqlite.column_defs [sqlite.Word w; sqlite.Word "text"; sqlite.RParen; sqlite.Semi] columns
  = Some (sqlite.add_column w columns).
Proof.
  intros H. cbn [sqlite.column_defs].
  now rewrite (identifier_no_digit w H), (identifier_no_keyword w H).
Qed.

Lemma column_defs_more (w : string) (ts : list sqlite.token) (columns : list string) :
  sqlite.identifier w = true ->
  sqlite.column_defs (sqlite.Word w :: sqlite.Word "text" :: sqlite.Comma :: ts) columns
  = match sqlite.add_column w columns with
    | sqlite.Done columns' => sqlite.column_defs ts columns'
    | sqlite.Failed m => Some (sqlite.Failed m)
    end.
Proof.
  intros H. cbn [sqlite.column_defs].
  now rewrite (identifier_no_digit w H), (identifier_no_keyword w H).
Qed.

Lemma column_defs_tokens (names : list string) (columns : list string) :
  names <> [] ->
  Forall (fun n => sqlite.identifier n = true) names ->
  sqlite.column_defs (column_tokens names) columns = Some (add_columns names columns).
Proof.
  revert columns; induction names as [|n names IH]; intros columns Hne Hall; [congruence|].
  inversion Hall as [|? ? Hn Hnames]; subst.
  destruct names as [|n' names].
  - cbn [column_tokens add_columns]. rewrite column_defs_last by assumption.
    now destruct (sqlite.add_column n columns).
  - change (column_tokens (n :: n' :: names))
      with (sqlite.Word n :: sqlite.Word "text" :: sqlite.Comma :: column_tokens (n' :: names)).
    rewrite column_defs_more by assumption.
    cbn [add_columns].
    destruct (sqlite.add_column n columns) as [columns'|m]; [|reflexivity].
    apply IH; [discriminate|assumption].
Qed.

Lemma ToLower_lower_alnum (s : string) :
  string_forallb is_lower_alnum s = true -> strings.ToLower s = s.
Proof.
  unfold strings.ToLower.
  induction s as [|c s IH]; simpl; [reflexivity|].
  intros H; apply andb_prop in H; destruct H as [Hc Hs].
  now rewrite (lower_byte_fixed c Hc), (IH Hs).
Qed.

Lemma sanitize_folded (h : string) : folded (sanitize h).
Proof. apply ToLower_lower_alnum, sanitize_lower_alnum. Qed.

Lemma existsb_same_name (n : string) (columns : list string) :
  folded n -> Forall folded columns ->
  existsb (sqlite.same_name n) columns = true <-> In n columns.
Proof.
  intros Hn Hall. rewrite existsb_exists. split.
  - intros [x [Hin Hx]]. unfold sqlite.same_name in Hx.
    rewrite Forall_forall in Hall. rewrite Hn, (Hall x Hin) in Hx.
    apply String.eqb_eq in Hx. now subst.
  - intros Hin. exists n. split; [assumption|].
    unfold sqlite.same_name. apply String.eqb_refl.
Qed.

Lemma add_columns_collision (names columns : list string) :
  Forall folded names -> Forall folded columns ->
  (exists x, In x names /\ In x columns) \/ ~ NoDup names ->
  exists x, In x names
            /\ add_columns names columns = sqlite.Failed ("duplicate column name: " ++ x).
Proof.
  revert columns; induction names as [|n names IH]; intros columns Hn Hc Hdup.
  - destruct Hdup as [[x [[] _]]|H]; exfalso; apply H; constructor.
  - inversion Hn as [|? ? Hfn Hfnames]; subst.
    cbn [add_columns]. unfold sqlite.add_column.
    destruct (existsb (sqlite.same_name n) columns) eqn:E.
    + exists n. split; [now left|reflexivity].
    + assert (Hnot : ~ In n columns).
      { intros Hin. apply (existsb_same_name n columns Hfn Hc) in Hin. congruence. }
      destruct (IH (columns ++ [n])%list Hfnames) as [x [Hx Hfail]].
      * apply Forall_app. split; [assumption|now constructor].
      * destruct Hdup as [[x [[Hx|Hx] Hxc]]|Hnd].
        -- subst. contradiction.
        -- left. exists x. split; [assumption|]. apply in_or_app. now left.
        -- destruct (in_dec string_dec n names) as [Hin|Hnin].
           ++ left. exists n. split; [assumption|]. apply in_or_app. right. now left.
           ++ right. intros Hnd'. apply Hnd. now constructor.
      * exists x. split; [now right|assumption].
Qed.

Lemma exec_create_table_collision (d : sqlite.database) (names : list string) :
  Forall (fun n => sqlite.identifier n = true) names ->
  Forall folded names ->
  ~ NoDup names ->
  exists x, In x names
            /\ sqlite.exec d ("create table csv (" ++ column_list names) []
               = Some (sqlite.Failed ("duplicate column name: " ++ x)).
Proof.
  intros Hid Hf Hdup.
  assert (Hne : names <> []) by (intros ->; apply Hdup; constructor).
  destruct (add_columns_collision names [] Hf (Forall_nil _) (or_intror Hdup))
    as [x [Hx Hfail]].
  exists x. split; [assumption|].
  unfold sqlite.exec.
  rewrite tokens_create_table;
    [|assumption|eapply Forall_impl; [|exact Hid]; apply identifier_word].
  change (sqlite.is_word "create" "create" && sqlite.is_word "table" "table") with true.
  cbv iota. unfold sqlite.create_table.
  change (negb (sqlite.plain_name "csv")) with false. cbv iota.
  now rewrite column_defs_tokens, Hfail by assumption.
Qed.

Lemma createTable_run (p : process) (query : string) :
  createTableQuery (csvHeader p) (csvFieldCount p) = Ok query ->
  createTable p
  = match sqlite.exec (db p) query [] with
    | None => (fst (record_statement query [] p), Unknown)
    | Some (sqlite.Failed e) =>
      (fst (record_statement query [] p), Fatal (CouldNotCreateTable e))
    | Some (sqlite.Done d) =>
      (fst (set_db d (fst (record_statement query [] p))), Ok tt)
    end.
Proof.
  intros Hq. unfold createTable, bind at 1. unfold get.
  unfold bind at 1. unfold stop at 1. rewrite Hq.
  unfold dbExec, bind, record_statement, get, stop, ret, logFatal, set_db.
  cbn [db fst snd].
  now destruct (sqlite.exec (db p) query []) as [[d|e]|].
Qed.

(** C2 (as amended): when two of the header tokens used for the table
    sanitize to the same name (the names being such that the store takes
    them as column names), the program does not detect it: the CREATE TABLE
    statement listing the name twice is executed against the store, the
    store rejects it with its duplicate column name error, and that error
    ends the program. *)
Theorem createTable_duplicate_names_rejected_by_store
        (p : process) (i j : nat) (x : string) :
  let names := map sanitize (firstn (Z.to_nat (csvFieldCount p)) (csvHeader p)) in
  csvFieldCount p <= Z.of_nat (List.length (csvHeader p)) ->
  forallb sqlite.identifier names = true ->
  (i < j)%nat ->
  nth_error names i = Some x ->
  nth_error names j = Some x ->
  exists query y,
    createTableQuery (csvHeader p) (csvFieldCount p) = Ok query
    /\ In y names
    /\ sqlite.exec (db p) query [] = Some (sqlite.Failed ("duplicate column name: " ++ y))
    /\ snd (createTable p) = Fatal (CouldNotCreateTable ("duplicate column name: " ++ y))
    /\ executed (fst (createTable p)) = (executed p ++ [(query, [])])%list.
Proof.
  intros names Hlen Hid Hij Hi Hj.
  assert (Hdup : ~ NoDup names).
  { intros Hnd. rewrite NoDup_nth_error in Hnd.
    assert (i = j); [|lia].
    apply Hnd; [|congruence].
    apply nth_error_Some. congruence. }
  assert (Hf : Forall folded names).
  { unfold names. apply Forall_forall. intros n Hn.
    apply in_map_iff in Hn. destruct Hn as [h [<- _]]. apply sanitize_folded. }
  assert (Hid' : Forall (fun n => sqlite.identifier n = true) names)
    by (apply Forall_forall; now apply forallb_forall).
  destruct (exec_create_table_collision (db p) names Hid' Hf Hdup) as [y [Hy Hexec]].
  exists ("create table csv (" ++ column_list names), y.
  assert (Hq : createTableQuery (csvHeader p) (csvFieldCount p)
               = Ok ("create table csv (" ++ column_list names))
    by now apply createTableQuery_text.
  split; [exact Hq|]. split; [exact Hy|]. split; [exact Hexec|].
  rewrite (createTable_run p _ Hq), Hexec. split; reflexivity.
Qed.

Lemma createTable_duplicate_names_sample :
  exists query y,
    createTableQuery ["a"; "A"] 2 = Ok query
    /\ In y ["a"; "a"]
    /\ sqlite.exec sqlite.empty query [] = Some (sqlite.Failed ("duplicate column name: " ++ y))
    /\ snd (createTable (fst ((parseEnvironment sample_flags ;;;
                               reader <- openReader (Some [["a"; "A"]; ["1"; "2"]]) ;;
                               readHeader reader ;;; resolveFieldCount) start)))
       = Fatal (CouldNotCreateTable ("duplicate column name: " ++ y))
    /\ executed (fst (createTable (fst ((parseEnvironment sample_flags ;;;
                               reader <- openReader (Some [["a"; "A"]; ["1"; "2"]]) ;;
                               readHeader reader ;;; resolveFieldCount) start))))
       = [(query, [])].
Proof.
  apply (createTable_duplicate_names_rejected_by_store
           (fst ((parseEnvironment sample_flags ;;;
                  reader <- openReader (Some [["a"; "A"]; ["1"; "2"]]) ;;
                  readHeader reader ;;; resolveFieldCount) start))
           0%nat 1%nat "a").
  - vm_compute. discriminate.
  - reflexivity.
  - lia.
  - reflexivity.
  - reflexivity.
Defined.

(** C2 (as stated): the header a,A sanitizes to the name a twice; the
    CREATE TABLE statement is executed all the same, and the failure is
    the answer of the store to it. *)
Lemma duplicate_columns_reach_the_store :
  sanitize "a" = sanitize "A"
  /\ executed (fst (startup sample_flags (Some [["a"; "A"]; ["1"; "2"]])))
     = [("create table csv (a text, a text);", [])]
  /\ executed (fst (startup sample_flags (Some [["a"; "A"]; ["1"; "2"]]))) <> []
  /\ snd (startup sample_flags (Some [["a"; "A"]; ["1"; "2"]]))
     = Fatal (CouldNotCreateTable "duplicate column name: a").
Proof. vm_compute. repeat split. discriminate. Qed.

(** ** The query text *)

Lemma addValues_text (key : string) (values : list string) (q : string) (a : list string) :
  addValues key values (q, a)
  = (q ++ clauses (map (fun _ => key) values), (a ++ values)%list).
Proof.
  unfold addValues. revert q a; induction values as [|v values IH]; intros q a.
  - simpl. now rewrite string_app_empty, app_nil_r.
  - cbn [fold_left fst snd map clauses]. rewrite IH.
    now rewrite <- !app_assoc, !string_app_assoc.
Qed.

Lemma clauses_app (a b : list string) : clauses (a ++ b) = clauses a ++ clauses b.
Proof.
  induction a as [|k a IH]; [reflexivity|].
  cbn [app clauses]. now rewrite IH, !string_app_assoc.
Qed.

Lemma fold_addValues (params : list (string * list string)) (q : string) (a : list string) :
  fold_left (fun qa kv => addValues (fst kv) (snd kv) qa) params (q, a)
  = (q ++ clauses (map fst (pairs params)), (a ++ map snd (pairs params))%list).
Proof.
  revert q a; induction params as [|[k vs] params IH]; intros q a.
  - simpl. now rewrite string_app_empty, app_nil_r.
  - cbn [fold_left fst snd]. rewrite addValues_text, IH.
    assert (Hp : pairs ((k, vs) :: params) = (map (fun v => (k, v)) vs ++ pairs params)%list)
      by reflexivity.
    rewrite Hp, !map_app, !map_map. cbn [fst snd].
    rewrite clauses_app, string_app_assoc, <- app_assoc, map_id.
    reflexivity.
Qed.

Lemma clauses_where_text (keys : list string) :
  keys <> [] -> clauses keys = where_text keys ++ " AND ".
Proof.
  induction keys as [|k keys IH]; intros H; [congruence|].
  destruct keys as [|k' keys].
  - cbn [clauses where_text]. now rewrite string_app_empty, string_app_assoc.
  - change (clauses (k :: k' :: keys)) with (k ++ "=? AND " ++ clauses (k' :: keys)).
    change (where_text (k :: k' :: keys)) with (k ++ "=? AND " ++ where_text (k' :: keys)).
    rewrite IH by discriminate. now rewrite !string_app_assoc.
Qed.

Lemma string_take_trailing (x y : string) :
  string_take (String.length (x ++ y) - String.length y) (x ++ y) = x.
Proof.
  rewrite string_length_app.
  replace (String.length x + String.length y - String.length y)%nat
    with (String.length x) by lia.
  apply string_take_app.
Qed.

Lemma buildQuery_text (params : list (string * list string)) :
  pairs params <> [] ->
  buildQuery params
  = ("SELECT * FROM csv WHERE " ++ where_text (map fst (pairs params)),
     map snd (pairs params)).
Proof.
  intros Hne. unfold buildQuery. rewrite fold_addValues. cbn [fst snd app].
  rewrite clauses_where_text by (destruct (pairs params); [congruence|discriminate]).
  rewrite <- string_app_assoc.
  change 5%nat with (String.length " AND ").
  now rewrite string_take_trailing.
Qed.

Lemma lex_star (rest cur : string) :
  sqlite.lex (String "*" rest) cur
  = option_map (fun ts => sqlite.flush cur (sqlite.Star :: ts)) (sqlite.lex rest "").
Proof. reflexivity. Qed.

Ltac word_side := try split; try discriminate; reflexivity.

Lemma lex_where_text (keys : list string) :
  keys <> [] ->
  Forall word keys ->
  sqlite.lex (where_text keys) "" = Some (where_tokens keys).
Proof.
  induction keys as [|k keys IH]; intros Hne Hall; [congruence|].
  inversion Hall as [|? ? Hk Hkeys]; subst.
  destruct keys as [|k' keys].
  - cbn [where_text where_tokens].
    rewrite (lex_word_then k "?" "="%char Hk) by reflexivity. reflexivity.
  - assert (Hrest : sqlite.lex (where_text (k' :: keys)) "" = Some (where_tokens (k' :: keys)))
      by (apply IH; [discriminate|assumption]).
    change (where_text (k :: k' :: keys))
      with (k ++ String "=" (String "?" (String " "
              ("AND" ++ String " " (where_text (k' :: keys)))))).
    rewrite (lex_word_then k _ "="%char Hk) by reflexivity.
    rewrite lex_equal, lex_param by reflexivity.
    rewrite lex_space.
    rewrite (lex_word_then "AND" _ " "%char) by word_side.
    rewrite lex_space, Hrest. reflexivity.
Qed.

Lemma tokens_select_where (keys : list string) :
  keys <> [] ->
  Forall word keys ->
  sqlite.tokens ("SELECT * FROM csv WHERE " ++ where_text keys)
  = Some (sqlite.Word "SELECT" :: sqlite.Star :: sqlite.Word "FROM" :: sqlite.Word "csv"
          :: sqlite.Word "WHERE" :: where_tokens keys).
Proof.
  intros Hne Hall. unfold sqlite.tokens.
  change ("SELECT * FROM csv WHERE " ++ where_text keys)
    with ("SELECT" ++ String " " (String "*" (String " "
            ("FROM" ++ String " " ("csv" ++ String " "
               ("WHERE" ++ String " " (where_text keys))))))).
  rewrite (lex_word_then "SELECT" _ " "%char) by word_side.
  rewrite lex_space, lex_star, lex_space.
  rewrite (lex_word_then "FROM" _ " "%char) by word_side.
  rewrite lex_space.
  rewrite (lex_word_then "csv" _ " "%char) by word_side.
  rewrite lex_space.
  rewrite (lex_word_then "WHERE" _ " "%char) by word_side.
  rewrite lex_space, lex_where_text by assumption. reflexivity.
Qed.

Lemma resolve_column (columns : list string) (k : string) :
  sqlite.column_index columns k <> None ->
  sqlite.resolve columns k = Some (sqlite.Done (position columns k)).
Proof.
  unfold sqlite.resolve, position.
  now destruct (sqlite.column_index columns k).
Qed.

Lemma conditions_tokens (columns : list string) (keys : list string) :
  keys <> [] ->
  Forall (fun k => sqlite.column_index columns k <> None) keys ->
  sqlite.conditions columns (where_tokens keys)
  = Some (sqlite.Done (map (position columns) keys)).
Proof.
  induction keys as [|k keys IH]; intros Hne Hall; [congruence|].
  inversion Hall as [|? ? Hk Hkeys]; subst.
  destruct keys as [|k' keys].
  - cbn [where_tokens sqlite.conditions map]. now rewrite resolve_column.
  - change (where_tokens (k :: k' :: keys))
      with (sqlite.Word k :: sqlite.Equal :: sqlite.Param :: sqlite.Word "AND"
            :: where_tokens (k' :: keys)).
    cbn [sqlite.conditions]. rewrite resolve_column by assumption.
    change (sqlite.is_word "and" "AND") with true. cbv iota.
    rewrite IH by (try discriminate; assumption). reflexivity.
Qed.

Lemma query_where (d : sqlite.database) (t : sqlite.table) (keys args : list string) :
  sqlite.find_table d "csv" = Some t ->
  keys <> [] ->
  Forall word keys ->
  Forall (fun k => sqlite.column_index (sqlite.t_columns t) k <> None) keys ->
  List.length keys = List.length args ->
  sqlite.query d ("SELECT * FROM csv WHERE " ++ where_text keys) args
  = Some (sqlite.Done
            (sqlite.t_columns t,
             filter (fun row =>
                       sqlite.passes row
                         (combine (map (position (sqlite.t_columns t)) keys) args))
                    (sqlite.t_rows t))).
Proof.
  intros Ht Hne Hw Hc Hlen. unfold sqlite.query.
  rewrite tokens_select_where by assumption.
  change (sqlite.is_word "select" "SELECT" && sqlite.is_word "from" "FROM"
          && sqlite.plain_name "csv") with true.
  cbv iota.
  assert (Hshape : exists tk ts, where_tokens keys = sqlite.Word tk :: sqlite.Equal :: ts).
  { destruct keys as [|k [|k' keys]]; [congruence| |]; eexists; eexists; reflexivity. }
  destruct Hshape as [tk [ts Hshape]].
  pose proof (conditions_tokens (sqlite.t_columns t) keys Hne Hc) as Hcond.
  rewrite Hshape in *.
  change (sqlite.is_word "where" "WHERE") with true. cbv iota.
  rewrite Ht, Hcond, length_map, Hlen, Nat.eqb_refl. reflexivity.
Qed.

(** ** Filters *)


Lemma in_passes (row : list string) (flt : list (nat * string)) :
  (forall i v, In (i, v) flt -> nth_error row i = Some v) ->
  sqlite.passes row flt = true.
Proof.
  induction flt as [|[j w] flt IH]; intros H; [reflexivity|].
  cbn [sqlite.passes]. rewrite (H j w) by now left.
  rewrite String.eqb_refl. apply IH. intros i v Hin. apply H. now right.
Qed.


Lemma combine_positions (columns : list string) (ps : list (string * string)) :
  combine (map (position columns) (map fst ps)) (map snd ps)
  = map (fun kv => (position columns (fst kv), snd kv)) ps.
Proof. induction ps as [|[k v] ps IH]; [reflexivity|]. simpl. now rewrite IH. Qed.

Lemma in_pairs (params : list (string * list string)) (k v : string) :
  In (k, v) (pairs params) <-> exists vs, In (k, vs) params /\ In v vs.
Proof.
  unfold pairs. rewrite in_flat_map. split.
  - intros [[k' vs] [Hin Hv]]. cbn [fst snd] in Hv.
    apply in_map_iff in Hv. destruct Hv as [v' [Heq Hv']]. inversion Heq; subst.
    now exists vs.
  - intros [vs [Hin Hv]]. exists (k, vs). split; [assumption|].
    cbn [fst snd]. apply in_map_iff. now exists v.
Qed.

Lemma pairs_keys (params : list (string * list string)) (P : string -> Prop) :
  (forall kv, In kv params -> P (fst kv)) ->
  Forall P (map fst (pairs params)).
Proof.
  intros H. apply Forall_forall. intros k Hk.
  apply in_map_iff in Hk. destruct Hk as [[k' v] [<- Hin]].
  apply in_pairs in Hin. destruct Hin as [vs [Hin _]].
  apply (H (k', vs) Hin).
Qed.




(** ** The INSERT statement *)

Lemma insertLoop_short (line : list string) (fc : Z) (todo : nat) (i : Z)
      (q : string) (args : list string) :
  0 <= i <= Z.of_nat (List.length line) ->
  i + Z.of_nat todo = fc ->
  Z.of_nat (List.length line) < fc ->
  insertLoop line fc todo i q args
  = Panic (IndexOutOfRange (Z.of_nat (List.length line)) (Z.of_nat (List.length line))).
Proof.
  revert i q args; induction todo as [|todo IH]; intros i q args Hi Hsum Hlt.
  - lia.
  - cbn [insertLoop].
    destruct (nth_error line (Z.to_nat i)) as [cell|] eqn:E.
    + assert (Z.to_nat i < List.length line)%nat
        by (apply nth_error_Some; congruence).
      apply IH; lia.
    + apply nth_error_None in E.
      replace i with (Z.of_nat (List.length line)) by lia. reflexivity.
Qed.

Lemma insertLoop_text (line : list string) (fc : Z) (todo : nat) (i : Z)
      (q : string) (args : list string) :
  0 <= i ->
  i + Z.of_nat todo = fc ->
  fc <= Z.of_nat (List.length line) ->
  insertLoop line fc todo i q args
  = Ok (q ++ placeholder_list todo,
        (args ++ firstn todo (skipn (Z.to_nat i) line))%list).
Proof.
  revert i q args; induction todo as [|todo IH]; intros i q args Hi Hsum Hlen.
  - simpl. now rewrite string_app_empty, app_nil_r.
  - cbn [insertLoop].
    destruct (nth_error line (Z.to_nat i)) as [cell|] eqn:E;
      [|apply nth_error_None in E; lia].
    rewrite (firstn_skipn_cons line (Z.to_nat i) cell todo E).
    rewrite IH by lia.
    replace (Z.to_nat (i + 1)) with (S (Z.to_nat i)) by lia.
    rewrite <- app_assoc. cbn [app].
    f_equal. f_equal.
    destruct todo as [|todo].
    + replace (i =? fc - 1) with true by (symmetry; apply Z.eqb_eq; lia).
      simpl. now rewrite !string_app_empty.
    + replace (i =? fc - 1) with false by (symmetry; apply Z.eqb_neq; lia).
      change (placeholder_list (S (S todo))) with ("?," ++ placeholder_list (S todo)).
      now rewrite string_app_assoc.
Qed.

Lemma insertStatement_short (line : list string) (fc : Z) :
  Z.of_nat (List.length line) < fc ->
  insertStatement line fc
  = Panic (IndexOutOfRange (Z.of_nat (List.length line)) (Z.of_nat (List.length line))).
Proof. intros H. apply insertLoop_short; lia. Qed.

Lemma insertStatement_text (line : list string) (fc : Z) :
  0 <= fc <= Z.of_nat (List.length line) ->
  insertStatement line fc
  = Ok ("insert into csv values (" ++ placeholder_list (Z.to_nat fc),
        firstn (Z.to_nat fc) line).
Proof. intros H. unfold insertStatement. now rewrite insertLoop_text by lia. Qed.

Lemma lex_placeholder_list (n : nat) :
  (0 < n)%nat ->
  sqlite.lex (placeholder_list n) "" = Some (placeholder_tokens n).
Proof.
  induction n as [|n IH]; intros H; [lia|].
  destruct n as [|n]; [reflexivity|].
  change (placeholder_list (S (S n))) with (String "?" (String "," (placeholder_list (S n)))).
  change (placeholder_tokens (S (S n)))
    with (sqlite.Param :: sqlite.Comma :: placeholder_tokens (S n)).
  rewrite lex_param by reflexivity.
  rewrite lex_comma, IH by lia. reflexivity.
Qed.

Lemma tokens_insert (n : nat) :
  (0 < n)%nat ->
  sqlite.tokens ("insert into csv values (" ++ placeholder_list n)
  = Some (sqlite.Word "insert" :: sqlite.Word "into" :: sqlite.Word "csv"
          :: sqlite.Word "values" :: sqlite.LParen :: placeholder_tokens n).
Proof.
  intros H. unfold sqlite.tokens.
  change ("insert into csv values (" ++ placeholder_list n)
    with ("insert" ++ String " " ("into" ++ String " " ("csv" ++ String " "
            ("values" ++ String " " (String "(" (placeholder_list n)))))).
  rewrite (lex_word_then "insert" _ " "%char) by word_side.
  rewrite lex_space.
  rewrite (lex_word_then "into" _ " "%char) by word_side.
  rewrite lex_space.
  rewrite (lex_word_then "csv" _ " "%char) by word_side.
  rewrite lex_space.
  rewrite (lex_word_then "values" _ " "%char) by word_side.
  rewrite lex_space.
  change (sqlite.lex (String "(" (placeholder_list n)) "")
    with (option_map (fun ts => sqlite.LParen :: ts) (sqlite.lex (placeholder_list n) "")).
  rewrite lex_placeholder_list by assumption. reflexivity.
Qed.

Lemma placeholders_tokens (n k : nat) :
  (0 < n)%nat ->
  sqlite.placeholders (placeholder_tokens n) k = Some (sqlite.Done (k + n)%nat).
Proof.
  revert k; induction n as [|n IH]; intros k H; [lia|].
  destruct n as [|n].
  - cbn. f_equal. f_equal. lia.
  - change (placeholder_tokens (S (S n)))
      with (sqlite.Param :: sqlite.Comma :: placeholder_tokens (S n)).
    cbn [sqlite.placeholders]. rewrite IH by lia. f_equal. f_equal. lia.
Qed.

Lemma exec_insert (d : sqlite.database) (t : sqlite.table) (n : nat) (args : list string) :
  sqlite.find_table d "csv" = Some t ->
  List.length (sqlite.t_columns t) = n ->
  List.length args = n ->
  (0 < n)%nat ->
  sqlite.exec d ("insert into csv values (" ++ placeholder_list n) args
  = Some (sqlite.Done
            {| sqlite.tables :=
                 sqlite.update_table (sqlite.tables d) "csv"
                                     (fun t => sqlite.add_row t args);
               sqlite.indexes := sqlite.indexes d |}).
Proof.
  intros Ht Hc Ha Hn. unfold sqlite.exec.
  rewrite tokens_insert by assumption.
  change (sqlite.is_word "insert" "insert" && sqlite.is_word "into" "into"
          && sqlite.is_word "values" "values") with true.
  cbv iota. unfold sqlite.insert.
  change (negb (sqlite.plain_name "csv")) with false. cbv iota.
  rewrite placeholders_tokens by assumption. cbn [Nat.add].
  now rewrite Ht, Hc, Ha, Nat.eqb_refl.
Qed.

(** ** The import loop *)

Lemma Read_field_count (r : csv.Reader) (dst : list string) (rest : list (list string)) :
  csv.validDelim (csv.Comma r) = true ->
  csv.pending r = dst :: rest ->
  0 < csv.FieldsPerRecord r ->
  Z.of_nat (List.length dst) <> csv.FieldsPerRecord r ->
  fst (csv.Read r) = csv.Err csv.ErrFieldCount.
Proof.
  intros Hv Hp Hf Hn. unfold csv.Read.
  rewrite Hv, Hp.
  destruct (csv.Comma r =? 0) eqn:E.
  { apply Z.eqb_eq in E. rewrite E in Hv. discriminate. }
  cbn [orb negb].
  replace (0 <? csv.FieldsPerRecord r) with true by (symmetry; apply Z.ltb_lt; lia).
  replace (Z.of_nat (List.length dst) =? csv.FieldsPerRecord r) with false
    by (symmetry; now apply Z.eqb_neq).
  reflexivity.
Qed.

Lemma importLoop_insert (fuel : nat) (reader reader' : csv.Reader) (line : list string)
      (rows : Z) (p : process) (t : sqlite.table) :
  csv.Read reader = (csv.Record_ line, reader') ->
  sqlite.find_table (db p) "csv" = Some t ->
  Z.of_nat (List.length (sqlite.t_columns t)) = csvFieldCount p ->
  0 < csvFieldCount p <= Z.of_nat (List.length line) ->
  importLoop (S fuel) reader rows p
  = importLoop fuel reader' (rows + 1)
      (inserted p ("insert into csv values (" ++ placeholder_list (Z.to_nat (csvFieldCount p)))
                (firstn (Z.to_nat (csvFieldCount p)) line)).
Proof.
  intros Hr Ht Hc Hfc.
  cbn [importLoop]. rewrite Hr.
  unfold bind at 1. unfold get.
  unfold bind at 1. unfold stop at 1.
  rewrite insertStatement_text by lia.
  unfold bind at 1. unfold dbExec, bind, record_statement, get, stop, ret, set_db.
  cbn [db fst snd].
  rewrite (exec_insert (db p) t (Z.to_nat (csvFieldCount p))); try assumption; try lia.
  - reflexivity.
  - rewrite length_firstn. lia.
Qed.

Lemma importLoop_short_line (fuel : nat) (reader reader' : csv.Reader) (line : list string)
      (rows : Z) (p : process) :
  csv.Read reader = (csv.Record_ line, reader') ->
  Z.of_nat (List.length line) < csvFieldCount p ->
  importLoop (S fuel) reader rows p
  = (p, Panic (IndexOutOfRange (Z.of_nat (List.length line)) (Z.of_nat (List.length line)))).
Proof.
  intros Hr Hfc.
  cbn [importLoop]. rewrite Hr.
  unfold bind at 1. unfold get.
  unfold bind at 1. unfold stop at 1.
  now rewrite insertStatement_short.
Qed.

Lemma importLoop_read_error (fuel : nat) (reader reader' : csv.Reader) (e : csv.error)
      (rows : Z) (p : process) :
  csv.Read reader = (csv.Err e, reader') ->
  importLoop (S fuel) reader rows p = (p, Fatal (ReadError e)).
Proof. intros Hr. cbn [importLoop]. now rewrite Hr. Qed.

(** C4 (as amended): a line that the reader returns is inserted through
    its first fieldCount cells only, the cells beyond them being left out;
    a line with fewer cells than the field count ends the program with an
    index out of range, no cell being supplied for the missing ones.  The
    reader itself (its FieldsPerRecord being left at 0) fixes the number of
    fields on the first record of the file and returns an error, which ends
    the program, for every later record with another number of fields,
    longer or shorter. *)
Theorem import_line_arity (fuel : nat) (reader : csv.Reader) (rows : Z) (p : process) :
  (forall line reader' t,
      csv.Read reader = (csv.Record_ line, reader') ->
      sqlite.find_table (db p) "csv" = Some t ->
      Z.of_nat (List.length (sqlite.t_columns t)) = csvFieldCount p ->
      0 < csvFieldCount p <= Z.of_nat (List.length line) ->
      importLoop (S fuel) reader rows p
      = importLoop fuel reader' (rows + 1)
          (inserted p ("insert into csv values ("
                       ++ placeholder_list (Z.to_nat (csvFieldCount p)))
                    (firstn (Z.to_nat (csvFieldCount p)) line)))
  /\ (forall line reader',
         csv.Read reader = (csv.Record_ line, reader') ->
         Z.of_nat (List.length line) < csvFieldCount p ->
         importLoop (S fuel) reader rows p
         = (p, Panic (IndexOutOfRange (Z.of_nat (List.length line))
                                      (Z.of_nat (List.length line)))))
  /\ (forall dst rest,
         csv.validDelim (csv.Comma reader) = true ->
         csv.pending reader = dst :: rest ->
         0 < csv.FieldsPerRecord reader ->
         Z.of_nat (List.length dst) <> csv.FieldsPerRecord reader ->
         importLoop (S fuel) reader rows p = (p, Fatal (ReadError csv.ErrFieldCount))).
Proof.
  split; [|split].
  - intros line reader' t. apply importLoop_insert.
  - intros line reader'. apply importLoop_short_line.
  - intros dst rest Hv Hp Hf Hn.
    pose proof (Read_field_count reader dst rest Hv Hp Hf Hn) as Hr.
    destruct (csv.Read reader) as [res reader'] eqn:E. cbn [fst] in Hr. subst res.
    now apply (importLoop_read_error fuel reader reader').
Qed.

Lemma import_line_arity_sample :
  importLoop 2 (csv.setComma (csv.NewReader [["1"; "2"; "3"]]) 44) 0
             (fst (startup custom_flags (Some [])))
  = importLoop 1 {| csv.Comma := 44; csv.FieldsPerRecord := 3; csv.pending := [] |} 1
      (inserted (fst (startup custom_flags (Some [])))
                "insert into csv values (?,?);" ["1"; "2"])
  /\ importLoop 2 (csv.setComma (csv.NewReader [["1"]]) 44) 0
                (fst (startup custom_flags (Some [])))
     = (fst (startup custom_flags (Some [])), Panic (IndexOutOfRange 1 1))
  /\ importLoop 2 {| csv.Comma := 44; csv.FieldsPerRecord := 2;
                     csv.pending := [["1"; "2"; "3"]] |} 0
                (fst (startup custom_flags (Some [])))
     = (fst (startup custom_flags (Some [])), Fatal (ReadError csv.ErrFieldCount)).
Proof.
  split; [|split].
  - apply (proj1 (import_line_arity 1 (csv.setComma (csv.NewReader [["1"; "2"; "3"]]) 44) 0
                                    (fst (startup custom_flags (Some []))))
                 ["1"; "2"; "3"]
                 {| csv.Comma := 44; csv.FieldsPerRecord := 3; csv.pending := [] |}
                 {| sqlite.t_name := "csv"; sqlite.t_columns := ["a"; "b"];
                    sqlite.t_rows := [] |}).
    + reflexivity.
    + reflexivity.
    + reflexivity.
    + change (0 < 2 <= 3). lia.
  - apply (proj1 (proj2 (import_line_arity 1 (csv.setComma (csv.NewReader [["1"]]) 44) 0
                                           (fst (startup custom_flags (Some [])))))
                 ["1"]
                 {| csv.Comma := 44; csv.FieldsPerRecord := 1; csv.pending := [] |}).
    + reflexivity.
    + reflexivity.
  - apply (proj2 (proj2 (import_line_arity 1
                           {| csv.Comma := 44; csv.FieldsPerRecord := 2;
                              csv.pending := [["1"; "2"; "3"]] |} 0
                           (fst (startup custom_flags (Some [])))))
                 ["1"; "2"; "3"] []).
    + reflexivity.
    + reflexivity.
    + reflexivity.
    + discriminate.
Defined.

(** A file whose lines all have three cells, imported with the field count
    2: the third cell of each line is left out. *)
Lemma import_leaves_extra_cells_out :
  snd (startup custom_flags (Some [["1"; "2"; "3"]; ["4"; "5"; "6"]])) = Ok 2
  /\ sqlite.tables (db (fst (startup custom_flags (Some [["1"; "2"; "3"]; ["4"; "5"; "6"]]))))
     = [{| sqlite.t_name := "csv"; sqlite.t_columns := ["a"; "b"];
           sqlite.t_rows := [["1"; "2"]; ["4"; "5"]] |}].
Proof. vm_compute. split; reflexivity. Qed.

(** C4 (as stated): under the header a,b the resolved field count is 2; the
    line 1,2,3 has more cells than that, and it is not inserted through its
    first two cells: the reader refuses it and the import ends fatally with
    an empty table.  A short line under the same header ends the same
    way. *)
Lemma longer_line_after_header_is_fatal :
  csvFieldCount (fst (startup sample_flags (Some [["a"; "b"]; ["1"; "2"; "3"]]))) = 2
  /\ snd (startup sample_flags (Some [["a"; "b"]; ["1"; "2"; "3"]]))
     = Fatal (ReadError csv.ErrFieldCount)
  /\ sqlite.tables (db (fst (startup sample_flags (Some [["a"; "b"]; ["1"; "2"; "3"]]))))
     = [{| sqlite.t_name := "csv"; sqlite.t_columns := ["a"; "b"]; sqlite.t_rows := [] |}]
  /\ executed (fst (startup sample_flags (Some [["a"; "b"]; ["1"; "2"; "3"]])))
     = [("create table csv (a text, b text);", [])]
  /\ snd (startup sample_flags (Some [["a"; "b"]; ["1"]]))
     = Fatal (ReadError csv.ErrFieldCount).
Proof. vm_compute. repeat split. Qed.

(** ** Splitting the custom header *)

Lemma splitScan_nonempty (sep s : string) (skip : nat) (cur : string) :
  (1 <= List.length (strings.splitScan sep s skip cur))%nat.
Proof.
  revert skip cur; induction s as [|c s IH]; intros skip cur; cbn [strings.splitScan].
  - simpl. lia.
  - destruct skip as [|k]; [|apply IH].
    destruct (String.prefix sep (String c s)); [|apply IH].
    cbn [List.length]. lia.
Qed.


Lemma Split_pieces (str sep : string) :
  sep <> "" -> (1 <= List.length (strings.Split str sep))%nat.
Proof.
  intros H. unfold strings.Split. destruct sep; [congruence|].
  apply splitScan_nonempty.
Qed.


Lemma string_of_rune_nonempty (r : Z) : utf8.string_of_rune r <> "".
Proof.
  unfold utf8.string_of_rune, utf8.enc3.
  repeat match goal with |- context [if ?b then _ else _] => destruct b end;
    discriminate.
Qed.




(** ** What a query can return *)



(** ** Import followed by query *)

Lemma firstn_exact {A} (l : list A) : firstn (List.length l) l = l.
Proof. induction l as [|x l IH]; simpl; [reflexivity|now rewrite IH]. Qed.

Lemma importLoop_two_columns (rows done : list (list string))
      (statements : list (string * list string)) (k : Z) :
  Forall (fun r => List.length r = 2%nat) rows ->
  importLoop (S (List.length rows))
             {| csv.Comma := 44; csv.FieldsPerRecord := 2; csv.pending := rows |}
             k (two_columns done statements)
  = (two_columns (done ++ rows) (statements ++ insert_statements rows),
     Ok (k + Z.of_nat (List.length rows))).
Proof.
  revert done statements k; induction rows as [|r rows IH]; intros done statements k Hall.
  - cbn [List.length insert_statements map]. rewrite !app_nil_r.
    replace (k + Z.of_nat 0) with k by lia. reflexivity.
  - inversion Hall as [|? ? Hr Hrows]; subst.
    rewrite (importLoop_insert _ _
               {| csv.Comma := 44; csv.FieldsPerRecord := 2; csv.pending := rows |}
               r k _ {| sqlite.t_name := "csv"; sqlite.t_columns := ["a"; "b"];
                        sqlite.t_rows := done |}).
    + replace (inserted (two_columns done statements) _ _)
        with (two_columns (done ++ [r]) (statements ++ [("insert into csv values (?,?);", r)])).
      * rewrite IH by assumption.
        cbn [insert_statements map List.length].
        rewrite <- !app_assoc. cbn [app].
        replace (k + 1 + Z.of_nat (List.length rows))
          with (k + Z.of_nat (S (List.length rows))) by lia.
        reflexivity.
      * assert (Hf : firstn (Z.to_nat 2) r = r).
        { change (Z.to_nat 2) with 2%nat. rewrite <- Hr. apply firstn_exact. }
        unfold inserted. cbn [csvFieldCount two_columns]. rewrite Hf.
        reflexivity.
    + unfold csv.Read. cbn. rewrite Hr. reflexivity.
    + reflexivity.
    + reflexivity.
    + cbn. rewrite Hr. lia.
Qed.

Lemma startup_two_columns (rows : list (list string)) :
  Forall (fun r => List.length r = 2%nat) rows ->
  startup sample_flags (Some (["a"; "b"] :: rows))
  = (two_columns rows (insert_statements rows), Ok (Z.of_nat (List.length rows))).
Proof.
  intros Hall.
  change (startup sample_flags (Some (["a"; "b"] :: rows)))
    with (importLoop (S (List.length rows))
                     {| csv.Comma := 44; csv.FieldsPerRecord := 2; csv.pending := rows |}
                     0 (two_columns [] [])).
  now rewrite importLoop_two_columns.
Qed.

Lemma query_first_column (rows : list (list string)) (statements : list (string * list string))
      (x : string) :
  handleRequest (db (two_columns rows statements)) [("a", [x])]
  = Some (IndentedJSON 200
            (map (project ["a"; "b"])
                 (filter (fun row => sqlite.passes row [(O, x)]) rows))).
Proof.
  unfold handleRequest.
  change (buildQuery [("a", [x])])
    with ("SELECT * FROM csv WHERE " ++ where_text ["a"], [x]).
  cbv iota.
  rewrite (query_where _ {| sqlite.t_name := "csv"; sqlite.t_columns := ["a"; "b"];
                            sqlite.t_rows := rows |}).
  - reflexivity.
  - reflexivity.
  - discriminate.
  - repeat constructor. discriminate.
  - repeat constructor. discriminate.
  - reflexivity.
Qed.

(** Every row whose first cell is shared only with rows that convert to
    values JSON can hold is returned, converted, by the filter on the first
    column with that cell as its value. *)
Lemma rows_of_encodable_values_are_retrievable (rows : list (list string)) (x y : string) :
  Forall (fun r => List.length r = 2%nat) rows ->
  In [x; y] rows ->
  (forall r, In r rows -> sqlite.passes r [(O, x)] = true ->
             encodable_record (project ["a"; "b"] r) = true) ->
  exists data,
    handleRequest (db (fst (startup sample_flags (Some (["a"; "b"] :: rows)))))
                  [("a", [x])]
    = Some (JSON 200 (Records data))
    /\ In (project ["a"; "b"] [x; y]) data.
Proof.
  intros Hall Hin Henc.
  rewrite startup_two_columns by assumption. cbn [fst].
  rewrite query_first_column.
  exists (map (project ["a"; "b"]) (filter (fun row => sqlite.passes row [(O, x)]) rows)).
  split.
  - unfold IndentedJSON.
    replace (forallb _ _) with true; [reflexivity|].
    symmetry. apply forallb_forall. intros m Hm.
    apply in_map_iff in Hm. destruct Hm as [r [<- Hr]].
    apply filter_In in Hr. destruct Hr as [Hr Hp].
    exact (Henc r Hr Hp).
  - apply in_map. apply filter_In. split; [assumption|].
    cbn. now rewrite String.eqb_refl.
Qed.


(** ** The fuel of the import loop *)

Lemma Read_consumes (r r' : csv.Reader) (line : list string) :
  csv.Read r = (csv.Record_ line, r') ->
  S (List.length (csv.pending r')) = List.length (csv.pending r).
Proof.
  unfold csv.Read.
  destruct ((csv.Comma r =? 0) || negb (csv.validDelim (csv.Comma r))); [discriminate|].
  destruct (csv.pending r) as [|dst rest]; [discriminate|].
  destruct (0 <? csv.FieldsPerRecord r).
  - destruct (negb (Z.of_nat (List.length dst) =? csv.FieldsPerRecord r));
      [discriminate|].
    intros H; inversion H; reflexivity.
  - destruct (csv.FieldsPerRecord r =? 0); intros H; inversion H; reflexivity.
Qed.

Lemma importLoop_fuel (fuel : nat) (reader : csv.Reader) (rows : Z) (p : process) :
  (List.length (csv.pending reader) < fuel)%nat ->
  snd (importLoop fuel reader rows p) <> OutOfFuel.
Proof.
  revert reader rows p; induction fuel as [|fuel IH]; intros reader rows p Hf; [lia|].
  cbn [importLoop].
  destruct (csv.Read reader) as [[line| |e] reader'] eqn:E; try (cbn; discriminate).
  apply Read_consumes in E.
  unfold bind at 1. unfold get.
  unfold bind at 1. unfold stop at 1.
  destruct (insertStatement line (csvFieldCount p)) as [[q args]| | | |] eqn:Ei;
    try (cbn; discriminate).
  - unfold bind at 1. unfold dbExec, bind, record_statement, get, stop, ret, set_db, logFatal.
    cbn [db fst snd].
    destruct (sqlite.exec (db p) q args) as [[d|err]|]; try (cbn; discriminate).
    apply IH. lia.
  - exfalso. revert Ei. unfold insertStatement.
    generalize (Z.to_nat (csvFieldCount p)) 0 "insert into csv values (" (@nil string).
    intros todo; induction todo as [|todo IHt]; intros i q args; cbn [insertLoop];
      [discriminate|].
    destruct (nth_error line (Z.to_nat i)); [apply IHt|discriminate].
Qed.

(** The import loop is given enough fuel: processCSV never ends for want
    of it. *)
Lemma importRows_has_enough_fuel (reader : csv.Reader) (p : process) :
  snd (importRows reader p) <> OutOfFuel.
Proof. unfold importRows. apply importLoop_fuel. lia. Qed.

Lemma bind_fuel {A B} (m : M A) (k : A -> M B) (p : process) :
  (forall p, snd (m p) <> OutOfFuel) ->
  (forall a p, snd (k a p) <> OutOfFuel) ->
  snd (bind m k p) <> OutOfFuel.
Proof.
  intros Hm Hk. unfold bind. specialize (Hm p).
  destruct (m p) as [p' [a|f|e| |]]; cbn in *; try discriminate; [apply Hk|congruence].
Qed.

Lemma dbExec_fuel (query : string) (args : list string) (p : process) :
  snd (dbExec query args p) <> OutOfFuel.
Proof.
  unfold dbExec, bind, record_statement, get, stop, ret, set_db. cbn [db fst snd].
  destruct (sqlite.exec (db p) query args) as [[d|err]|]; cbn; discriminate.
Qed.

Lemma createIndicies_fuel (indicies : list string) (p : process) :
  snd (createIndicies indicies p) <> OutOfFuel.
Proof.
  revert p; induction indicies as [|index indicies IH]; intros p; [cbn; discriminate|].
  cbn [createIndicies]. apply bind_fuel; [apply dbExec_fuel|].
  intros [e|] p'; [cbn; discriminate|apply IH].
Qed.

Lemma createTableLoop_fuel (header : list string) (fc : Z) (todo : nat) (i : Z) (q : string) :
  createTableLoop header fc todo i q <> OutOfFuel.
Proof.
  revert i q; induction todo as [|todo IH]; intros i q; cbn [createTableLoop];
    [discriminate|].
  destruct (nth_error header (Z.to_nat i)); [apply IH|discriminate].
Qed.

(** processCSV ends normally, by log.Fatal, by a panic or on a statement
    the model of the store does not cover, never for want of fuel. *)
Lemma processCSV_has_enough_fuel (file : option (list (list string))) (p : process) :
  snd (processCSV file p) <> OutOfFuel.
Proof.
  unfold processCSV.
  apply bind_fuel.
  { intros p0. unfold openReader, bind, set_db, get, logFatal, stop, ret.
    destruct file; cbn; discriminate. }
  intros reader p0. apply bind_fuel.
  { intros p1. unfold readHeader, bind, get, when, set_csvHeader, logFatal, stop, ret.
    destruct (csvHasHeader p1); [|cbn; discriminate].
    destruct (csv.Read reader) as [[line| |e] reader']; try (cbn; discriminate).
    destruct (Z.of_nat (List.length (csvHeader p1)) =? 0); cbn; discriminate. }
  intros reader1 p1. apply bind_fuel.
  { intros p2. unfold resolveFieldCount, bind, get, when, set_csvFieldCount, ret.
    destruct (csvFieldCount p2 =? 0); cbn; discriminate. }
  intros _ p2. apply bind_fuel.
  { intros p3. unfold createTable. apply bind_fuel; [cbn; discriminate|].
    intros p4 p5. apply bind_fuel.
    { intros p6. unfold stop. cbn. apply createTableLoop_fuel. }
    intros q p6. apply bind_fuel; [apply dbExec_fuel|].
    intros [e|] p7; cbn; discriminate. }
  intros _ p3. apply bind_fuel; [cbn; discriminate|].
  intros p4 p5. apply bind_fuel; [apply createIndicies_fuel|].
  intros _ p6. apply importRows_has_enough_fuel.
Qed.

(** * Further properties of the program *)

(** ** The sanitizer *)

Lemma string_filter_app (p : ascii -> bool) (a b : string) :
  string_filter p (a ++ b) = string_filter p a ++ string_filter p b.
Proof.
  induction a as [|x a IH]; [reflexivity|].
  simpl. destruct (p x); simpl; now rewrite IH.
Qed.

Lemma string_map_app (f : ascii -> ascii) (a b : string) :
  string_map f (a ++ b) = string_map f a ++ string_map f b.
Proof. induction a as [|x a IH]; [reflexivity|]. simpl. now rewrite IH. Qed.

Lemma sanitize_empty_iff (h : string) :
  sanitize h = "" <-> string_existsb is_alnum h = false.
Proof.
  rewrite sanitize_filter.
  induction h as [|c h IH]; simpl; [tauto|].
  destruct (is_alnum c); simpl; [split; discriminate|exact IH].
Qed.

Lemma sanitize_length (h : string) :
  (String.length (sanitize h) <= String.length h)%nat.
Proof.
  rewrite sanitize_filter.
  induction h as [|c h IH]; simpl; [lia|].
  destruct (is_alnum c); simpl; lia.
Qed.

(** X6: the sanitizer works character by character: the name of a token made
    of two parts is made of the names of the parts, no name is longer than
    its token, and the name is empty exactly for the tokens without a
    letter or a digit. *)
Theorem sanitize_by_character (a b : string) :
  sanitize (a ++ b) = sanitize a ++ sanitize b
  /\ (String.length (sanitize a) <= String.length a)%nat
  /\ (sanitize a = "" <-> string_existsb is_alnum a = false).
Proof.
  split; [|split].
  - rewrite !sanitize_filter. now rewrite string_filter_app, string_map_app.
  - apply sanitize_length.
  - apply sanitize_empty_iff.
Qed.

(** ** Splitting and joining *)

Lemma string_rev_onto_app (cur s : string) :
  string_rev_onto cur s = string_rev cur ++ s.
Proof.
  unfold string_rev. revert s; induction cur as [|c cur IH]; intros s; [reflexivity|].
  simpl. rewrite IH, (IH (String c "")). now rewrite string_app_assoc.
Qed.

Lemma prefix_app (p s : string) :
  String.prefix p s = true -> s = p ++ string_skip (String.length p) s.
Proof.
  revert s; induction p as [|c p IH]; intros s H; [reflexivity|].
  destruct s as [|x s]; [discriminate|].
  cbn [String.prefix] in H.
  destruct (ascii_dec c x) as [->|]; [|discriminate].
  cbn [String.length string_skip String.append]. now rewrite <- (IH s H).
Qed.

Lemma splitScan_skip (sep s : string) (k : nat) (cur : string) :
  (k <= String.length s)%nat ->
  strings.splitScan sep s k cur = strings.splitScan sep (string_skip k s) O cur.
Proof.
  revert k; induction s as [|c s IH]; intros k H.
  - destruct k; [reflexivity|simpl in H; lia].
  - destruct k as [|k]; [reflexivity|].
    cbn [strings.splitScan string_skip]. apply IH. simpl in H. lia.
Qed.

Lemma string_skip_length (k : nat) (s : string) :
  String.length (string_skip k s) = (String.length s - k)%nat.
Proof.
  revert s; induction k as [|k IH]; intros s; [simpl; lia|].
  destruct s; [reflexivity|]. simpl. apply IH.
Qed.

Lemma concat_cons (sep x : string) (l : list string) :
  l <> [] -> String.concat sep (x :: l) = x ++ sep ++ String.concat sep l.
Proof. destruct l; [congruence|reflexivity]. Qed.

Lemma splitScan_join (sep : string) (n : nat) (s cur : string) :
  sep <> "" ->
  (String.length s <= n)%nat ->
  String.concat sep (strings.splitScan sep s O cur) = string_rev cur ++ s.
Proof.
  intros Hsep. revert s cur; induction n as [|n IH]; intros s cur Hn.
  - destruct s; [|simpl in Hn; lia]. simpl. now rewrite string_app_empty.
  - destruct s as [|c s]; [simpl; now rewrite string_app_empty|].
    cbn [strings.splitScan].
    destruct (String.prefix sep (String c s)) eqn:E.
    + pose proof (prefix_app _ _ E) as Hs.
      destruct sep as [|c0 sep]; [congruence|].
      cbn [String.length string_skip] in Hs.
      assert (Hlen : (String.length sep <= String.length s)%nat).
      { apply (f_equal String.length) in Hs. cbn [String.append String.length] in Hs.
        rewrite string_length_app in Hs. lia. }
      replace (String.length (String c0 sep) - 1)%nat with (String.length sep)
        by (simpl; lia).
      rewrite splitScan_skip by assumption.
      rewrite concat_cons.
      * rewrite IH.
        -- rewrite Hs. reflexivity.
        -- rewrite string_skip_length. simpl in Hn. lia.
      * intros Hnil.
        pose proof (splitScan_nonempty (String c0 sep) (string_skip (String.length sep) s) O "").
        rewrite Hnil in H. simpl in H. lia.
    + rewrite IH by (simpl in Hn; lia).
      unfold string_rev. cbn [string_rev_onto].
      rewrite (string_rev_onto_app cur (String c "")).
      now rewrite string_app_assoc.
Qed.

Lemma Split_join (s sep : string) :
  sep <> "" -> String.concat sep (strings.Split s sep) = s.
Proof.
  intros H. unfold strings.Split. destruct sep as [|c sep]; [congruence|].
  now rewrite (splitScan_join _ (String.length s)).
Qed.

(** X1: whatever trySplit returns for the configured delimiter and the comma
    can be joined back into the string it was given: by the delimiter, or
    by the comma.  No character of a custom header or of an index list is
    lost or added by the splitting. *)
Theorem trySplit_join (str d : string) :
  d <> "" ->
  String.concat d (trySplit str [d; ","]) = str
  \/ String.concat "," (trySplit str [d; ","]) = str.
Proof.
  intros Hd. cbn [trySplit].
  destruct (negb (Z.of_nat (List.length (strings.Split str d)) =? 1)).
  - left. now apply Split_join.
  - destruct (negb (Z.of_nat (List.length (strings.Split str ",")) =? 1)).
    + right. now apply Split_join.
    + now left.
Qed.

Lemma trySplit_join_sample :
  String.concat "|" (trySplit "a|b,c" ["|"; ","]) = "a|b,c"
  \/ String.concat "," (trySplit "a|b,c" ["|"; ","]) = "a|b,c".
Proof. apply (trySplit_join "a|b,c" "|"). discriminate. Defined.

Lemma splitScan_char (c : ascii) (s cur : string) :
  without c cur = true ->
  List.length (strings.splitScan (String c "") s O cur) = S (string_count c s)
  /\ forallb (without c) (strings.splitScan (String c "") s O cur) = true.
Proof.
  revert cur; induction s as [|x s IH]; intros cur Hcur.
  - cbn. split; [reflexivity|].
    rewrite andb_true_r. unfold without, string_rev.
    assert (G : forall a b, string_forallb (fun x => negb (x =? c)%char) a = true ->
                            string_forallb (fun x => negb (x =? c)%char) b = true ->
                            string_forallb (fun x => negb (x =? c)%char) (string_rev_onto a b) = true).
    { induction a as [|y a IHa]; intros b Ha Hb; [exact Hb|].
      simpl in Ha. apply andb_prop in Ha. destruct Ha as [Hy Ha].
      simpl. apply IHa; [assumption|]. simpl. now rewrite Hy, Hb. }
    now apply G.
  - cbn [strings.splitScan String.prefix string_count].
    destruct (ascii_dec c x) as [->|Hne].
    + rewrite prefix_empty, Ascii.eqb_refl.
      cbn [String.length Nat.sub].
      destruct (IH "" eq_refl) as [Hl Hf].
      cbn [List.length forallb]. rewrite Hl, Hf. split; [reflexivity|].
      rewrite andb_true_r.
      assert (G : forall a b, without x a = true -> without x b = true ->
                              without x (string_rev_onto a b) = true).
      { unfold without. induction a as [|y a IHa]; intros b Ha Hb; [exact Hb|].
        simpl in Ha. apply andb_prop in Ha. destruct Ha as [Hy Ha].
        simpl. apply IHa; [assumption|]. simpl. now rewrite Hy, Hb. }
      unfold string_rev. now apply G.
    + assert (E : (x =? c)%char = false) by (apply Ascii.eqb_neq; congruence).
      rewrite E. apply IH. unfold without in *. simpl. now rewrite E, Hcur.
Qed.

(** X2: splitting on a one-character delimiter that occurs in the string:
    trySplit yields one piece more than there are occurrences of the
    character, and no piece holds the character. *)
Theorem trySplit_on_character (str : string) (c : ascii) :
  (0 < string_count c str)%nat ->
  List.length (trySplit str [String c ""; ","]) = S (string_count c str)
  /\ forallb (without c) (trySplit str [String c ""; ","]) = true.
Proof.
  intros H. cbn [trySplit].
  destruct (splitScan_char c str "" eq_refl) as [Hl Hf].
  change (strings.Split str (String c "")) with (strings.splitScan (String c "") str O "").
  rewrite Hl.
  replace (Z.of_nat (S (string_count c str)) =? 1) with false
    by (symmetry; apply Z.eqb_neq; lia).
  cbn [negb]. now rewrite Hl.
Qed.

Lemma trySplit_on_character_sample :
  List.length (trySplit "id;name;age" [";"; ","]) = 3%nat
  /\ forallb (without ";") (trySplit "id;name;age" [";"; ","]) = true.
Proof. apply (trySplit_on_character "id;name;age" ";"%char). simpl. lia. Defined.

(** ** Configuration *)

Lemma parseEnvironment_configured (f : flags) :
  flag_file f <> "" ->
  fst (utf8.DecodeRuneInString (flag_delimiter f)) <> utf8.RuneError ->
  parseEnvironment f start = (configured f, Ok tt).
Proof.
  intros Hfile Hd. unfold parseEnvironment, configured. run_monad.
  destruct (String.eqb_spec (flag_file f) "") as [E|_]; [contradiction|]. simpl.
  apply Z.eqb_neq in Hd. rewrite Hd. simpl.
  destruct (flag_header f =? "")%string; simpl;
    destruct (flag_indicies f =? "")%string; reflexivity.
Qed.

Lemma trySplit_nonempty (str d : string) : d <> "" -> trySplit str [d; ","] <> [].
Proof.
  intros Hd. cbn [trySplit].
  pose proof (Split_pieces str d Hd). pose proof (Split_pieces str "," ltac:(discriminate)).
  destruct (negb _); [intros E; rewrite E in *; simpl in *; lia|].
  destruct (negb _); [intros E; rewrite E in *; simpl in *; lia|discriminate].
Qed.

(** X3: parseEnvironment ends the program in two cases only, tested in this
    order: no file was given; the delimiter is empty or does not begin with
    a well-formed character.  Otherwise it succeeds, whatever the field
    count, the header and the index list, and a custom header that was given
    is never left empty by the splitting.  *)
Theorem parseEnvironment_outcome (f : flags) :
  (flag_file f = "" -> snd (parseEnvironment f start) = Fatal NoCSVFile)
  /\ (flag_file f <> "" ->
      fst (utf8.DecodeRuneInString (flag_delimiter f)) = utf8.RuneError ->
      snd (parseEnvironment f start) = Fatal (InvalidDelimiter (flag_delimiter f)))
  /\ (flag_file f <> "" -> flag_delimiter f = "" ->
      snd (parseEnvironment f start) = Fatal (InvalidDelimiter ""))
  /\ (flag_file f <> "" ->
      fst (utf8.DecodeRuneInString (flag_delimiter f)) <> utf8.RuneError ->
      parseEnvironment f start = (configured f, Ok tt)
      /\ (flag_header f <> "" -> csvHeader (configured f) <> [])).
Proof.
  split; [|split; [|split]].
  - intros E. unfold parseEnvironment. run_monad. rewrite E. reflexivity.
  - intros Hfile Hd. unfold parseEnvironment. run_monad.
    destruct (String.eqb_spec (flag_file f) "") as [E|_]; [contradiction|]. simpl.
    rewrite Hd. reflexivity.
  - intros Hfile Hd. unfold parseEnvironment. run_monad.
    destruct (String.eqb_spec (flag_file f) "") as [E|_]; [contradiction|]. simpl.
    rewrite Hd. reflexivity.
  - intros Hfile Hd. split; [now apply parseEnvironment_configured|].
    intros Hh. unfold configured. cbn [csvHeader].
    destruct (String.eqb_spec (flag_header f) "") as [E|_]; [contradiction|].
    apply trySplit_nonempty, string_of_rune_nonempty.
Qed.

Lemma parseEnvironment_outcome_sample :
  snd (parseEnvironment
         {| flag_file := "data.csv"; flag_delimiter := ""; flag_field_count := 0;
            flag_has_header := true; flag_header := ""; flag_indicies := "" |} start)
  = Fatal (InvalidDelimiter "")
  /\ parseEnvironment
       {| flag_file := "data.csv"; flag_delimiter := ";"; flag_field_count := 0;
          flag_has_header := true; flag_header := "a;b"; flag_indicies := "" |} start
     = (configured
          {| flag_file := "data.csv"; flag_delimiter := ";"; flag_field_count := 0;
             flag_has_header := true; flag_header := "a;b"; flag_indicies := "" |},
        Ok tt).
Proof.
  split.
  - apply (proj1 (proj2 (proj2 (parseEnvironment_outcome
             {| flag_file := "data.csv"; flag_delimiter := ""; flag_field_count := 0;
                flag_has_header := true; flag_header := ""; flag_indicies := "" |})))).
    + discriminate.
    + reflexivity.
  - apply (proj2 (proj2 (proj2 (parseEnvironment_outcome
             {| flag_file := "data.csv"; flag_delimiter := ";"; flag_field_count := 0;
                flag_has_header := true; flag_header := "a;b"; flag_indicies := "" |})))).
    + discriminate.
    + vm_compute. discriminate.
Defined.

Lemma startup_configured (f : flags) (file : option (list (list string))) :
  flag_file f <> "" ->
  fst (utf8.DecodeRuneInString (flag_delimiter f)) <> utf8.RuneError ->
  startup f file = processCSV file (configured f).
Proof.
  intros Hfile Hd. unfold startup, bind.
  now rewrite parseEnvironment_configured.
Qed.

(** X4: a delimiter that the CSV reader does not admit (the double quote, the
    carriage return, the line feed, the NUL character) passes
    parseEnvironment; with a header line announced the program then ends
    on the first read, before any statement reaches the store, whatever the
    file holds. *)
Theorem reader_refuses_delimiter (f : flags) (c : ascii) (rest : string)
        (records : list (list string)) :
  flag_file f <> "" ->
  flag_delimiter f = String c rest ->
  byte_val c < 128 ->
  csv.validDelim (byte_val c) = false ->
  flag_has_header f = true ->
  snd (parseEnvironment f start) = Ok tt
  /\ snd (startup f (Some records))
     = Fatal (CouldNotReadHeader (csv.Err csv.errInvalidDelim))
  /\ executed (fst (startup f (Some records))) = [].
Proof.
  intros Hfile Hd Hc Hv Hh.
  assert (Hr : fst (utf8.DecodeRuneInString (flag_delimiter f)) = byte_val c)
    by (rewrite Hd, decode_ascii by assumption; reflexivity).
  assert (Hne : fst (utf8.DecodeRuneInString (flag_delimiter f)) <> utf8.RuneError)
    by (rewrite Hr; unfold utf8.RuneError; lia).
  split; [now rewrite parseEnvironment_configured|].
  rewrite startup_configured by assumption.
  assert (Hread : forall r, csv.Read (csv.setComma r (byte_val c))
                            = (csv.Err csv.errInvalidDelim, csv.setComma r (byte_val c))).
  { intros r. unfold csv.Read, csv.setComma. cbn [csv.Comma].
    now rewrite Hv, orb_true_r. }
  unfold processCSV, openReader, readHeader, bind, set_db, get, ret, logFatal, stop.
  cbn [csvHasHeader csvDelimiter configured fst snd].
  rewrite Hh, Hr, Hread. split; reflexivity.
Qed.

Lemma reader_refuses_delimiter_sample :
  snd (startup {| flag_file := "data.csv"; flag_delimiter := String (byte_of 10) "";
                  flag_field_count := 0; flag_has_header := true; flag_header := "";
                  flag_indicies := "" |}
               (Some [["a"; "b"]; ["1"; "2"]]))
  = Fatal (CouldNotReadHeader (csv.Err csv.errInvalidDelim)).
Proof.
  apply (reader_refuses_delimiter
           {| flag_file := "data.csv"; flag_delimiter := String (byte_of 10) "";
              flag_field_count := 0; flag_has_header := true; flag_header := "";
              flag_indicies := "" |}
           (byte_of 10) "" [["a"; "b"]; ["1"; "2"]]).
  - discriminate.
  - reflexivity.
  - reflexivity.
  - reflexivity.
  - reflexivity.
Defined.

(** ** The state of the store along the import *)

Lemma find_update_table (ts : list sqlite.table) (name : string) (t : sqlite.table)
      (f : sqlite.table -> sqlite.table) :
  (forall t', sqlite.t_name (f t') = sqlite.t_name t') ->
  find (fun t' => sqlite.same_name (sqlite.t_name t') name) ts = Some t ->
  find (fun t' => sqlite.same_name (sqlite.t_name t') name) (sqlite.update_table ts name f)
  = Some (f t).
Proof.
  intros Hf. induction ts as [|t0 ts IH]; intros H; [discriminate|].
  cbn [find sqlite.update_table] in *.
  destruct (sqlite.same_name (sqlite.t_name t0) name) eqn:E.
  - inversion H; subst. cbn [find]. now rewrite Hf, E.
  - cbn [find]. rewrite E. now apply IH.
Qed.

Lemma find_table_inserted (p : process) (q : string) (args : list string) (t : sqlite.table) :
  sqlite.find_table (db p) "csv" = Some t ->
  sqlite.find_table (db (inserted p q args)) "csv" = Some (with_rows t [args]).
Proof.
  intros H. unfold sqlite.find_table, inserted. cbn [db sqlite.tables].
  now rewrite (find_update_table _ _ t).
Qed.

Lemma with_rows_app (t : sqlite.table) (a b : list (list string)) :
  with_rows (with_rows t a) b = with_rows t (a ++ b).
Proof. unfold with_rows. cbn. now rewrite <- app_assoc. Qed.

Lemma with_rows_nil (t : sqlite.table) : with_rows t [] = t.
Proof. destruct t. unfold with_rows. cbn. now rewrite app_nil_r. Qed.

Lemma inserted_fieldCount (p : process) (q : string) (args : list string) :
  csvFieldCount (inserted p q args) = csvFieldCount p.
Proof. reflexivity. Qed.

Lemma inserted_all_fieldCount (p : process) (lines : list (list string)) :
  csvFieldCount (inserted_all p lines) = csvFieldCount p.
Proof.
  unfold inserted_all. revert p; induction lines as [|l lines IH]; intros p;
    [reflexivity|].
  cbn [fold_left]. now rewrite IH.
Qed.

Lemma find_table_inserted_all (p : process) (lines : list (list string)) (t : sqlite.table) :
  sqlite.find_table (db p) "csv" = Some t ->
  sqlite.find_table (db (inserted_all p lines)) "csv"
  = Some (with_rows t (map (firstn (Z.to_nat (csvFieldCount p))) lines)).
Proof.
  unfold inserted_all. revert p t; induction lines as [|l lines IH]; intros p t H.
  - cbn. now rewrite with_rows_nil.
  - cbn [fold_left map].
    rewrite (IH _ (with_rows t [firstn (Z.to_nat (csvFieldCount p)) l]))
      by now apply find_table_inserted.
    now rewrite with_rows_app.
Qed.

Lemma Read_record (r r' : csv.Reader) (line : list string) :
  csv.Read r = (csv.Record_ line, r') ->
  csv.pending r = line :: csv.pending r' /\ csv.Comma r' = csv.Comma r.
Proof.
  unfold csv.Read.
  destruct ((csv.Comma r =? 0) || negb (csv.validDelim (csv.Comma r))); [discriminate|].
  destruct (csv.pending r) as [|dst rest]; [discriminate|].
  destruct (0 <? csv.FieldsPerRecord r).
  - destruct (negb (Z.of_nat (List.length dst) =? csv.FieldsPerRecord r));
      [discriminate|].
    intros H; inversion H; split; reflexivity.
  - destruct (csv.FieldsPerRecord r =? 0); intros H; inversion H; split; reflexivity.
Qed.

Lemma Read_EOF (r r' : csv.Reader) :
  csv.Read r = (csv.EOF, r') -> csv.pending r = [].
Proof.
  unfold csv.Read.
  destruct ((csv.Comma r =? 0) || negb (csv.validDelim (csv.Comma r))); [discriminate|].
  destruct (csv.pending r) as [|dst rest]; [reflexivity|].
  destruct (0 <? csv.FieldsPerRecord r).
  - destruct (negb (Z.of_nat (List.length dst) =? csv.FieldsPerRecord r)); discriminate.
  - destruct (csv.FieldsPerRecord r =? 0); discriminate.
Qed.

(** X12: whatever the file holds and however the import ends, the table holds
    at that point, after the rows it held before, the first records of the
    file in their order, each cut to its first fieldCount cells: nothing
    is undone when a later record ends the program, no record is skipped,
    and every stored row has fieldCount cells.  The import ends normally
    only once every record is stored, and then returns their number. *)
Theorem importLoop_stores_a_prefix (fuel : nat) (reader : csv.Reader) (rows : Z)
        (p : process) (t : sqlite.table) :
  sqlite.find_table (db p) "csv" = Some t ->
  Z.of_nat (List.length (sqlite.t_columns t)) = csvFieldCount p ->
  0 < csvFieldCount p ->
  exists j,
    (j <= List.length (csv.pending reader))%nat
    /\ fst (importLoop fuel reader rows p)
       = inserted_all p (firstn j (csv.pending reader))
    /\ sqlite.find_table (db (fst (importLoop fuel reader rows p))) "csv"
       = Some (with_rows t (map (firstn (Z.to_nat (csvFieldCount p)))
                                (firstn j (csv.pending reader))))
    /\ Forall (fun row => Z.of_nat (List.length row) = csvFieldCount p)
              (map (firstn (Z.to_nat (csvFieldCount p))) (firstn j (csv.pending reader)))
    /\ (forall n, snd (importLoop fuel reader rows p) = Ok n ->
                  j = List.length (csv.pending reader) /\ n = rows + Z.of_nat j).
Proof.
  revert reader rows p t; induction fuel as [|fuel IH]; intros reader rows p t Ht Hc Hfc.
  - exists O. cbn [firstn map importLoop stop fst snd].
    split; [lia|]. split; [reflexivity|].
    split; [now rewrite with_rows_nil|]. split; [constructor|discriminate].
  - destruct (csv.Read reader) as [[line| |e] reader'] eqn:E.
    + destruct (Z_lt_le_dec (Z.of_nat (List.length line)) (csvFieldCount p)) as [Hs|Hl].
      * rewrite (importLoop_short_line fuel reader reader' line rows p E Hs).
        exists O. cbn [firstn map fst snd].
        split; [lia|]. split; [reflexivity|].
        split; [now rewrite with_rows_nil|]. split; [constructor|discriminate].
      * rewrite (importLoop_insert fuel reader reader' line rows p t E Ht Hc)
          by lia.
        fold (insert_text p).
        destruct (Read_record _ _ _ E) as [Hp _].
        set (p1 := inserted p (insert_text p) (firstn (Z.to_nat (csvFieldCount p)) line)).
        destruct (IH reader' (rows + 1) p1
                     (with_rows t [firstn (Z.to_nat (csvFieldCount p)) line]))
          as [j [Hj [Hst [Hft [Hall Hok]]]]].
        -- now apply find_table_inserted.
        -- exact Hc.
        -- exact Hfc.
        -- exists (S j). rewrite Hp. cbn [List.length firstn map].
           split; [lia|]. split; [exact Hst|]. split.
           ++ rewrite Hft. rewrite with_rows_app. reflexivity.
           ++ split.
              ** constructor; [|exact Hall].
                 rewrite length_firstn. lia.
              ** intros n Hn. destruct (Hok n Hn) as [-> ->]. split; lia.
    + cbn [importLoop]. rewrite E.
      apply Read_EOF in E. rewrite E.
      exists O. cbn [firstn map ret fst snd List.length].
      split; [lia|]. split; [reflexivity|].
      split; [now rewrite with_rows_nil|]. split; [constructor|].
      intros n H; inversion H; lia.
    + rewrite (importLoop_read_error fuel reader reader' e rows p E).
      exists O. cbn [firstn map fst snd].
      split; [lia|]. split; [reflexivity|].
      split; [now rewrite with_rows_nil|]. split; [constructor|discriminate].
Qed.

(** ** Creating the table *)

Lemma add_columns_fresh (names columns : list string) :
  Forall folded names -> Forall folded columns ->
  NoDup names ->
  (forall n, In n names -> ~ In n columns) ->
  add_columns names columns = sqlite.Done (columns ++ names)%list.
Proof.
  revert columns; induction names as [|n names IH]; intros columns Hn Hc Hnd Hdis.
  - cbn. now rewrite app_nil_r.
  - inversion Hn as [|? ? Hfn Hfnames]; subst.
    inversion Hnd as [|? ? Hnin Hnd']; subst.
    cbn [add_columns]. unfold sqlite.add_column.
    destruct (existsb (sqlite.same_name n) columns) eqn:E.
    + apply (existsb_same_name n columns Hfn Hc) in E.
      exfalso. apply (Hdis n); [now left|assumption].
    + rewrite IH; try assumption.
      * now rewrite <- app_assoc.
      * apply Forall_app. split; [assumption|now constructor].
      * intros m Hm Hin. apply in_app_or in Hin. destruct Hin as [Hin|[<-|[]]].
        -- apply (Hdis m); [now right|assumption].
        -- contradiction.
Qed.

Lemma exec_create_table_fresh (d : sqlite.database) (names : list string) :
  names <> [] ->
  Forall (fun n => sqlite.identifier n = true) names ->
  Forall folded names ->
  NoDup names ->
  sqlite.find_table d "csv" = None ->
  sqlite.exec d ("create table csv (" ++ column_list names) []
  = Some (sqlite.Done {| sqlite.tables := (sqlite.tables d ++ [new_table names])%list;
                         sqlite.indexes := sqlite.indexes d |}).
Proof.
  intros Hne Hid Hf Hnd Hfind.
  unfold sqlite.exec.
  rewrite tokens_create_table;
    [|assumption|eapply Forall_impl; [|exact Hid]; apply identifier_word].
  change (sqlite.is_word "create" "create" && sqlite.is_word "table" "table") with true.
  cbv iota. unfold sqlite.create_table.
  change (negb (sqlite.plain_name "csv")) with false. cbv iota.
  rewrite column_defs_tokens by assumption.
  rewrite add_columns_fresh; try assumption; try constructor.
  - now rewrite Hfind.
  - intros n _ [].
Qed.

Lemma sanitized_folded (header : list string) : Forall folded (map sanitize header).
Proof.
  apply Forall_forall. intros n Hn.
  apply in_map_iff in Hn. destruct Hn as [h [<- _]]. apply sanitize_folded.
Qed.

Lemma createTable_fresh (p : process) (names : list string) :
  createTableQuery (csvHeader p) (csvFieldCount p)
  = Ok ("create table csv (" ++ column_list names) ->
  names <> [] ->
  Forall (fun n => sqlite.identifier n = true) names ->
  Forall folded names ->
  NoDup names ->
  sqlite.find_table (db p) "csv" = None ->
  createTable p
  = (executing p ("create table csv (" ++ column_list names)
               {| sqlite.tables := (sqlite.tables (db p) ++ [new_table names])%list;
                  sqlite.indexes := sqlite.indexes (db p) |},
     Ok tt).
Proof.
  intros Hq Hne Hid Hf Hnd Hfind.
  rewrite (createTable_run p _ Hq).
  now rewrite exec_create_table_fresh.
Qed.

(** X7: when the header tokens used for the table sanitize to names that differ
    from one another (and that the store takes as column names), the table
    is created with exactly these names as its columns, in the order of the
    header: as many columns as the field count, and no row. *)
Theorem createTable_creates_columns (p : process) :
  let names := map sanitize (firstn (Z.to_nat (csvFieldCount p)) (csvHeader p)) in
  0 < csvFieldCount p <= Z.of_nat (List.length (csvHeader p)) ->
  forallb sqlite.identifier names = true ->
  NoDup names ->
  sqlite.find_table (db p) "csv" = None ->
  exists query,
    createTableQuery (csvHeader p) (csvFieldCount p) = Ok query
    /\ createTable p
       = (executing p query
                    {| sqlite.tables := (sqlite.tables (db p) ++ [new_table names])%list;
                       sqlite.indexes := sqlite.indexes (db p) |},
          Ok tt)
    /\ Z.of_nat (List.length names) = csvFieldCount p.
Proof.
  intros names Hfc Hid Hnd Hfind.
  assert (Hlen : List.length names = Z.to_nat (csvFieldCount p)).
  { unfold names. rewrite length_map, length_firstn. lia. }
  assert (Hne : names <> []) by (intros E; rewrite E in Hlen; simpl in Hlen; lia).
  assert (Hid' : Forall (fun n => sqlite.identifier n = true) names)
    by (apply Forall_forall; now apply forallb_forall).
  exists ("create table csv (" ++ column_list names).
  assert (Hq : createTableQuery (csvHeader p) (csvFieldCount p)
               = Ok ("create table csv (" ++ column_list names))
    by (apply createTableQuery_text; lia).
  split; [exact Hq|]. split; [|lia].
  apply createTable_fresh; try assumption.
  apply sanitized_folded.
Qed.

Lemma createTable_creates_columns_sample :
  exists query,
    createTableQuery ["First Name"; "e-mail"] 2 = Ok query
    /\ createTable (fst ((set_csvHeader ["First Name"; "e-mail"] ;;;
                          set_csvFieldCount 2) start))
       = (executing (fst ((set_csvHeader ["First Name"; "e-mail"] ;;;
                           set_csvFieldCount 2) start))
                    query
                    {| sqlite.tables := [new_table ["firstname"; "email"]];
                       sqlite.indexes := [] |},
          Ok tt)
    /\ Z.of_nat (List.length ["firstname"; "email"]) = 2.
Proof.
  apply (createTable_creates_columns
           (fst ((set_csvHeader ["First Name"; "e-mail"] ;;; set_csvFieldCount 2) start))).
  - change (0 < 2 <= 2). lia.
  - reflexivity.
  - repeat constructor; simpl; intuition discriminate.
  - reflexivity.
Defined.



Lemma importLoop_stores_a_prefix_sample :
  exists j,
    (j <= 3)%nat
    /\ fst (importLoop 4 (csv.setComma (csv.NewReader [["1"; "2"]; ["3"; "4"]; ["5"]]) 44) 0
                       (fst (startup custom_flags (Some []))))
       = inserted_all (fst (startup custom_flags (Some [])))
                      (firstn j [["1"; "2"]; ["3"; "4"]; ["5"]])
    /\ sqlite.find_table
         (db (fst (importLoop 4 (csv.setComma (csv.NewReader [["1"; "2"]; ["3"; "4"]; ["5"]]) 44)
                              0 (fst (startup custom_flags (Some [])))))) "csv"
       = Some (with_rows (new_table ["a"; "b"])
                         (map (firstn 2) (firstn j [["1"; "2"]; ["3"; "4"]; ["5"]])))
    /\ Forall (fun row => Z.of_nat (List.length row) = 2)
              (map (firstn 2) (firstn j [["1"; "2"]; ["3"; "4"]; ["5"]]))
    /\ (forall n,
           snd (importLoop 4 (csv.setComma (csv.NewReader [["1"; "2"]; ["3"; "4"]; ["5"]]) 44)
                           0 (fst (startup custom_flags (Some [])))) = Ok n ->
           j = 3%nat /\ n = 0 + Z.of_nat j).
Proof.
  apply (importLoop_stores_a_prefix
           4 (csv.setComma (csv.NewReader [["1"; "2"]; ["3"; "4"]; ["5"]]) 44) 0
           (fst (startup custom_flags (Some []))) (new_table ["a"; "b"])).
  - reflexivity.
  - reflexivity.
  - reflexivity.
Defined.

(** ** A whole file *)

Lemma importLoop_uniform (lines : list (list string)) (fuel : nat) (comma fpr : Z)
      (n : nat) (k : Z) (p : process) (t : sqlite.table) :
  sqlite.find_table (db p) "csv" = Some t ->
  Z.of_nat (List.length (sqlite.t_columns t)) = csvFieldCount p ->
  0 < csvFieldCount p <= Z.of_nat n ->
  csv.validDelim comma = true ->
  fpr = 0 \/ fpr = Z.of_nat n ->
  Forall (fun r => List.length r = n) lines ->
  (List.length lines < fuel)%nat ->
  importLoop fuel {| csv.Comma := comma; csv.FieldsPerRecord := fpr; csv.pending := lines |}
             k p
  = (inserted_all p lines, Ok (k + Z.of_nat (List.length lines))).
Proof.
  intros Ht Hc Hfc Hv.
  assert (Hz : (comma =? 0) = false).
  { destruct (comma =? 0) eqn:E; [|reflexivity].
    apply Z.eqb_eq in E. subst. discriminate. }
  revert fuel fpr k p t Ht Hc Hfc.
  induction lines as [|l lines IH]; intros fuel fpr k p t Ht Hc Hfc Hfpr Hall Hfuel.
  - destruct fuel as [|fuel]; [simpl in Hfuel; lia|].
    cbn [importLoop]. unfold csv.Read. cbn [csv.Comma csv.pending].
    rewrite Hv, Hz. cbn [orb negb ret List.length]. unfold inserted_all. cbn [fold_left].
    replace (k + Z.of_nat 0) with k by lia. reflexivity.
  - destruct fuel as [|fuel]; [simpl in Hfuel; lia|].
    inversion Hall as [|? ? Hl Hlines]; subst.
    assert (Hread : csv.Read {| csv.Comma := comma; csv.FieldsPerRecord := fpr;
                                csv.pending := l :: lines |}
                    = (csv.Record_ l,
                       {| csv.Comma := comma;
                          csv.FieldsPerRecord := Z.of_nat (List.length l);
                          csv.pending := lines |})).
    { unfold csv.Read. cbn [csv.Comma csv.pending csv.FieldsPerRecord].
      rewrite Hv, Hz. cbn [orb negb].
      destruct Hfpr as [->| ->].
      - reflexivity.
      - destruct (0 <? Z.of_nat (List.length l)) eqn:E.
        + now rewrite Z.eqb_refl.
        + apply Z.ltb_ge in E. lia. }
    rewrite (importLoop_insert fuel _ _ l k p t Hread Ht Hc) by lia.
    fold (insert_text p).
    rewrite (IH fuel (Z.of_nat (List.length l)) (k + 1) _
                (with_rows t [firstn (Z.to_nat (csvFieldCount p)) l])).
    + unfold inserted_all. cbn [fold_left List.length].
      replace (k + 1 + Z.of_nat (List.length lines))
        with (k + Z.of_nat (S (List.length lines))) by lia.
      reflexivity.
    + now apply find_table_inserted.
    + exact Hc.
    + exact Hfc.
    + now right.
    + assumption.
    + simpl in Hfuel. lia.
Qed.

Lemma inserted_all_single_table (p : process) (lines : list (list string)) (t : sqlite.table) :
  sqlite.tables (db p) = [t] ->
  sqlite.t_name t = "csv" ->
  db (inserted_all p lines)
  = {| sqlite.tables := [with_rows t (map (firstn (Z.to_nat (csvFieldCount p))) lines)];
       sqlite.indexes := sqlite.indexes (db p) |}.
Proof.
  unfold inserted_all. revert p t; induction lines as [|l lines IH]; intros p t Ht Hn.
  - cbn. rewrite with_rows_nil, <- Ht. now destruct (db p).
  - cbn [fold_left map].
    rewrite (IH _ (with_rows t [firstn (Z.to_nat (csvFieldCount p)) l])).
    + now rewrite with_rows_app.
    + unfold inserted. cbn [db sqlite.tables]. rewrite Ht.
      cbn [sqlite.update_table]. rewrite Hn. reflexivity.
    + exact Hn.
Qed.

Lemma map_firstn_exact {A} (n : nat) (l : list (list A)) :
  Forall (fun r => List.length r = n) l -> map (firstn n) l = l.
Proof.
  induction l as [|r l IH]; intros H; [reflexivity|].
  inversion H as [|? ? Hr Hl]; subst. cbn [map].
  now rewrite firstn_exact, IH.
Qed.

(** X13: a file with a header line whose tokens sanitize to distinct column
    names and whose lines all have as many cells as the header: with the
    header and the field count left to the file and no index requested,
    processCSV ends normally; the columns of the table are the sanitized
    header tokens, its rows are the lines of the file in their order and
    unchanged, and the number returned is the number of lines. *)
Theorem processCSV_imports_file (p : process) (header : list string)
        (rows : list (list string)) :
  csvHasHeader p = true ->
  csvHeader p = [] ->
  csvFieldCount p = 0 ->
  csvIndicies p = [] ->
  csv.validDelim (csvDelimiter p) = true ->
  header <> [] ->
  forallb sqlite.identifier (map sanitize header) = true ->
  NoDup (map sanitize header) ->
  Forall (fun r => List.length r = List.length header) rows ->
  snd (processCSV (Some (header :: rows)) p) = Ok (Z.of_nat (List.length rows))
  /\ db (fst (processCSV (Some (header :: rows)) p))
     = {| sqlite.tables := [with_rows (new_table (map sanitize header)) rows];
          sqlite.indexes := [] |}
  /\ csvHeader (fst (processCSV (Some (header :: rows)) p)) = header
  /\ csvFieldCount (fst (processCSV (Some (header :: rows)) p))
     = Z.of_nat (List.length header).
Proof.
  intros Hh Hhd Hfc Hix Hv Hne Hid Hnd Hall.
  assert (Hz : (csvDelimiter p =? 0) = false).
  { destruct (csvDelimiter p =? 0) eqn:E; [|reflexivity].
    apply Z.eqb_eq in E. rewrite E in Hv. discriminate. }
  assert (Hlen : (0 < List.length header)%nat)
    by (destruct header; [congruence|simpl; lia]).
  set (p0 := fst (set_db sqlite.empty p)).
  set (reader1 := {| csv.Comma := csvDelimiter p;
                     csv.FieldsPerRecord := Z.of_nat (List.length header);
                     csv.pending := rows |}).
  set (p1 := fst (set_csvHeader header p0)).
  set (p2 := fst (set_csvFieldCount (Z.of_nat (List.length header)) p1)).
  assert (Hread : csv.Read (csv.setComma (csv.NewReader (header :: rows)) (csvDelimiter p))
                  = (csv.Record_ header, reader1)).
  { unfold csv.Read, csv.setComma, csv.NewReader.
    cbn [csv.Comma csv.pending csv.FieldsPerRecord]. now rewrite Hv, Hz. }
  assert (H1 : (reader <- openReader (Some (header :: rows)) ;; readHeader reader) p
               = (p1, Ok reader1)).
  { unfold p1, p0, openReader, readHeader, bind, set_db, get, ret, when, set_csvHeader.
    cbn [csvHasHeader csvDelimiter csvHeader fst snd].
    rewrite Hh, Hread, Hhd. reflexivity. }
  assert (H2 : resolveFieldCount p1 = (p2, Ok tt)).
  { unfold resolveFieldCount, bind, get, when, set_csvFieldCount, p1, p0, set_csvHeader, set_db.
    cbn [csvFieldCount csvHeader fst snd]. rewrite Hfc. reflexivity. }
  assert (Hfirst : firstn (Z.to_nat (csvFieldCount p2)) (csvHeader p2) = header).
  { cbn [p2 p1 p0 csvFieldCount csvHeader set_csvFieldCount set_csvHeader set_db fst].
    rewrite Nat2Z.id. apply firstn_exact. }
  set (query := "create table csv (" ++ column_list (map sanitize header)).
  assert (Hq : createTableQuery (csvHeader p2) (csvFieldCount p2) = Ok query).
  { rewrite createTableQuery_text; [now rewrite Hfirst|].
    cbn [p2 p1 p0 csvFieldCount csvHeader set_csvFieldCount set_csvHeader set_db fst]. lia. }
  assert (Hct : createTable p2
                = (executing p2 query
                             {| sqlite.tables :=
                                  (sqlite.tables (db p2) ++ [new_table (map sanitize header)])%list;
                                sqlite.indexes := sqlite.indexes (db p2) |},
                   Ok tt)).
  { apply createTable_fresh; try assumption.
    - intros E. apply Hne. now destruct header.
    - apply Forall_forall. now apply forallb_forall.
    - apply sanitized_folded.
    - reflexivity. }
  set (p3 := executing p2 query
               {| sqlite.tables := (sqlite.tables (db p2) ++ [new_table (map sanitize header)])%list;
                  sqlite.indexes := sqlite.indexes (db p2) |}) in *.
  assert (H3 : importRows reader1 p3
               = (inserted_all p3 rows, Ok (0 + Z.of_nat (List.length rows)))).
  { unfold importRows, reader1. cbn [csv.pending].
    apply (importLoop_uniform rows _ _ _ (List.length header) 0 p3
                              (new_table (map sanitize header))).
    - reflexivity.
    - cbn. rewrite length_map. reflexivity.
    - cbn. lia.
    - exact Hv.
    - now right.
    - exact Hall.
    - lia. }
  assert (Hrun : processCSV (Some (header :: rows)) p
                 = (inserted_all p3 rows, Ok (Z.of_nat (List.length rows)))).
  { unfold processCSV.
    change (bind (openReader (Some (header :: rows)))
                 (fun reader => bind (readHeader reader)
                   (fun reader0 => resolveFieldCount ;;; createTable ;;;
                      (p4 <- get ;; createIndicies (csvIndicies p4) ;;; importRows reader0))) p)
      with (match (reader <- openReader (Some (header :: rows)) ;; readHeader reader) p with
            | (p', Ok reader0) =>
              (resolveFieldCount ;;; createTable ;;;
               (p4 <- get ;; createIndicies (csvIndicies p4) ;;; importRows reader0)) p'
            | (p', Fatal f) => (p', Fatal f)
            | (p', Panic e) => (p', Panic e)
            | (p', Unknown) => (p', Unknown)
            | (p', OutOfFuel) => (p', OutOfFuel)
            end).
    rewrite H1. unfold bind at 1. rewrite H2.
    unfold bind at 1. rewrite Hct.
    unfold bind at 1. unfold get.
    assert (Hix3 : csvIndicies p3 = []) by exact Hix.
    rewrite Hix3. cbn [createIndicies]. unfold bind at 1. unfold ret.
    rewrite H3. reflexivity. }
  rewrite Hrun. cbn [fst snd].
  split; [reflexivity|]. split; [|split].
  - rewrite (inserted_all_single_table p3 rows (new_table (map sanitize header)));
      [|reflexivity|reflexivity].
    replace (Z.to_nat (csvFieldCount p3)) with (List.length header)
      by (cbn; now rewrite Nat2Z.id).
    now rewrite map_firstn_exact.
  - assert (G : forall q lines, csvHeader (inserted_all q lines) = csvHeader q).
    { intros q lines. unfold inserted_all. revert q.
      induction lines as [|l lines IH]; intros q; [reflexivity|].
      cbn [fold_left]. now rewrite IH. }
    now rewrite G.
  - now rewrite inserted_all_fieldCount.
Qed.

Lemma processCSV_imports_file_sample :
  snd (processCSV (Some (["Name"; "E-Mail"] :: [["Ann"; "ann@x.org"]; ["Bob"; "bob@x.org"]]))
                  (configured sample_flags))
  = Ok 2
  /\ db (fst (processCSV
                (Some (["Name"; "E-Mail"] :: [["Ann"; "ann@x.org"]; ["Bob"; "bob@x.org"]]))
                (configured sample_flags)))
     = {| sqlite.tables :=
            [with_rows (new_table ["name"; "email"])
                       [["Ann"; "ann@x.org"]; ["Bob"; "bob@x.org"]]];
          sqlite.indexes := [] |}.
Proof.
  destruct (processCSV_imports_file
              (configured sample_flags) ["Name"; "E-Mail"]
              [["Ann"; "ann@x.org"]; ["Bob"; "bob@x.org"]]) as [H1 [H2 _]].
  - reflexivity.
  - reflexivity.
  - reflexivity.
  - reflexivity.
  - reflexivity.
  - discriminate.
  - reflexivity.
  - repeat constructor; simpl; intuition discriminate.
  - repeat constructor.
  - split; [exact H1|exact H2].
Defined.

(** ** The translation of the parameters *)

Lemma pairs_keys_shape (params : list (string * list string)) :
  map fst (pairs params)
  = flat_map (fun kl => repeat (fst kl) (snd kl)) (shape params).
Proof.
  induction params as [|[k vs] params IH]; [reflexivity|].
  assert (Hp : pairs ((k, vs) :: params) = (map (fun v => (k, v)) vs ++ pairs params)%list)
    by reflexivity.
  rewrite Hp, map_app, IH. cbn [shape map flat_map fst snd]. f_equal.
  clear. induction vs as [|v vs IHv]; [reflexivity|]. cbn. now rewrite IHv.
Qed.

Lemma pairs_values (params : list (string * list string)) :
  map snd (pairs params) = concat (map snd params).
Proof.
  induction params as [|[k vs] params IH]; [reflexivity|].
  assert (Hp : pairs ((k, vs) :: params) = (map (fun v => (k, v)) vs ++ pairs params)%list)
    by reflexivity.
  rewrite Hp, map_app, IH, map_map. cbn [map concat fst snd]. now rewrite map_id.
Qed.

(** X14: the values of the parameters never enter the text of the query: the
    text is fixed by the keys and the number of values of each, and the
    values are handed to the store as the arguments, in the order of their
    clauses. *)
Theorem buildQuery_keeps_values_apart (params params' : list (string * list string)) :
  shape params = shape params' ->
  fst (buildQuery params) = fst (buildQuery params')
  /\ snd (buildQuery params) = concat (map snd params)
  /\ List.length (snd (buildQuery params)) = List.length (map fst (pairs params)).
Proof.
  intros H. unfold buildQuery. rewrite !fold_addValues. cbn [fst snd app].
  rewrite !pairs_keys_shape, H, pairs_values.
  split; [reflexivity|]. split; [reflexivity|].
  rewrite <- pairs_values, <- H, <- pairs_keys_shape. now rewrite !length_map.
Qed.

Lemma buildQuery_keeps_values_apart_sample :
  fst (buildQuery [("a", ["1"; "x' OR 1=1"]); ("b", ["2"])])
  = fst (buildQuery [("a", ["p"; "q"]); ("b", ["r"])])
  /\ snd (buildQuery [("a", ["1"; "x' OR 1=1"]); ("b", ["2"])])
     = ["1"; "x' OR 1=1"; "2"]
  /\ List.length (snd (buildQuery [("a", ["1"; "x' OR 1=1"]); ("b", ["2"])])) = 3%nat.
Proof.
  apply (buildQuery_keeps_values_apart
           [("a", ["1"; "x' OR 1=1"]); ("b", ["2"])] [("a", ["p"; "q"]); ("b", ["r"])]).
  reflexivity.
Defined.

(** ** Answers to filters *)

Lemma passes_satisfies (columns : list string) (ps : list (string * string))
      (row : list string) :
  sqlite.passes row (map (fun kv => (position columns (fst kv), snd kv)) ps)
  = satisfies columns ps row.
Proof.
  unfold satisfies. induction ps as [|[k v] ps IH]; [reflexivity|].
  cbn [map sqlite.passes forallb fst snd].
  destruct (nth_error row (position columns k)); [now rewrite IH|reflexivity].
Qed.

Lemma column_keys (columns : list string) (params : list (string * list string)) :
  forallb (fun kv => column_key columns (fst kv)) params = true ->
  Forall word (map fst (pairs params))
  /\ Forall (fun k => sqlite.column_index columns k <> None) (map fst (pairs params)).
Proof.
  intros Hkeys. rewrite forallb_forall in Hkeys. split.
  - apply pairs_keys. intros kv Hin. apply identifier_word.
    specialize (Hkeys kv Hin). unfold column_key in Hkeys.
    now apply andb_prop in Hkeys.
  - apply pairs_keys. intros kv Hin.
    specialize (Hkeys kv Hin). unfold column_key in Hkeys.
    apply andb_prop in Hkeys. destruct Hkeys as [_ Hkeys].
    now destruct (sqlite.column_index columns (fst kv)).
Qed.

Lemma handleRequest_columns (d : sqlite.database) (t : sqlite.table)
      (params : list (string * list string)) :
  sqlite.find_table d "csv" = Some t ->
  pairs params <> [] ->
  forallb (fun kv => column_key (sqlite.t_columns t) (fst kv)) params = true ->
  handleRequest d params
  = Some (IndentedJSON 200
            (map (project (sqlite.t_columns t))
                 (filter (satisfies (sqlite.t_columns t) (pairs params))
                         (sqlite.t_rows t)))).
Proof.
  intros Ht Hne Hkeys.
  destruct (column_keys _ _ Hkeys) as [Hw Hc].
  unfold handleRequest. rewrite (buildQuery_text params Hne).
  rewrite (query_where d t _ _ Ht); try assumption.
  - rewrite combine_positions.
    erewrite filter_ext; [reflexivity|].
    intros row. apply passes_satisfies.
  - destruct (pairs params); [congruence|discriminate].
  - now rewrite !length_map.
Qed.

(** X15: when every key names a column of the table, the answer is 200 with the
    rows that hold, for every (key, value) pair of the request, the value in
    the column of the key: these rows and no others, in the order of their
    insertion, each converted to a record (as far as the records can be
    encoded). *)
Theorem handleRequest_answers_conjunction (d : sqlite.database) (t : sqlite.table)
        (params : list (string * list string)) :
  sqlite.find_table d "csv" = Some t ->
  pairs params <> [] ->
  forallb (fun kv => column_key (sqlite.t_columns t) (fst kv)) params = true ->
  handleRequest d params
  = Some (IndentedJSON 200
            (map (project (sqlite.t_columns t))
                 (filter (satisfies (sqlite.t_columns t) (pairs params))
                         (sqlite.t_rows t))))
  /\ forall row,
      In row (filter (satisfies (sqlite.t_columns t) (pairs params)) (sqlite.t_rows t))
      <-> In row (sqlite.t_rows t)
          /\ forall k vs v, In (k, vs) params -> In v vs ->
                            nth_error row (position (sqlite.t_columns t) k) = Some v.
Proof.
  intros Ht Hne Hkeys. split; [now apply handleRequest_columns|].
  intros row. rewrite filter_In. unfold satisfies. rewrite forallb_forall.
  split; intros [Hin Hs]; (split; [exact Hin|]).
  - intros k vs v Hk Hv.
    assert (Hp : In (k, v) (pairs params)) by (apply in_pairs; now exists vs).
    specialize (Hs _ Hp). cbn [fst snd] in Hs.
    destruct (nth_error row (position (sqlite.t_columns t) k)); [|discriminate].
    apply String.eqb_eq in Hs. now subst.
  - intros [k v] Hp. apply in_pairs in Hp. destruct Hp as [vs [Hk Hv]].
    cbn [fst snd]. rewrite (Hs k vs v Hk Hv). apply String.eqb_refl.
Qed.

Lemma handleRequest_answers_conjunction_sample :
  handleRequest
    (db (fst (startup sample_flags
                      (Some [["a"; "b"]; ["1"; "x"]; ["2"; "x"]; ["1"; "y"]]))))
    [("b", ["x"]); ("a", ["1"])]
  = Some (JSON 200 (Records [[("a", Num (strconv.float_of_Z 1)); ("b", Str "x")]])).
Proof.
  apply (proj1 (handleRequest_answers_conjunction
                  (db (fst (startup sample_flags
                                    (Some [["a"; "b"]; ["1"; "x"]; ["2"; "x"]; ["1"; "y"]]))))
                  (with_rows (new_table ["a"; "b"]) [["1"; "x"]; ["2"; "x"]; ["1"; "y"]])
                  [("b", ["x"]); ("a", ["1"])] eq_refl ltac:(discriminate) eq_refl)).
Defined.

(** ** The order of the parameters *)

Lemma forallb_Permutation {A : Type} (f : A -> bool) (l l' : list A) :
  Permutation l l' -> forallb f l = forallb f l'.
Proof.
  induction 1 as [|x l l' _ IH|x y l|l l' l'' _ IH1 _ IH2]; cbn [forallb].
  - reflexivity.
  - now rewrite IH.
  - now rewrite !andb_assoc, (andb_comm (f y)).
  - now rewrite IH1.
Qed.

Lemma pairs_Permutation (params params' : list (string * list string)) :
  Permutation params params' -> Permutation (pairs params) (pairs params').
Proof.
  induction 1 as [|x l l' _ IH|x y l|l l' l'' _ IH1 _ IH2]; unfold pairs in *;
    cbn [flat_map].
  - constructor.
  - now apply Permutation_app_head.
  - rewrite !app_assoc. apply Permutation_app_tail, Permutation_app_comm.
  - now transitivity (flat_map (fun kv => map (fun v => (fst kv, v)) (snd kv)) l').
Qed.

(** X16: the handler ranges over a Go map, whose iteration order is not fixed:
    with keys that name columns, the answer is the same for every order in
    which the parameters are visited. *)
Theorem handleRequest_any_order (d : sqlite.database) (t : sqlite.table)
        (params params' : list (string * list string)) :
  sqlite.find_table d "csv" = Some t ->
  Permutation params params' ->
  forallb (fun kv => column_key (sqlite.t_columns t) (fst kv)) params = true ->
  handleRequest d params = handleRequest d params'.
Proof.
  intros Ht Hperm Hkeys.
  assert (Hkeys' : forallb (fun kv => column_key (sqlite.t_columns t) (fst kv)) params'
                   = true)
    by now rewrite <- (forallb_Permutation _ _ _ Hperm).
  pose proof (pairs_Permutation _ _ Hperm) as Hpairs.
  destruct (pairs params) as [|kv l] eqn:E.
  - apply Permutation_nil in Hpairs.
    unfold handleRequest, buildQuery. rewrite !fold_addValues.
    now rewrite E, Hpairs.
  - assert (Hne : pairs params <> []) by (rewrite E; discriminate).
    assert (Hne' : pairs params' <> []).
    { intros H. rewrite H in Hpairs. apply Permutation_sym, Permutation_nil in Hpairs.
      discriminate. }
    rewrite <- E in Hpairs.
    rewrite (handleRequest_columns d t params Ht Hne Hkeys).
    rewrite (handleRequest_columns d t params' Ht Hne' Hkeys').
    do 3 f_equal. apply filter_ext. intros row.
    unfold satisfies. now apply forallb_Permutation.
Qed.

Lemma handleRequest_any_order_sample :
  handleRequest
    (db (fst (startup sample_flags
                      (Some [["a"; "b"]; ["1"; "x"]; ["2"; "x"]; ["1"; "y"]]))))
    [("b", ["x"]); ("a", ["1"])]
  = handleRequest
      (db (fst (startup sample_flags
                        (Some [["a"; "b"]; ["1"; "x"]; ["2"; "x"]; ["1"; "y"]]))))
      [("a", ["1"]); ("b", ["x"])].
Proof.
  apply (handleRequest_any_order
           (db (fst (startup sample_flags
                             (Some [["a"; "b"]; ["1"; "x"]; ["2"; "x"]; ["1"; "y"]]))))
           (with_rows (new_table ["a"; "b"]) [["1"; "x"]; ["2"; "x"]; ["1"; "y"]])
           [("b", ["x"]); ("a", ["1"])] [("a", ["1"]); ("b", ["x"])]
           eq_refl (perm_swap _ _ _) eq_refl).
Defined.

(** ** Keys that name no column *)

Lemma resolve_unknown (columns : list string) (k : string) :
  plain_key k = true ->
  unknown columns k = true ->
  sqlite.resolve columns k = Some (sqlite.Failed ("no such column: " ++ k)).
Proof.
  unfold plain_key, unknown, sqlite.resolve. intros Hp Hu.
  apply andb_prop in Hp. destruct Hp as [Hid Hres].
  destruct (sqlite.column_index columns k); [discriminate|].
  rewrite (identifier_no_digit _ Hid), (identifier_no_keyword _ Hid).
  apply negb_true_iff in Hres. now rewrite Hres.
Qed.

Lemma resolve_plain (columns : list string) (k : string) :
  plain_key k = true ->
  sqlite.resolve columns k = Some (sqlite.Done (position columns k))
  \/ sqlite.resolve columns k = Some (sqlite.Failed ("no such column: " ++ k)).
Proof.
  intros Hp. destruct (unknown columns k) eqn:E.
  - right. now apply resolve_unknown.
  - left. apply resolve_column. unfold unknown in E.
    now destruct (sqlite.column_index columns k).
Qed.

Lemma conditions_plain (columns : list string) (keys : list string) :
  keys <> [] ->
  Forall (fun k => plain_key k = true) keys ->
  exists r, sqlite.conditions columns (where_tokens keys) = Some r.
Proof.
  induction keys as [|k keys IH]; intros Hne Hall; [congruence|].
  inversion Hall as [|? ? Hk Hkeys]; subst.
  destruct keys as [|k' keys].
  - cbn [where_tokens sqlite.conditions].
    destruct (resolve_plain columns k Hk) as [-> | ->]; eexists; reflexivity.
  - change (where_tokens (k :: k' :: keys))
      with (sqlite.Word k :: sqlite.Equal :: sqlite.Param :: sqlite.Word "AND"
            :: where_tokens (k' :: keys)).
    cbn [sqlite.conditions].
    change (sqlite.is_word "and" "AND") with true. cbv iota.
    destruct (IH ltac:(discriminate) Hkeys) as [r ->].
    destruct (resolve_plain columns k Hk) as [-> | ->];
      destruct r; eexists; reflexivity.
Qed.

Lemma conditions_unknown (columns : list string) (keys : list string) :
  Forall (fun k => plain_key k = true) keys ->
  existsb (unknown columns) keys = true ->
  exists k, In k keys /\ unknown columns k = true
            /\ sqlite.conditions columns (where_tokens keys)
               = Some (sqlite.Failed ("no such column: " ++ k)).
Proof.
  induction keys as [|k keys IH]; intros Hall Hex; [discriminate|].
  inversion Hall as [|? ? Hk Hkeys]; subst.
  cbn [existsb] in Hex.
  destruct keys as [|k' keys].
  - cbn [existsb] in Hex. rewrite orb_false_r in Hex.
    exists k. split; [now left|]. split; [assumption|].
    cbn [where_tokens sqlite.conditions]. now rewrite resolve_unknown.
  - change (where_tokens (k :: k' :: keys))
      with (sqlite.Word k :: sqlite.Equal :: sqlite.Param :: sqlite.Word "AND"
            :: where_tokens (k' :: keys)).
    cbn [sqlite.conditions].
    change (sqlite.is_word "and" "AND") with true. cbv iota.
    destruct (unknown columns k) eqn:E.
    + exists k. split; [now left|]. split; [assumption|].
      rewrite resolve_unknown by assumption.
      destruct (conditions_plain columns (k' :: keys) ltac:(discriminate) Hkeys) as [r ->].
      reflexivity.
    + cbn [orb] in Hex. destruct (IH Hkeys Hex) as [u [Hin [Hu Hc]]].
      exists u. split; [now right|]. split; [assumption|].
      rewrite Hc. rewrite resolve_column; [reflexivity|].
      unfold unknown in E. now destruct (sqlite.column_index columns k).
Qed.

(** X17: a key that names no column of the table, and has a value, is answered
    with 400 and the message of the store naming such a key; a key without
    values is never looked at. *)
Theorem handleRequest_unknown_column (d : sqlite.database) (t : sqlite.table)
        (params : list (string * list string)) :
  sqlite.find_table d "csv" = Some t ->
  forallb (fun kv => plain_key (fst kv)) params = true ->
  existsb (unknown (sqlite.t_columns t)) (map fst (pairs params)) = true ->
  exists k vs, In (k, vs) params /\ vs <> []
               /\ unknown (sqlite.t_columns t) k = true
               /\ handleRequest d params
                  = Some (JSON 400 (Message ("no such column: " ++ k))).
Proof.
  intros Ht Hplain Hex.
  assert (Hne : pairs params <> []) by (destruct (pairs params); discriminate).
  rewrite forallb_forall in Hplain.
  assert (Hall : Forall (fun k => plain_key k = true) (map fst (pairs params)))
    by (apply pairs_keys; intros kv Hin; now apply Hplain).
  assert (Hw : Forall word (map fst (pairs params))).
  { apply pairs_keys. intros kv Hin. apply identifier_word.
    specialize (Hplain kv Hin). unfold plain_key in Hplain.
    now apply andb_prop in Hplain. }
  destruct (conditions_unknown _ _ Hall Hex) as [k [Hin [Hu Hc]]].
  apply in_map_iff in Hin. destruct Hin as [[k0 v] [Hk Hin]]. cbn [fst] in Hk. subst k0.
  apply in_pairs in Hin. destruct Hin as [vs [Hin Hv]].
  exists k, vs. split; [assumption|]. split; [now destruct vs|]. split; [assumption|].
  unfold handleRequest. rewrite (buildQuery_text params Hne).
  unfold sqlite.query.
  rewrite tokens_select_where
    by first [assumption | destruct (pairs params); [congruence|discriminate]].
  change (sqlite.is_word "select" "SELECT" && sqlite.is_word "from" "FROM"
          && sqlite.plain_name "csv") with true.
  cbv iota.
  assert (Hshape : exists tk ts, where_tokens (map fst (pairs params))
                                 = sqlite.Word tk :: sqlite.Equal :: ts).
  { destruct (map fst (pairs params)) as [|a [|b l]] eqn:E;
      [discriminate| |]; eexists; eexists; reflexivity. }
  destruct Hshape as [tk [ts Hshape]].
  rewrite Hshape in *.
  change (sqlite.is_word "where" "WHERE") with true. cbv iota.
  now rewrite Ht, Hc.
Qed.

Lemma handleRequest_unknown_column_sample :
  exists k vs, In (k, vs) [("a", ["1"]); ("c", ["x"]); ("d", [])] /\ vs <> []
               /\ unknown ["a"; "b"] k = true
               /\ handleRequest
                    (db (fst (startup sample_flags
                                      (Some [["a"; "b"]; ["1"; "x"]; ["2"; "x"]]))))
                    [("a", ["1"]); ("c", ["x"]); ("d", [])]
                  = Some (JSON 400 (Message ("no such column: " ++ k))).
Proof.
  apply (handleRequest_unknown_column
           (db (fst (startup sample_flags (Some [["a"; "b"]; ["1"; "x"]; ["2"; "x"]]))))
           (with_rows (new_table ["a"; "b"]) [["1"; "x"]; ["2"; "x"]])
           [("a", ["1"]); ("c", ["x"]); ("d", [])] eq_refl eq_refl eq_refl).
Defined.

(** ** Indexes *)

Lemma string_skip_app (a b : string) : string_skip (String.length a) (a ++ b) = b.
Proof. induction a as [|x a IH]; [reflexivity|exact IH]. Qed.

Lemma ends_with_idx (a : string) : ends_with "_idx" (a ++ "_idx") = true.
Proof.
  unfold ends_with. rewrite string_length_app.
  replace (String.length a + String.length "_idx" - String.length "_idx")%nat
    with (String.length a) by lia.
  rewrite string_skip_app. reflexivity.
Qed.

Lemma mem_idx (a : string) (l : list string) :
  forallb (fun k => negb (ends_with "_idx" k)) l = true ->
  sqlite.mem (a ++ "_idx") l = false.
Proof.
  unfold sqlite.mem. induction l as [|k l IH]; intros H; [reflexivity|].
  cbn [forallb existsb] in *. apply andb_prop in H. destruct H as [Hk Hl].
  rewrite (IH Hl), orb_false_r.
  destruct (String.eqb_spec (a ++ "_idx") k) as [E|E]; [|reflexivity].
  subst k. now rewrite ends_with_idx in Hk.
Qed.

Lemma fold_idx (a : string) : sqlite.fold (a ++ "_idx") = sqlite.fold a ++ "_idx".
Proof. unfold sqlite.fold, strings.ToLower. now rewrite string_map_app. Qed.

Lemma keyword_idx (a : string) : sqlite.is_keyword (a ++ "_idx") = false.
Proof.
  unfold sqlite.is_keyword. rewrite fold_idx. apply mem_idx. vm_compute. reflexivity.
Qed.

Lemma csv_idx (a : string) : sqlite.same_name (a ++ "_idx") "csv" = false.
Proof.
  unfold sqlite.same_name. rewrite fold_idx.
  pose proof (mem_idx (sqlite.fold a) ["csv"] eq_refl) as H.
  unfold sqlite.mem in H. cbn [existsb] in H. now rewrite orb_false_r in H.
Qed.

Lemma string_app_inv_tail (a b s : string) : a ++ s = b ++ s -> a = b.
Proof.
  revert b. induction a as [|x a IH]; intros [|y b] H.
  - reflexivity.
  - apply (f_equal String.length) in H. cbn [String.append] in H.
    cbn [String.length] in H. rewrite string_length_app in H. lia.
  - apply (f_equal String.length) in H. cbn [String.append] in H.
    cbn [String.length] in H. rewrite string_length_app in H. lia.
  - cbn [String.append] in H. inversion H; subst. f_equal. now apply IH.
Qed.

Lemma same_name_idx (a b : string) :
  sqlite.same_name (a ++ "_idx") (b ++ "_idx") = sqlite.same_name a b.
Proof.
  unfold sqlite.same_name. rewrite !fold_idx.
  destruct (String.eqb_spec (sqlite.fold a) (sqlite.fold b)) as [E|E].
  - rewrite E. apply String.eqb_refl.
  - apply String.eqb_neq. intros H. apply E. now apply string_app_inv_tail in H.
Qed.

Lemma word_idx (a : string) : word a -> word (a ++ "_idx").
Proof.
  intros [Hne Hw]. split; [now destruct a|].
  clear Hne. induction a as [|x a IH]; [reflexivity|].
  cbn [String.append string_forallb] in *.
  apply andb_prop in Hw. destruct Hw as [-> Hw]. now apply IH.
Qed.

Lemma tokens_create_index (index : string) :
  word index ->
  sqlite.tokens (index_statement index)
  = Some [sqlite.Word "create"; sqlite.Word "index"; sqlite.Word (index ++ "_idx");
          sqlite.Word "on"; sqlite.Word "csv"; sqlite.LParen; sqlite.Word index;
          sqlite.RParen].
Proof.
  intros Hw. unfold sqlite.tokens, index_statement.
  replace ("create index " ++ index ++ "_idx on csv (" ++ index ++ ")")
    with ("create" ++ String " " ("index" ++ String " "
            ((index ++ "_idx") ++ String " " ("on" ++ String " "
               ("csv" ++ String " " (String "(" (index ++ String ")" "")))))))
    by (rewrite (string_app_assoc index); reflexivity).
  rewrite (lex_word_then "create" _ " "%char) by (try split; try discriminate; reflexivity).
  rewrite lex_space.
  rewrite (lex_word_then "index" _ " "%char) by (try split; try discriminate; reflexivity).
  rewrite lex_space.
  rewrite (lex_word_then (index ++ "_idx") _ " "%char)
    by first [now apply word_idx | reflexivity].
  rewrite lex_space.
  rewrite (lex_word_then "on" _ " "%char) by (try split; try discriminate; reflexivity).
  rewrite lex_space.
  rewrite (lex_word_then "csv" _ " "%char) by (try split; try discriminate; reflexivity).
  rewrite lex_space.
  change (sqlite.lex (String "(" (index ++ String ")" "")) "")
    with (option_map (fun ts => sqlite.LParen :: ts)
                     (sqlite.lex (index ++ String ")" "") "")).
  rewrite (lex_word_then index _ ")"%char) by first [assumption | reflexivity].
  reflexivity.
Qed.

Lemma exec_create_index (d : sqlite.database) (t : sqlite.table) (index : string) :
  sqlite.find_table d "csv" = Some t ->
  plain_key index = true ->
  existsb (fun t' => sqlite.same_name (index_name index) (sqlite.t_name t'))
          (sqlite.tables d) = false ->
  sqlite.exec d (index_statement index) []
  = Some (if existsb (sqlite.same_name (index_name index)) (sqlite.indexes d)
          then sqlite.Failed ("index " ++ index_name index ++ " already exists")
          else if unknown (sqlite.t_columns t) index
               then sqlite.Failed ("no such column: " ++ index)
               else sqlite.Done (with_index d (index_name index))).
Proof.
  intros Ht Hp Htab.
  assert (Hid : sqlite.identifier index = true)
    by (unfold plain_key in Hp; now apply andb_prop in Hp).
  unfold sqlite.exec. rewrite (tokens_create_index index (identifier_word _ Hid)).
  change (sqlite.is_word "create" "create" && sqlite.is_word "table" "index") with false.
  change (sqlite.is_word "create" "create" && sqlite.is_word "index" "index"
          && sqlite.is_word "on" "on") with true.
  cbv iota. unfold sqlite.create_index.
  assert (Hd : sqlite.starts_with_digit (index ++ "_idx") = false).
  { pose proof (identifier_no_digit _ Hid) as H.
    destruct index; [|exact H]. discriminate Hid. }
  rewrite Hd, keyword_idx.
  change (negb (sqlite.plain_name "csv")) with false. cbn [orb]. cbv iota.
  rewrite Ht. fold (index_name index). rewrite Htab.
  destruct (existsb (sqlite.same_name (index_name index)) (sqlite.indexes d));
    [reflexivity|].
  destruct (unknown (sqlite.t_columns t) index) eqn:E.
  - now rewrite resolve_unknown.
  - rewrite resolve_column; [reflexivity|].
    unfold unknown in E. now destruct (sqlite.column_index (sqlite.t_columns t) index).
Qed.

Lemma createIndicies_run (p : process) (index : string) (rest : list string) :
  createIndicies (index :: rest) p
  = match sqlite.exec (db p) (index_statement index) [] with
    | None => (fst (record_statement (index_statement index) [] p), Unknown)
    | Some (sqlite.Failed e) =>
      (fst (record_statement (index_statement index) [] p),
       Fatal (CouldNotCreateIndex index e))
    | Some (sqlite.Done d) =>
      createIndicies rest (executing p (index_statement index) d)
    end.
Proof.
  cbn [createIndicies]. fold (index_statement index).
  unfold bind at 1. unfold dbExec, bind, record_statement, get, stop, ret, logFatal, set_db.
  cbn [db fst snd].
  now destruct (sqlite.exec (db p) (index_statement index) []) as [[d|e]|].
Qed.

Lemma find_single_csv (d : sqlite.database) (t : sqlite.table) :
  sqlite.tables d = [t] -> sqlite.t_name t = "csv" ->
  sqlite.find_table d "csv" = Some t
  /\ forall index,
      existsb (fun t' => sqlite.same_name (index_name index) (sqlite.t_name t'))
              (sqlite.tables d) = false.
Proof.
  intros Ht Hn. unfold sqlite.find_table. rewrite Ht. cbn [find existsb].
  rewrite Hn. split; [reflexivity|].
  intros index. unfold index_name. now rewrite csv_idx.
Qed.


Lemma createIndicies_known (t : sqlite.table) (indicies rest : list string) :
  forall p,
    sqlite.tables (db p) = [t] -> sqlite.t_name t = "csv" ->
    Forall (fun i => plain_key i = true) indicies ->
    Forall (fun i => unknown (sqlite.t_columns t) i = false) indicies ->
    NoDup (map sqlite.fold indicies) ->
    (forall i, In i indicies ->
               existsb (sqlite.same_name (index_name i)) (sqlite.indexes (db p)) = false) ->
    createIndicies (indicies ++ rest) p = createIndicies rest (indexed p indicies)
    /\ sqlite.tables (db (indexed p indicies)) = [t]
    /\ sqlite.indexes (db (indexed p indicies))
       = (sqlite.indexes (db p) ++ map index_name indicies)%list.
Proof.
  induction indicies as [|i indicies IH]; intros p Ht Hn Hp Hk Hnd Hfresh.
  - cbn [app indexed fold_left map]. rewrite app_nil_r. now repeat split.
  - inversion Hp as [|? ? Hpi Hp']; subst.
    inversion Hk as [|? ? Hki Hk']; subst.
    cbn [map] in Hnd. inversion Hnd as [|? ? Hnotin Hnd']; subst.
    destruct (find_single_csv (db p) t Ht Hn) as [Hfind Htab].
    cbn [app]. rewrite createIndicies_run.
    rewrite (exec_create_index (db p) t i Hfind Hpi (Htab i)).
    rewrite (Hfresh i (or_introl eq_refl)), Hki.
    set (p' := executing p (index_statement i) (with_index (db p) (index_name i))).
    assert (Hdb : db p' = with_index (db p) (index_name i)) by reflexivity.
    destruct (IH p') as [H1 [H2 H3]]; try assumption.
    + intros j Hj. rewrite Hdb. cbn [with_index sqlite.indexes].
      rewrite existsb_app, (Hfresh j (or_intror Hj)). cbn [existsb orb].
      rewrite orb_false_r. unfold index_name. rewrite same_name_idx.
      unfold sqlite.same_name. apply String.eqb_neq. intros E.
      apply Hnotin. rewrite <- E. now apply in_map.
    + change (indexed p (i :: indicies)) with (indexed p' indicies).
      split; [exact H1|]. split; [exact H2|].
      rewrite H3, Hdb. cbn [with_index sqlite.indexes map]. now rewrite <- app_assoc.
Qed.

(** X10: indexes on distinct columns of the table are all created, each under
    the name of its column followed by _idx, and the table is left as it
    was. *)
Theorem createIndicies_creates_indexes (p : process) (t : sqlite.table)
        (indicies : list string) :
  sqlite.tables (db p) = [t] -> sqlite.t_name t = "csv" ->
  sqlite.indexes (db p) = [] ->
  forallb (fun i => plain_key i && negb (unknown (sqlite.t_columns t) i)) indicies = true ->
  NoDup (map sqlite.fold indicies) ->
  createIndicies indicies p = (indexed p indicies, Ok tt)
  /\ db (indexed p indicies)
     = {| sqlite.tables := [t]; sqlite.indexes := map index_name indicies |}
  /\ map fst (executed (indexed p indicies))
     = (map fst (executed p) ++ map index_statement indicies)%list.
Proof.
  intros Ht Hn Hi Hall Hnd.
  rewrite forallb_forall in Hall.
  destruct (createIndicies_known t indicies [] p) as [H1 [H2 H3]]; try assumption.
  - apply Forall_forall. intros i Hin. specialize (Hall i Hin).
    now apply andb_prop in Hall.
  - apply Forall_forall. intros i Hin. specialize (Hall i Hin).
    apply andb_prop in Hall. destruct Hall as [_ Hall]. now apply negb_true_iff in Hall.
  - intros i _. now rewrite Hi.
  - rewrite app_nil_r in H1. split; [exact H1|]. split.
    + rewrite Hi in H3. cbn [app] in H3.
      destruct (db (indexed p indicies)) as [ts ix]. cbn in H2, H3. now subst.
    + clear. revert p. induction indicies as [|i indicies IH]; intros p.
      * cbn [indexed fold_left map]. now rewrite app_nil_r.
      * change (indexed p (i :: indicies))
          with (indexed (executing p (index_statement i)
                                   (with_index (db p) (index_name i))) indicies).
        rewrite IH. cbn [executing record_statement set_db fst executed map].
        rewrite map_app. cbn [map fst]. now rewrite <- app_assoc.
Qed.

Lemma createIndicies_creates_indexes_sample :
  createIndicies ["b"; "A"] (fst (startup sample_flags (Some [["a"; "b"]; ["1"; "x"]])))
  = (indexed (fst (startup sample_flags (Some [["a"; "b"]; ["1"; "x"]]))) ["b"; "A"], Ok tt)
  /\ db (indexed (fst (startup sample_flags (Some [["a"; "b"]; ["1"; "x"]]))) ["b"; "A"])
     = {| sqlite.tables := [with_rows (new_table ["a"; "b"]) [["1"; "x"]]];
          sqlite.indexes := ["b_idx"; "A_idx"] |}
  /\ map fst (executed (indexed (fst (startup sample_flags
                                              (Some [["a"; "b"]; ["1"; "x"]])))
                                ["b"; "A"]))
     = (map fst (executed (fst (startup sample_flags (Some [["a"; "b"]; ["1"; "x"]]))))
        ++ ["create index b_idx on csv (b)"; "create index A_idx on csv (A)"])%list.
Proof.
  apply (createIndicies_creates_indexes
           (fst (startup sample_flags (Some [["a"; "b"]; ["1"; "x"]])))
           (with_rows (new_table ["a"; "b"]) [["1"; "x"]]) ["b"; "A"]).
  - reflexivity.
  - reflexivity.
  - reflexivity.
  - reflexivity.
  - repeat constructor; simpl; intuition discriminate.
Defined.



(** ** The cells that stay strings *)

Lemma string_forallb_app (f : ascii -> bool) (a b : string) :
  string_forallb f (a ++ b) = string_forallb f a && string_forallb f b.
Proof.
  induction a as [|x a IH]; [reflexivity|].
  cbn [String.append string_forallb]. now rewrite IH, andb_assoc.
Qed.

Lemma numeric_digit (c : ascii) : is_digit c = true -> numeric_byte c = true.
Proof. by_bytes c. Qed.

Lemma numeric_hex_digit (c : ascii) :
  (97 <=? strconv.lower (byte_val c)) && (strconv.lower (byte_val c) <=? 102) = true ->
  numeric_byte c = true.
Proof. by_bytes c. Qed.

Lemma numeric_marker (c : ascii) (hex : bool) :
  (strconv.lower (byte_val c) =? (if hex then 112 else 101)) = true ->
  numeric_byte c = true.
Proof. destruct hex; by_bytes c. Qed.

Lemma numeric_x (c : ascii) :
  (strconv.lower (byte_val c) =? 120) = true -> numeric_byte c = true.
Proof. by_bytes c. Qed.

Lemma numeric_letter (c p : ascii) :
  string_existsb (Ascii.eqb p) "infinitynan" = true ->
  ((if is_upper c then byte_val c + 32 else byte_val c) =? byte_val p) = true ->
  numeric_byte c = true.
Proof.
  intros Hp. destruct p as [[] [] [] [] [] [] [] []]; try discriminate Hp; clear Hp;
    by_bytes c.
Qed.

Lemma commonPrefix_whole (s prefix : string) :
  string_forallb (fun p => string_existsb (Ascii.eqb p) "infinitynan") prefix = true ->
  strconv.commonPrefixLenIgnoreCase s prefix = len s ->
  string_forallb numeric_byte s = true.
Proof.
  revert prefix. induction s as [|c s IH]; intros prefix Hp H; [reflexivity|].
  destruct prefix as [|p prefix].
  - cbn in H. unfold len in H. cbn [String.length] in H. lia.
  - cbn [strconv.commonPrefixLenIgnoreCase] in H.
    cbn [string_forallb] in Hp. apply andb_prop in Hp. destruct Hp as [Hp Hps].
    destruct ((if is_upper c then byte_val c + 32 else byte_val c) =? byte_val p) eqn:E.
    + cbn [string_forallb]. rewrite (numeric_letter c p Hp E). cbn [andb].
      apply (IH prefix Hps). unfold len in *. cbn [String.length] in H. lia.
    + unfold len in H. cbn [String.length] in H. lia.
Qed.

Lemma commonPrefix_bound (s prefix : string) :
  0 <= strconv.commonPrefixLenIgnoreCase s prefix <= len s.
Proof.
  revert prefix. induction s as [|c s IH]; intros prefix.
  - cbn. unfold len. cbn. lia.
  - destruct prefix as [|p prefix]; cbn [strconv.commonPrefixLenIgnoreCase];
      unfold len in *; cbn [String.length].
    + lia.
    + destruct (_ =? _); [specialize (IH prefix)|]; lia.
Qed.

Lemma infinity_prefix_whole (sign : bool) (nsign : Z) (s : string) (f : strconv.float64)
      (n : Z) :
  strconv.infinity_prefix sign nsign s = Some (f, n) ->
  n = nsign + len s ->
  string_forallb numeric_byte s = true.
Proof.
  unfold strconv.infinity_prefix. intros H Hn.
  pose proof (commonPrefix_bound s "infinity") as Hb.
  apply (commonPrefix_whole s "infinity"); [reflexivity|].
  destruct ((3 <? strconv.commonPrefixLenIgnoreCase s "infinity")
            && (strconv.commonPrefixLenIgnoreCase s "infinity" <? 8)) eqn:E.
  - apply andb_prop in E. destruct E as [E1 E2].
    apply Z.ltb_lt in E1. apply Z.ltb_lt in E2.
    cbn in H. inversion H; subst. lia.
  - destruct ((strconv.commonPrefixLenIgnoreCase s "infinity" =? 3)
              || (strconv.commonPrefixLenIgnoreCase s "infinity" =? 8));
      [|discriminate].
    inversion H; subst. lia.
Qed.

Lemma special_whole (s : string) (f : strconv.float64) (n : Z) :
  strconv.special s = Some (f, n) -> n = len s ->
  string_forallb numeric_byte s = true.
Proof.
  destruct s as [|c s]; [discriminate|].
  unfold strconv.special. intros H Hn.
  destruct (Ascii.eqb_spec c "+") as [->|_].
  { cbn [string_forallb]. change (numeric_byte "+") with true. cbn [andb].
    apply (infinity_prefix_whole _ _ _ _ _ H).
    unfold len in *. cbn [String.length] in Hn. lia. }
  destruct (Ascii.eqb_spec c "-") as [->|_].
  { cbn [string_forallb]. change (numeric_byte "-") with true. cbn [andb].
    apply (infinity_prefix_whole _ _ _ _ _ H).
    unfold len in *. cbn [String.length] in Hn. lia. }
  destruct ((c =? "i")%char || (c =? "I")%char).
  { apply (infinity_prefix_whole _ _ _ _ _ H). lia. }
  destruct ((c =? "n")%char || (c =? "N")%char); [|discriminate].
  destruct (strconv.commonPrefixLenIgnoreCase (String c s) "nan" =? 3) eqn:E;
    [|discriminate].
  apply Z.eqb_eq in E. inversion H; subst.
  apply (commonPrefix_whole _ "nan"); [reflexivity|]. lia.
Qed.

Lemma scanMantissa_read (base : Z) (s : string) :
  forall st st' rest,
    strconv.scanMantissa base s st = (st', rest) ->
    exists pre, s = pre ++ rest /\ string_forallb numeric_byte pre = true.
Proof.
  induction s as [|c s IH]; intros st st' rest H.
  - cbn in H. inversion H; subst. now exists "".
  - cbn [strconv.scanMantissa] in H.
    assert (Hstop : (st, String c s) = (st', rest) ->
                    exists pre, String c s = pre ++ rest
                                /\ string_forallb numeric_byte pre = true)
      by (intros E; inversion E; subst; now exists "").
    assert (Hgo : forall st0, numeric_byte c = true ->
                              strconv.scanMantissa base s st0 = (st', rest) ->
                              exists pre, String c s = pre ++ rest
                                          /\ string_forallb numeric_byte pre = true).
    { intros st0 Hc E. destruct (IH _ _ _ E) as [pre [-> Hpre]].
      exists (String c pre). split; [reflexivity|].
      cbn [string_forallb]. now rewrite Hc, Hpre. }
    destruct (Ascii.eqb_spec c "_") as [->|_]; [now apply (Hgo _ eq_refl H)|].
    destruct (Ascii.eqb_spec c ".") as [->|_].
    { destruct (strconv.sawdot st); [now apply Hstop|now apply (Hgo _ eq_refl H)]. }
    destruct (is_digit c) eqn:Ed.
    { destruct ((c =? "0")%char && (strconv.nd st =? 0));
        apply (Hgo _ (numeric_digit c Ed) H). }
    destruct ((base =? 16) && (97 <=? strconv.lower (byte_val c))
              && (strconv.lower (byte_val c) <=? 102)) eqn:Eh; [|now apply Hstop].
    apply andb_prop in Eh. destruct Eh as [Eh E2].
    apply andb_prop in Eh. destruct Eh as [_ E1].
    apply (Hgo _ (numeric_hex_digit c (andb_true_intro (conj E1 E2))) H).
Qed.

Lemma scanExponent_read (s : string) :
  forall e us e' us' rest,
    strconv.scanExponent s e us = (e', us', rest) ->
    exists pre, s = pre ++ rest /\ string_forallb numeric_byte pre = true.
Proof.
  induction s as [|c s IH]; intros e us e' us' rest H.
  - cbn in H. inversion H; subst. now exists "".
  - cbn [strconv.scanExponent] in H.
    assert (Hgo : forall e0 us0, numeric_byte c = true ->
                                 strconv.scanExponent s e0 us0 = (e', us', rest) ->
                                 exists pre, String c s = pre ++ rest
                                             /\ string_forallb numeric_byte pre = true).
    { intros e0 us0 Hc E. destruct (IH _ _ _ _ _ E) as [pre [-> Hpre]].
      exists (String c pre). split; [reflexivity|].
      cbn [string_forallb]. now rewrite Hc, Hpre. }
    destruct (is_digit c) eqn:Ed; [apply (Hgo _ _ (numeric_digit c Ed) H)|].
    destruct (Ascii.eqb_spec c "_") as [->|_]; [now apply (Hgo _ _ eq_refl H)|].
    inversion H; subst. now exists "".
Qed.

Lemma numeric_after_sign (c : ascii) (s : string) :
  string_forallb numeric_byte
                 (if (c =? "+")%char || (c =? "-")%char then s else String c s) = true ->
  string_forallb numeric_byte (String c s) = true.
Proof.
  destruct (Ascii.eqb_spec c "+") as [->|_];
    [cbn [orb]; intros H; cbn [string_forallb]; now rewrite H|].
  destruct (Ascii.eqb_spec c "-") as [->|_];
    [cbn [orb]; intros H; cbn [string_forallb]; now rewrite H|].
  trivial.
Qed.

Lemma readFloat_alphabet (s : string) (r : Z * Z * bool * bool) :
  strconv.readFloat s = Some r -> string_forallb numeric_byte s = true.
Proof.
  destruct s as [|c s']; [discriminate|]. unfold strconv.readFloat.
  intros H. apply numeric_after_sign.
  set (t := if (c =? "+")%char || (c =? "-")%char then s' else String c s') in *.
  clearbody t.
  remember (match t with
            | String c0 (String c1 (String c2 t3)) =>
              if (c0 =? "0")%char && (strconv.lower (byte_val c1) =? 120)
              then (true, String c2 t3) else (false, t)
            | _ => (false, t)
            end) as ht eqn:Eht.
  destruct ht as [hex t1].
  assert (HB : string_forallb numeric_byte t1 = true ->
               string_forallb numeric_byte t = true).
  { destruct t as [|c0 [|c1 [|c2 t3]]]; try (inversion Eht; subst; trivial).
    destruct ((c0 =? "0")%char && (strconv.lower (byte_val c1) =? 120)) eqn:E;
      inversion Eht; subst; [|trivial].
    apply andb_prop in E. destruct E as [E0 E1].
    apply Ascii.eqb_eq in E0. subst c0.
    intros Ht. cbn [string_forallb] in *. rewrite (numeric_x c1 E1).
    exact Ht. }
  apply HB. clear HB Eht t.
  match type of H with
  | context [strconv.scanMantissa ?b ?x ?i] =>
    destruct (strconv.scanMantissa b x i) as [st t2] eqn:Escan
  end.
  destruct (scanMantissa_read _ _ _ _ _ Escan) as [pre [-> Hpre]].
  rewrite string_forallb_app, Hpre. cbn [andb].
  clear Escan Hpre.
  destruct (negb (strconv.sawdigits st)); [discriminate|].
  destruct t2 as [|ce t']; [reflexivity|].
  destruct (strconv.lower (byte_val ce) =? (if hex then 112 else 101)) eqn:Ee.
  - cbn [string_forallb]. rewrite (numeric_marker ce hex Ee). cbn [andb].
    destruct t' as [|c' t'']; [discriminate|].
    apply numeric_after_sign.
    destruct (if (c' =? "+")%char || (c' =? "-")%char then t'' else String c' t'')
      as [|d u'] eqn:Eu; [discriminate|].
    destruct (negb (is_digit d)); [discriminate|].
    match type of H with
    | context [strconv.scanExponent ?x ?e ?u] =>
      destruct (strconv.scanExponent x e u) as [[e1 us] rest] eqn:Eexp
    end.
    destruct (scanExponent_read _ _ _ _ _ _ Eexp) as [pre' [-> Hpre']].
    destruct rest as [|x rest].
    + now rewrite string_app_empty.
    + destruct (us && negb (strconv.underscoreOK (String c s'))); discriminate.
  - destruct hex; [discriminate|].
    destruct (strconv.underscores st && negb (strconv.underscoreOK (String c s')));
      discriminate.
Qed.

Lemma ParseFloat_alphabet (s : string) (f : strconv.float64) :
  strconv.ParseFloat s = Some f -> string_forallb numeric_byte s = true.
Proof.
  unfold strconv.ParseFloat. intros H.
  destruct (strconv.special s) as [[g n]|] eqn:Es.
  - destruct (n =? len s) eqn:En; [|discriminate].
    apply Z.eqb_eq in En. now apply (special_whole s g n).
  - destruct (strconv.readFloat s) as [r|] eqn:Er; [|discriminate].
    now apply (readFloat_alphabet s r).
Qed.

Lemma string_forallb_filter (f g : ascii -> bool) (s : string) :
  string_forallb f (string_filter g s) = true ->
  string_forallb (fun c => f c || negb (g c)) s = true.
Proof.
  induction s as [|c s IH]; [reflexivity|].
  cbn [string_filter string_forallb].
  destruct (g c); cbn [string_forallb negb].
  - intros H. apply andb_prop in H. destruct H as [-> H]. now apply IH.
  - intros H. rewrite orb_true_r. now apply IH.
Qed.

(** X18: a cell is converted to a number only when each of its bytes is a comma
    or a byte of the numeric alphabet: a cell with any other byte (a space,
    a unit, a currency sign, a colon) is returned as the string it is, also
    when the rest of it reads as a number.  The whitespace around a number
    is not trimmed. *)
Theorem convert_keeps_cells_with_other_bytes (cell : string) :
  string_existsb (fun c => negb (numeric_byte c) && not_comma c) cell = true ->
  convert cell = Str cell.
Proof.
  intros H. unfold convert. rewrite ReplaceAll_commas.
  destruct (strconv.ParseFloat (string_filter not_comma cell)) as [f|] eqn:E;
    [|reflexivity].
  apply ParseFloat_alphabet, string_forallb_filter in E.
  exfalso. clear f. induction cell as [|c cell IH]; [discriminate|].
  cbn [string_existsb string_forallb] in *.
  apply andb_prop in E. destruct E as [Ec E].
  apply orb_prop in H. destruct H as [H|H]; [|now apply IH].
  apply andb_prop in H. destruct H as [H1 H2].
  rewrite H2 in Ec. apply negb_true_iff in H1. rewrite H1 in Ec. discriminate.
Qed.

Lemma convert_keeps_cells_with_other_bytes_sample : convert " 42" = Str " 42".
Proof. apply (convert_keeps_cells_with_other_bytes " 42"). reflexivity. Defined.

(** ** Without a header *)

(** X5: without a header line and without a custom header the program never
    gets to import a line, whatever the file holds: a positive field count
    makes the loop building the CREATE TABLE statement panic, and any other
    field count sends the store a statement without columns, which it
    rejects.  No table exists when the program ends. *)
Theorem processCSV_needs_a_header (p : process) (records : list (list string)) :
  csvHasHeader p = false ->
  csvHeader p = [] ->
  snd (processCSV (Some records) p)
  = (if 0 <? csvFieldCount p then Panic (IndexOutOfRange 0 0)
     else Fatal (CouldNotCreateTable "incomplete input"))
  /\ sqlite.tables (db (fst (processCSV (Some records) p))) = [].
Proof.
  intros Hh Hhd.
  set (p0 := fst (set_db sqlite.empty p)).
  set (reader0 := csv.setComma (csv.NewReader records) (csvDelimiter p)).
  assert (H1 : (reader <- openReader (Some records) ;; readHeader reader) p
               = (p0, Ok reader0)).
  { unfold p0, reader0, openReader, readHeader, bind, set_db, get, ret.
    cbn [csvHasHeader csvDelimiter fst snd]. now rewrite Hh. }
  set (p1 := fst (resolveFieldCount p0)).
  assert (H2 : resolveFieldCount p0 = (p1, Ok tt)).
  { unfold p1, resolveFieldCount, bind, get, when, set_csvFieldCount, ret.
    destruct (csvFieldCount p0 =? 0); reflexivity. }
  assert (Hhd1 : csvHeader p1 = []).
  { unfold p1, resolveFieldCount, bind, get, when, set_csvFieldCount, ret.
    destruct (csvFieldCount p0 =? 0); exact Hhd. }
  assert (Hfc1 : csvFieldCount p1 = csvFieldCount p).
  { unfold p1, resolveFieldCount, bind, get, when, set_csvFieldCount, ret.
    destruct (csvFieldCount p0 =? 0) eqn:E; [|reflexivity].
    apply Z.eqb_eq in E. cbn [fst csvFieldCount]. change (csvHeader p0) with (csvHeader p).
    rewrite Hhd. symmetry. exact E. }
  assert (Hdb1 : db p1 = sqlite.empty).
  { unfold p1, resolveFieldCount, bind, get, when, set_csvFieldCount, ret.
    destruct (csvFieldCount p0 =? 0); reflexivity. }
  assert (Hct : createTable p1
                = if 0 <? csvFieldCount p
                  then (p1, Panic (IndexOutOfRange 0 0))
                  else (fst (record_statement "create table csv (" [] p1),
                        Fatal (CouldNotCreateTable "incomplete input"))).
  { destruct (0 <? csvFieldCount p) eqn:E.
    - apply Z.ltb_lt in E. rewrite (createTable_short p1); rewrite Hhd1; [reflexivity|].
      cbn [List.length]. lia.
    - apply Z.ltb_ge in E.
      assert (Hq : createTableQuery (csvHeader p1) (csvFieldCount p1)
                   = Ok "create table csv (").
      { unfold createTableQuery. replace (Z.to_nat (csvFieldCount p1)) with O by lia.
        reflexivity. }
      rewrite (createTable_run p1 _ Hq). reflexivity. }
  assert (Hrun : processCSV (Some records) p
                 = if 0 <? csvFieldCount p
                   then (p1, Panic (IndexOutOfRange 0 0))
                   else (fst (record_statement "create table csv (" [] p1),
                         Fatal (CouldNotCreateTable "incomplete input"))).
  { unfold processCSV.
    change (bind (openReader (Some records))
                 (fun reader => bind (readHeader reader)
                   (fun reader0 => resolveFieldCount ;;; createTable ;;;
                      (p4 <- get ;; createIndicies (csvIndicies p4) ;;; importRows reader0))) p)
      with (match (reader <- openReader (Some records) ;; readHeader reader) p with
            | (p', Ok reader0) =>
              (resolveFieldCount ;;; createTable ;;;
               (p4 <- get ;; createIndicies (csvIndicies p4) ;;; importRows reader0)) p'
            | (p', Fatal f) => (p', Fatal f)
            | (p', Panic e) => (p', Panic e)
            | (p', Unknown) => (p', Unknown)
            | (p', OutOfFuel) => (p', OutOfFuel)
            end).
    rewrite H1. unfold bind at 1. rewrite H2.
    unfold bind at 1. rewrite Hct.
    now destruct (0 <? csvFieldCount p). }
  rewrite Hrun.
  destruct (0 <? csvFieldCount p); cbn [fst snd record_statement db];
    (split; [reflexivity|now rewrite Hdb1]).
Qed.

Lemma processCSV_needs_a_header_sample :
  snd (processCSV (Some [["1"; "x"]; ["2"; "y"]]) start)
  = Fatal (CouldNotCreateTable "incomplete input")
  /\ sqlite.tables (db (fst (processCSV (Some [["1"; "x"]; ["2"; "y"]]) start))) = [].
Proof.
  apply (processCSV_needs_a_header start [["1"; "x"]; ["2"; "y"]] eq_refl eq_refl).
Defined.

(** ** Cells that cannot be encoded *)



(** ** A header token without letters or digits *)

(** X9: a header token without a letter or a digit sanitizes to the empty
    string, so that the type written after it is all that is left of its
    column definition: the store reads the word text as the name of the
    column.  With one such token as the header, the table gets the single
    column text. *)
Theorem createTable_names_column_after_type (p : process) (h : string) :
  csvHeader p = [h] ->
  csvFieldCount p = 1 ->
  string_existsb is_alnum h = false ->
  sqlite.find_table (db p) "csv" = None ->
  createTable p
  = (executing p "create table csv ( text);"
               {| sqlite.tables := (sqlite.tables (db p) ++ [new_table ["text"]])%list;
                  sqlite.indexes := sqlite.indexes (db p) |},
     Ok tt).
Proof.
  intros Hhd Hfc Hh Hfind.
  assert (Hs : sanitize h = "") by now apply sanitize_empty_iff.
  assert (Hq : createTableQuery (csvHeader p) (csvFieldCount p)
               = Ok "create table csv ( text);").
  { rewrite Hhd, Hfc, createTableQuery_text by (cbn [List.length]; lia).
    change (firstn (Z.to_nat 1) [h]) with [h]. cbn [map]. now rewrite Hs. }
  rewrite (createTable_run p _ Hq).
  unfold sqlite.exec.
  change (sqlite.tokens "create table csv ( text);")
    with (Some [sqlite.Word "create"; sqlite.Word "table"; sqlite.Word "csv";
                sqlite.LParen; sqlite.Word "text"; sqlite.RParen; sqlite.Semi]).
  cbv iota.
  change (sqlite.is_word "create" "create" && sqlite.is_word "table" "table") with true.
  cbv iota. unfold sqlite.create_table.
  change (negb (sqlite.plain_name "csv")) with false. cbv iota.
  change (sqlite.column_defs [sqlite.Word "text"; sqlite.RParen; sqlite.Semi] [])
    with (Some (sqlite.Done ["text"])).
  cbv iota. now rewrite Hfind.
Qed.

Lemma createTable_names_column_after_type_sample :
  createTable (fst ((set_csvHeader ["#"] ;;; set_csvFieldCount 1) start))
  = (executing (fst ((set_csvHeader ["#"] ;;; set_csvFieldCount 1) start))
               "create table csv ( text);"
               {| sqlite.tables := [new_table ["text"]]; sqlite.indexes := [] |},
     Ok tt).
Proof.
  apply (createTable_names_column_after_type
           (fst ((set_csvHeader ["#"] ;;; set_csvFieldCount 1) start)) "#");
    reflexivity.
Defined.
